(** * Cross-reference validators of Millennium Dawn: a shallow embedding

    The two scripts [tools/validation/validate_variables.py] and
    [tools/validation/validate_scripted_localisation.py] are embedded as
    executable Rocq functions, and the statements of their specification
    are settled against them.

    Conventions of the embedding.
    - A Python [str] is a [string] (a sequence of bytes; a text is taken
      in its UTF-8 encoding, and [lower] folds the ASCII letters only).
    - A Python [list] is a [list]; a [dict] with [str] keys is an
      insertion-ordered association list ([dict]); a [set] is a list
      without an order of its own: the functions that build one take the
      iteration order as the argument [set_order].
    - The file tree is a value [filesystem]; reading a file gives the
      decoded text or the error [open]/[read] raised, and running git
      in it gives the staged names, a failure, or the exception raised
      when git cannot be started.
    - Effects ([logging] records, files opened, files written) are
      collected in a trace; exceptions are the left injection. *)

From Stdlib Require Import List String Ascii Bool Arith Lia DecimalString.
Import ListNotations.
Open Scope list_scope.
Open Scope string_scope.

(** ** Python strings *)

Definition chr (n : nat) : string := String (ascii_of_nat n) "".

Definition NL  : string := chr 10.
Definition TAB : string := chr 9.
Definition ESC : string := chr 27.

(** [needle in hay]. *)
Fixpoint str_in (needle hay : string) : bool :=
  if prefix needle hay then true
  else match hay with
       | EmptyString => false
       | String _ hay' => str_in needle hay'
       end.

(** [s.startswith(p)] and [s.endswith(p)]. *)
Definition startswith (s p : string) : bool := prefix p s.

Fixpoint endswith (s p : string) : bool :=
  if String.eqb s p then true
  else match s with
       | EmptyString => false
       | String _ s' => endswith s' p
       end.

(** [s] without its prefix [p], when it has it. *)
Fixpoint strip_prefix (p s : string) : option string :=
  match p with
  | EmptyString => Some s
  | String a p' =>
      match s with
      | String b s' => if Ascii.eqb a b then strip_prefix p' s' else None
      | EmptyString => None
      end
  end.

Definition is_upper (c : ascii) : bool :=
  (65 <=? nat_of_ascii c)%nat && (nat_of_ascii c <=? 90)%nat.

Definition lower_char (c : ascii) : ascii :=
  if is_upper c then ascii_of_nat (nat_of_ascii c + 32) else c.

(** [s.lower()], on the ASCII letters: the bytes of any other
    character are left as they are.  This is [str.lower] for a text
    whose cased letters are all ASCII letters, and on any text it folds
    the ASCII letters as [str.lower] does, each in its place. *)
Fixpoint lower (s : string) : string :=
  match s with
  | EmptyString => EmptyString
  | String c s' => String (lower_char c) (lower s')
  end.

(** [s.replace(a, b)] for one-character [a] and [b]. *)
Fixpoint replace_char (a b : ascii) (s : string) : string :=
  match s with
  | EmptyString => EmptyString
  | String c s' => String (if Ascii.eqb c a then b else c) (replace_char a b s')
  end.

(** [sep.join(l)]. *)
Fixpoint join (sep : string) (l : list string) : string :=
  match l with
  | [] => ""
  | [x] => x
  | x :: l' => x ++ sep ++ join sep l'
  end.

(** [s * n]. *)
Fixpoint str_mul (s : string) (n : nat) : string :=
  match n with
  | O => ""
  | S n' => s ++ str_mul s n'
  end.

(** [str(n)] for a natural number. *)
Definition str_of_nat (n : nat) : string :=
  NilEmpty.string_of_uint (Nat.to_uint n).

(** [x in l] for a list of strings. *)
Definition mem (x : string) (l : list string) : bool :=
  existsb (String.eqb x) l.

(** The text after the last ["/"]: [os.path.basename]. *)
Fixpoint basename_from (cur s : string) : string :=
  match s with
  | EmptyString => cur
  | String c s' =>
      if Ascii.eqb c "/"%char then basename_from s' s' else basename_from cur s'
  end.

Definition basename (p : string) : string := basename_from p p.

(** [os.path.join(a, b)] on POSIX paths. *)
Definition path_join (a b : string) : string :=
  if startswith b "/" then b
  else if String.eqb a "" || endswith a "/" then a ++ b
  else a ++ "/" ++ b.

(** [os.path.relpath(p, start)] for a path the walk produced under
    [start] (which ends with ["/"]): the text after [start]. *)
Definition relpath (p start : string) : string :=
  match strip_prefix start p with
  | Some r => r
  | None => p
  end.

(** The lines of a text as iterating over a file yields them: each one
    keeps its newline. *)
Fixpoint lines_from (cur s : string) : list string :=
  match s with
  | EmptyString => if String.eqb cur "" then [] else [cur]
  | String c s' =>
      if Ascii.eqb c "010"%char
      then (cur ++ String c "") :: lines_from "" s'
      else lines_from (cur ++ String c "") s'
  end.

Definition lines (s : string) : list string := lines_from "" s.

(** ** Python dictionaries with string keys, in insertion order *)

Definition dict (V : Type) : Type := list (string * V).

Fixpoint dict_get {V} (k : string) (d : dict V) : option V :=
  match d with
  | [] => None
  | (k', v) :: d' => if String.eqb k k' then Some v else dict_get k d'
  end.

(** [d[k] = v]: an existing key keeps its place. *)
Fixpoint dict_set {V} (k : string) (v : V) (d : dict V) : dict V :=
  match d with
  | [] => [(k, v)]
  | (k', v') :: d' =>
      if String.eqb k k' then (k', v) :: d' else (k', v') :: dict_set k v d'
  end.

Definition dict_keys {V} (d : dict V) : list string := map fst d.

Definition dict_mem {V} (k : string) (d : dict V) : bool := mem k (dict_keys d).

(** [d.pop(k)] for a key of [d]. *)
Definition dict_pop {V} (k : string) (d : dict V) : dict V :=
  filter (fun kv => negb (String.eqb k (fst kv))) d.

(** ** The fragment of [re] the scripts use

    A pattern is a sequence of items; each script pattern has at most
    one group, and the group is always a greedy [[class]+]. *)

Inductive item : Type :=
| Lit (s : string)               (* literal text *)
| One (p : ascii -> bool)        (* [class], one character *)
| Plus (p : ascii -> bool)       (* [class]+, greedy; the group when there is one *)
| Star (p : ascii -> bool)       (* [class]*, greedy *)
| LazyAny.                       (* .*? under DOTALL *)

Definition pattern : Type := list item.

(** [[class]+] before the rest [k] of a pattern, greedy: the longest
    run is tried first, then shorter ones; the run is the group. *)
Fixpoint plus_loop (p : ascii -> bool) (k : string -> option (string * string))
    (s acc : string) : option (string * string) :=
  match s with
  | String c s' =>
      if p c then
        match plus_loop p k s' (acc ++ String c "") with
        | Some r => Some r
        | None =>
            match k s' with
            | Some (_, rest) => Some (acc ++ String c "", rest)
            | None => None
            end
        end
      else None
  | EmptyString => None
  end.

(** [[class]*] before the rest [k] of a pattern, greedy. *)
Fixpoint star_loop (p : ascii -> bool) (k : string -> option (string * string))
    (s : string) : option (string * string) :=
  match s with
  | String c s' =>
      if p c then
        match star_loop p k s' with
        | Some r => Some r
        | None => k s
        end
      else k s
  | EmptyString => k s
  end.

(** [.*?] before the rest [k] of a pattern: the shortest run first. *)
Fixpoint lazy_loop (k : string -> option (string * string)) (s : string)
  : option (string * string) :=
  match k s with
  | Some r => Some r
  | None =>
      match s with
      | String _ s' => lazy_loop k s'
      | EmptyString => None
      end
  end.

(** Backtracking match of a pattern at the start of [s]: the text of the
    group and the text left after the match. *)
Fixpoint re_match (its : pattern) (s : string) : option (string * string) :=
  match its with
  | [] => Some ("", s)
  | Lit l :: its' =>
      match strip_prefix l s with
      | Some s' => re_match its' s'
      | None => None
      end
  | One p :: its' =>
      match s with
      | String c s' => if p c then re_match its' s' else None
      | EmptyString => None
      end
  | Plus p :: its' => plus_loop p (re_match its') s ""
  | Star p :: its' => star_loop p (re_match its') s
  | LazyAny :: its' => lazy_loop (re_match its') s
  end.

(** [re.findall(pattern, s)] for a pattern with one group: the scan goes
    left to right, and after a match it resumes where the match ended.
    [skip] counts the characters of the last match still to pass. *)
Fixpoint findall_from (its : pattern) (skip : nat) (s : string) : list string :=
  match skip with
  | S k =>
      match s with
      | String _ s' => findall_from its k s'
      | EmptyString => []
      end
  | O =>
      match re_match its s with
      | Some (g, rest) =>
          g :: match s with
               | String _ s' =>
                   findall_from its (String.length s - String.length rest - 1) s'
               | EmptyString => []
               end
      | None =>
          match s with
          | String _ s' => findall_from its 0 s'
          | EmptyString => []
          end
      end
  end.

Definition findall (its : pattern) (s : string) : list string :=
  findall_from its 0 s.

(** [re.sub(pattern, "", s)]: every match, found as [findall] finds
    them, is deleted. *)
Fixpoint sub_from (its : pattern) (skip : nat) (s : string) : string :=
  match skip with
  | S k =>
      match s with
      | String _ s' => sub_from its k s'
      | EmptyString => ""
      end
  | O =>
      match re_match its s with
      | Some (_, rest) =>
          match s with
          | String c s' =>
              match String.length s - String.length rest with
              | O => String c (sub_from its 0 s')
              | S n => sub_from its n s'
              end
          | EmptyString => ""
          end
      | None =>
          match s with
          | String c s' => String c (sub_from its 0 s')
          | EmptyString => ""
          end
      end
  end.

Definition re_sub_empty (its : pattern) (s : string) : string :=
  sub_from its 0 s.

(** Character classes. *)
Definition one_of (cs : string) (c : ascii) : bool :=
  str_in (String c "") cs.

Definition none_of (cs : string) (c : ascii) : bool := negb (one_of cs c).

Definition is_digit (c : ascii) : bool :=
  (48 <=? nat_of_ascii c)%nat && (nat_of_ascii c <=? 57)%nat.

Definition is_lower (c : ascii) : bool :=
  (97 <=? nat_of_ascii c)%nat && (nat_of_ascii c <=? 122)%nat.

(** [[a-zA-Z_0-9]] *)
Definition is_word (c : ascii) : bool :=
  is_lower c || is_upper c || Ascii.eqb c "_"%char || is_digit c.

(** [\s] on ASCII: space, tab, newline, carriage return, form feed,
    vertical tab. *)
Definition is_space (c : ascii) : bool :=
  let n := nat_of_ascii c in
  (n =? 32)%nat || ((9 <=? n)%nat && (n <=? 13)%nat).

(** ** DataCleaner (the same text in both scripts) *)

Module DataCleaner.

(** The argument is a [dict] or a [list]; any other value makes the
    method return [None]. *)
Inductive container (V : Type) : Type :=
| PyDict (d : dict V)
| PyList (l : list string)
| PyOther.
Arguments PyDict {V} d.
Arguments PyList {V} l.
Arguments PyOther {V}.

(** The two nested loops that fill [skip_list]. *)
Definition skip_list_of (keys : list string) (false_positives : list string)
  : list string :=
  flat_map
    (fun k =>
       flat_map (fun f => if str_in f k then [k] else []) false_positives)
    keys.

Definition clear_false_positives_partial_match {V}
    (input_iter : container V) (false_positives : list string)
  : option (container V) :=
  match input_iter with
  | PyDict d =>
      if (0 <? List.length false_positives)%nat then
        let skip_list := skip_list_of (dict_keys d) false_positives in
        Some (PyDict
                (fold_left
                   (fun d i => if dict_mem i d then dict_pop i d else d)
                   skip_list d))
      else Some (PyDict d)
  | PyList l =>
      if (0 <? List.length false_positives)%nat then
        let skip_list := skip_list_of l false_positives in
        Some (PyList (filter (fun i => negb (mem i skip_list)) l))
      else Some (PyList l)
  | PyOther => None
  end.

(** The call on a list, as every check makes it. *)
Definition clear_list (l : list string) (false_positives : list string)
  : list string :=
  match clear_false_positives_partial_match (V := unit) (PyList l) false_positives with
  | Some (PyList l') => l'
  | _ => l
  end.

End DataCleaner.


(** ** The file tree *)

(** What reading a file gives.  A file is read at once: an error of the
    decoder anywhere in it fails the whole read, also where the script
    iterates over the lines. *)
Inductive read_result : Type :=
| ReadOk (text : string)      (* the decoded text (utf-8-sig, universal newlines) *)
| ReadErr (ex : string).      (* the exception [open] or [read] raises *)

(** What [subprocess.run(["git", "diff", "--cached", "--name-only",
    "--diff-filter=ACM"], cwd=mod_path, capture_output=True, text=True,
    check=True)] does. *)
Inductive git_result : Type :=
| GitNames (names : list string)  (* status 0: the lines of its stripped output *)
| GitFails                        (* another status: [CalledProcessError] *)
| GitAbsent (ex : string).        (* git cannot be started: [FileNotFoundError],
                                     or another [OSError] *)

Record filesystem : Type := {
  (* the regular files, in the order a walk enumerates them *)
  fs_files : list (string * read_result);
  (* the directories *)
  fs_dirs : list string;
  (* the exception opening a path for writing raises, if it does *)
  fs_write_err : string -> option string;
  (* what running git in the tree gives *)
  fs_git : git_result
}.

Fixpoint lookup_file (path : string) (files : list (string * read_result))
  : read_result :=
  match files with
  | [] => ReadErr "No such file or directory"
  | (p, r) :: files' => if String.eqb path p then r else lookup_file path files'
  end.

(** [open(path, "r", encoding="utf-8-sig")] followed by [read()]. *)
Definition fs_read (fs : filesystem) (path : string) : read_result :=
  lookup_file path (fs_files fs).

Definition fs_is_dir (fs : filesystem) (path : string) : bool :=
  mem path (fs_dirs fs).

Definition fs_exists (fs : filesystem) (path : string) : bool :=
  fs_is_dir fs path || mem path (map fst (fs_files fs)).

(** A name that starts with a dot is hidden from a wildcard. *)
Definition hidden (rel : string) : bool :=
  startswith rel "." || str_in "/." rel.

(** [glob.iglob(root + "**/*" + ext, recursive=True)] for a [root] that
    ends with a slash, as a [Validator] passes it: the files under
    [root], at any depth, whose name ends with [ext], hidden ones apart,
    in the order of the walk. *)
Definition iglob_rec (fs : filesystem) (root ext : string) : list string :=
  filter
    (fun p =>
       match strip_prefix root p with
       | Some rel => negb (hidden rel) && endswith rel ext
       | None => false
       end)
    (map fst (fs_files fs)).

(** [glob.glob(dir + "*" + ext)]: the files of one directory. *)
Definition glob_dir (fs : filesystem) (dir ext : string) : list string :=
  filter
    (fun p =>
       match strip_prefix dir p with
       | Some name => negb (hidden name) && negb (str_in "/" name) && endswith name ext
       | None => false
       end)
    (map fst (fs_files fs)).

(** ** Effects: a trace of what the script does, and exceptions *)

Inductive exn : Type :=
| ValueError (msg : string)
| KeyError (key : string)
| IndexError
| OSError (msg : string).

Inductive level : Type := INFO | WARNING | ERROR.

Inductive event : Type :=
| EvOpen (path : string)                   (* a file is opened for reading *)
| EvLog (lv : level) (msg : string)        (* logging.info / warning / error *)
| EvWrite (path : string) (content : string).  (* a file is written *)

Definition M (A : Type) : Type := ((exn + A) * list event)%type.

Definition ret {A} (a : A) : M A := (inr a, []).

Definition raise {A} (e : exn) : M A := (inl e, []).

Definition emit (e : event) : M unit := (inr tt, [e]).

Definition bind {A B} (m : M A) (f : A -> M B) : M B :=
  match m with
  | (inl e, t) => (inl e, t)
  | (inr a, t) => let (r, t') := f a in (r, (t ++ t')%list)
  end.

Declare Scope py_scope.
Delimit Scope py_scope with py.
Notation "x <- m ;; k" := (bind m (fun x => k))
  (at level 61, m at next level, right associativity) : py_scope.
Notation "m ;;; k" := (bind m (fun _ => k))
  (at level 61, right associativity) : py_scope.
Open Scope py_scope.

(** The value a computation returns, and its trace. *)
Definition value {A} (m : M A) : exn + A := fst m.
Definition trace {A} (m : M A) : list event := snd m.

(** [for x in l: s = f(s, x)]. *)
Fixpoint for_each {A S} (l : list A) (s : S) (f : S -> A -> M S) : M S :=
  match l with
  | [] => ret s
  | x :: l' => s' <- f s x ;; for_each l' s' f
  end.

(** ** What both scripts define, word for word *)

Definition IGNORED_DIRS : list string :=
  ["gfx"; "tools"; "resources"; "docs"; "map"].

Module Colors.
Definition HEADER    : string := ESC ++ "[95m".
Definition BLUE      : string := ESC ++ "[94m".
Definition CYAN      : string := ESC ++ "[96m".
Definition GREEN     : string := ESC ++ "[92m".
Definition YELLOW    : string := ESC ++ "[93m".
Definition RED       : string := ESC ++ "[91m".
Definition ENDC      : string := ESC ++ "[0m".
Definition BOLD      : string := ESC ++ "[1m".
Definition UNDERLINE : string := ESC ++ "[4m".
End Colors.

Definition should_skip_file (filename : string) : bool :=
  let normalized_path := replace_char "\"%char "/"%char filename in
  existsb
    (fun ignored_dir =>
       str_in ("/" ++ ignored_dir ++ "/") normalized_path
       || startswith normalized_path (ignored_dir ++ "/"))
    IGNORED_DIRS.

(** The staged files with one of the extensions [exts]; the scripts
    differ in [exts] only.  The [try] catches [CalledProcessError] and
    nothing else: when git cannot be started the exception leaves the
    function. *)
Definition get_staged_files_ext (exts : list string) (fs : filesystem)
    (mod_path : string) : M (option (list string)) :=
  match fs_git fs with
  | GitNames files =>
      let staged_files :=
        map (path_join mod_path)
            (filter
               (fun f => negb (String.eqb f "")
                         && existsb (fun e => endswith f e) exts)
               files) in
      match staged_files with
      | [] => ret None
      | _ => ret (Some staged_files)
      end
  | GitFails => ret None
  | GitAbsent ex => raise (OSError ex)
  end.

(** The first line, counted from 1, that holds the pattern. *)
Fixpoint first_line (search_pattern : string) (lowercase : bool)
    (ls : list string) (line_num : nat) : nat :=
  match ls with
  | [] => 0
  | line :: ls' =>
      let search_line := if lowercase then lower line else line in
      if str_in search_pattern search_line then line_num
      else first_line search_pattern lowercase ls' (S line_num)
  end.

Definition find_line_number (fs : filesystem) (filename pattern : string)
    (lowercase : bool) : M nat :=
  emit (EvOpen filename) ;;;
  match fs_read fs filename with
  | ReadOk text =>
      let search_pattern := if lowercase then lower pattern else pattern in
      ret (first_line search_pattern lowercase (lines text) 1)
  | ReadErr _ => ret 0
  end.

Module FileOpener.

Definition open_text_file (fs : filesystem) (filename : string)
    (lowercase : bool) : M string :=
  emit (EvOpen filename) ;;;
  match fs_read fs filename with
  | ReadOk text => if lowercase then ret (lower text) else ret text
  | ReadErr ex =>
      emit (EvLog WARNING ("Skipping the file " ++ filename ++ ", " ++ ex)) ;;;
      ret ""
  end.

End FileOpener.

(** What an extractor returns: [(flags, paths)] if [return_paths],
    else [flags]. *)
Definition extracted (return_paths : bool) : Type :=
  if return_paths then (list string * dict string)%type else list string.

Definition give (return_paths : bool) (acc : list string * dict string)
  : extracted return_paths :=
  match return_paths as b return extracted b with
  | true => acc
  | false => fst acc
  end.

(** [for match in pattern_matches: flags.append(match);
     paths[match] = os.path.basename(filename)] *)
Definition record_matches (filename : string) (pattern_matches : list string)
    (acc : list string * dict string) : list string * dict string :=
  fold_left
    (fun acc m => ((fst acc ++ [m])%list, dict_set m (basename filename) (snd acc)))
    pattern_matches acc.

Definition record_if_any (filename : string) (pattern_matches : list string)
    (acc : list string * dict string) : list string * dict string :=
  if (0 <? List.length pattern_matches)%nat
  then record_matches filename pattern_matches acc
  else acc.

(** The files an extractor of [.txt] files scans. *)
Definition txt_files_to_scan (fs : filesystem) (mod_path : string)
    (staged_files : option (list string)) : list string :=
  match staged_files with
  | Some ((_ :: _) as l) => filter (fun f => endswith f ".txt") l
  | _ => iglob_rec fs mod_path ".txt"
  end.

(** *** The state of a [Validator] and its report sink *)

Record validator : Type := {
  mod_path : string;
  errors_found : nat;
  output_file : option string;
  use_colors : bool;
  staged_only : bool;
  staged_files : option (list string);
  output_lines : list string
}.

Definition set_output_lines (self : validator) (l : list string) : validator :=
  {| mod_path := mod_path self; errors_found := errors_found self;
     output_file := output_file self; use_colors := use_colors self;
     staged_only := staged_only self; staged_files := staged_files self;
     output_lines := l |}.

Definition set_errors_found (self : validator) (n : nat) : validator :=
  {| mod_path := mod_path self; errors_found := n;
     output_file := output_file self; use_colors := use_colors self;
     staged_only := staged_only self; staged_files := staged_files self;
     output_lines := output_lines self |}.

(** A list or a string is true when it is not empty, [None] is false. *)
Definition truthy_list {A} (o : option (list A)) : bool :=
  match o with
  | Some (_ :: _) => true
  | _ => false
  end.

Definition truthy_str (o : option string) : bool :=
  match o with
  | Some s => negb (String.eqb s "")
  | None => false
  end.

(** [Validator.__init__]; nothing in it catches what
    [get_staged_files] raises. *)
Definition Validator_init
    (get_staged_files : filesystem -> string -> M (option (list string)))
    (fs : filesystem) (mod_path0 : string) (output_file0 : option string)
    (use_colors0 staged_only0 : bool) : M validator :=
  let mod_path1 := if endswith mod_path0 "/" then mod_path0 else mod_path0 ++ "/" in
  staged <- (if staged_only0 then get_staged_files fs mod_path1 else ret None) ;;
  (if staged_only0 && negb (truthy_list staged)
   then emit (EvLog WARNING "No staged .txt or .yml files found")
   else ret tt) ;;;
  ret {| mod_path := mod_path1; errors_found := 0;
         output_file := output_file0; use_colors := use_colors0;
         staged_only := staged_only0; staged_files := staged;
         output_lines := [] |}.

(** The pattern [\033\[[0-9;]+m]. *)
Definition ansi_pattern : pattern :=
  [Lit (ESC ++ "["); Plus (fun c => is_digit c || Ascii.eqb c ";"%char); Lit "m"].

Definition strip_ansi (message : string) : string :=
  re_sub_empty ansi_pattern message.

(** [Validator.log] *)
Definition log (self : validator) (message : string) (lv : string)
  : M validator :=
  let display_msg := if use_colors self then message else strip_ansi message in
  (if String.eqb lv "info" then emit (EvLog INFO display_msg)
   else if String.eqb lv "warning" then emit (EvLog WARNING display_msg)
   else if String.eqb lv "error" then emit (EvLog ERROR display_msg)
   else ret tt) ;;;
  let file_msg := strip_ansi message in
  ret (set_output_lines self (output_lines self ++ [file_msg])%list).

(** [Validator.save_output] *)
Definition save_output (fs : filesystem) (self : validator) : M unit :=
  match output_file self with
  | Some path =>
      if negb (String.eqb path "")
         && (0 <? List.length (output_lines self))%nat then
        match fs_write_err fs path with
        | None =>
            emit (EvWrite path (join NL (output_lines self))) ;;;
            emit (EvLog INFO ("Results saved to: " ++ path))
        | Some e =>
            emit (EvLog ERROR ("Failed to save output to " ++ path ++ ": " ++ e))
        end
      else ret tt
  | None => ret tt
  end.

(** One finding: [{"flag": ..., "file": ..., "line": ...}] (the first
    key is ["target"] or ["localisation"] in the other checks). *)
Record defect : Type := {
  d_symbol : string;
  d_file : string;
  d_line : nat
}.

(** [Colors.X if self.use_colors else ''] *)
Definition col (self : validator) (c : string) : string :=
  if use_colors self then c else "".

Definition render (self : validator) (result : defect) : string :=
  if (0 <? d_line result)%nat then
    "  " ++ col self Colors.YELLOW ++ d_file result ++ ":"
         ++ str_of_nat (d_line result) ++ col self Colors.ENDC
         ++ " - " ++ d_symbol result
  else
    "  " ++ col self Colors.YELLOW ++ d_file result ++ col self Colors.ENDC
         ++ " - " ++ d_symbol result.

(** The end of every check: [if len(results) > 0: ... else: ...].
    [notes] are the lines logged between the heading and the findings. *)
Definition report (self : validator) (heading : string)
    (notes : list (string * string)) (all_clear : string)
    (results : list defect) : M validator :=
  if (0 <? List.length results)%nat then
    self <- log self (col self Colors.RED ++ heading ++ col self Colors.ENDC) "error" ;;
    self <- for_each notes self
              (fun self n =>
                 log self (col self Colors.YELLOW ++ fst n ++ col self Colors.ENDC)
                     (snd n)) ;;
    self <- for_each results self
              (fun self result => log self (render self result) "error") ;;
    self <- log self (col self Colors.RED ++ str_of_nat (List.length results)
                        ++ " issues found" ++ col self Colors.ENDC) "error" ;;
    ret (set_errors_found self (errors_found self + List.length results))
  else
    log self (col self Colors.GREEN ++ all_clear ++ col self Colors.ENDC) "info".

(** The three lines that open a check. *)
Definition announce (self : validator) (title : string) : M validator :=
  self <- log self (NL ++ str_mul "=" 80) "info" ;;
  self <- log self (col self Colors.CYAN ++ title ++ col self Colors.ENDC) "info" ;;
  log self (str_mul "=" 80) "info".

Notation "' pat <- m ;; k" := (bind m (fun x => match x with pat => k end))
  (at level 61, pat pattern, m at next level, right associativity) : py_scope.

(** [d[k]], which raises [KeyError] for a missing key. *)
Definition subscript (d : dict string) (k : string) : M string :=
  match dict_get k d with
  | Some v => ret v
  | None => raise (KeyError k)
  end.

(** The double quote, as a one-character string. *)
Definition DQUOTE : string := chr 34.

(** The head of [run_all_validations], up to the checks. *)
Definition banner_open (self : validator) (title : string) : M validator :=
  self <- log self (NL ++ str_mul "#" 80) "info" ;;
  self <- log self (col self Colors.BOLD ++ title ++ col self Colors.ENDC) "info" ;;
  self <- log self (str_mul "#" 80) "info" ;;
  self <- log self ("Mod path: " ++ mod_path self) "info" ;;
  self <- (if staged_only self
           then log self (col self Colors.CYAN ++ "Mode: Git staged files only"
                            ++ col self Colors.ENDC) "info"
           else ret self) ;;
  match output_file self with
  | Some path =>
      if negb (String.eqb path "") then log self ("Output file: " ++ path) "info"
      else ret self
  | None => ret self
  end.

(** The final summary of [run_all_validations]. *)
Definition banner_close (self : validator) : M validator :=
  self <- log self (NL ++ str_mul "#" 80) "info" ;;
  self <- (if (errors_found self =? 0)%nat
           then log self (col self Colors.GREEN
                            ++ "✓ VALIDATION COMPLETE - NO ISSUES FOUND"
                            ++ col self Colors.ENDC) "info"
           else log self (col self Colors.RED ++ "✗ VALIDATION COMPLETE - "
                            ++ str_of_nat (errors_found self) ++ " TOTAL ISSUES FOUND"
                            ++ col self Colors.ENDC) "error") ;;
  log self (str_mul "#" 80 ++ NL) "info".

(** The parsed command line. *)
Record cli_args : Type := {
  arg_path : string;              (* --path, resolved to an absolute path *)
  arg_strict : bool;              (* --strict *)
  arg_output : option string;     (* --output / -o *)
  arg_no_color : bool;            (* --no-color *)
  arg_staged : bool               (* --staged *)
}.

(** [main], after [parse_args]: the exit status of the process, and the
    trace.  An exception nobody catches ends the process with status 1. *)
Definition run_main
    (get_staged_files : filesystem -> string -> M (option (list string)))
    (run_all_validations : filesystem -> validator -> M nat)
    (fs : filesystem) (args : cli_args) : nat * list event :=
  let mod_path0 := arg_path args in
  if negb (fs_exists fs mod_path0) then
    (1, [EvLog ERROR ("Error: Path does not exist: " ++ mod_path0)])
  else if negb (fs_is_dir fs mod_path0) then
    (1, [EvLog ERROR ("Error: Path is not a directory: " ++ mod_path0)])
  else
    match (validator <- Validator_init get_staged_files fs mod_path0
                          (arg_output args) (negb (arg_no_color args))
                          (arg_staged args) ;;
           run_all_validations fs validator) with
    | (inr errors_found, t) =>
        (if arg_strict args && (0 <? errors_found)%nat then 1 else 0, t)
    | (inl _, t) => (1, t)
    end.

(** ** validate_variables.py *)

Module validate_variables.

Definition get_staged_files : filesystem -> string -> M (option (list string)) :=
  get_staged_files_ext [".txt"; ".yml"].

Definition FLAG_TYPES : list string := ["country"; "state"; "global"].

Definition unsupported : exn :=
  ValueError "Unsupported flag value passed. Expected country, state, global".

Module Variables.

(** [has_<type>_flag = ([^ \t\n]+)] and its kin. *)
Definition plain_pattern (verb flag_type : string) : pattern :=
  [Lit (verb ++ flag_type ++ "_flag = "); Plus (none_of (" " ++ TAB ++ NL))].

(** [[y|s]_<type>_flag = \{.*?flag = ([^ \t\n\}]+).*?\}] *)
Definition braced_used_pattern (flag_type : string) : pattern :=
  [One (one_of "y|s"); Lit ("_" ++ flag_type ++ "_flag = {"); LazyAny;
   Lit "flag = "; Plus (none_of (" " ++ TAB ++ NL ++ "}")); LazyAny; Lit "}"].

(** [set_<type>_flag = \{.*?flag = ([^ \t\n\}]+).*?\}] *)
Definition braced_set_pattern (flag_type : string) : pattern :=
  [Lit ("set_" ++ flag_type ++ "_flag = {"); LazyAny;
   Lit "flag = "; Plus (none_of (" " ++ TAB ++ NL ++ "}")); LazyAny; Lit "}"].

Definition get_all_used_flags (fs : filesystem) (mod_path : string)
    (lowercase : bool) (flag_type : string) (return_paths : bool)
    (staged_files : option (list string)) : M (extracted return_paths) :=
  if negb (mem flag_type FLAG_TYPES) then raise unsupported
  else
    let files_to_scan := txt_files_to_scan fs mod_path staged_files in
    acc <- for_each files_to_scan ([], [])
             (fun acc filename =>
                if should_skip_file filename then ret acc
                else
                  text_file <- FileOpener.open_text_file fs filename lowercase ;;
                  if str_in ("has_" ++ flag_type ++ "_flag =") text_file
                     || str_in ("modify_" ++ flag_type ++ "_flag =") text_file
                  then
                    let acc :=
                      record_if_any filename
                        (findall (plain_pattern "has_" flag_type) text_file) acc in
                    ret (record_if_any filename
                           (findall (braced_used_pattern flag_type) text_file) acc)
                  else ret acc) ;;
    ret (give return_paths acc).

Definition get_all_set_flags (fs : filesystem) (mod_path : string)
    (lowercase : bool) (flag_type : string) (return_paths : bool)
    (staged_files : option (list string)) : M (extracted return_paths) :=
  if negb (mem flag_type FLAG_TYPES) then raise unsupported
  else
    let files_to_scan := txt_files_to_scan fs mod_path staged_files in
    acc <- for_each files_to_scan ([], [])
             (fun acc filename =>
                if should_skip_file filename then ret acc
                else
                  text_file <- FileOpener.open_text_file fs filename lowercase ;;
                  if str_in ("set_" ++ flag_type ++ "_flag =") text_file then
                    let acc :=
                      record_if_any filename
                        (findall (plain_pattern "set_" flag_type) text_file) acc in
                    ret (record_if_any filename
                           (findall (braced_set_pattern flag_type) text_file) acc)
                  else ret acc) ;;
    ret (give return_paths acc).

Definition get_all_cleared_flags (fs : filesystem) (mod_path : string)
    (lowercase : bool) (flag_type : string) (return_paths : bool)
    (staged_files : option (list string)) : M (extracted return_paths) :=
  if negb (mem flag_type FLAG_TYPES) then raise unsupported
  else
    let files_to_scan := txt_files_to_scan fs mod_path staged_files in
    acc <- for_each files_to_scan ([], [])
             (fun acc filename =>
                if should_skip_file filename then ret acc
                else
                  text_file <- FileOpener.open_text_file fs filename lowercase ;;
                  if str_in ("clr_" ++ flag_type ++ "_flag =") text_file then
                    ret (record_if_any filename
                           (findall (plain_pattern "clr_" flag_type) text_file) acc)
                  else ret acc) ;;
    ret (give return_paths acc).

End Variables.

Module EventTargets.

(** [<keyword>([^ \n\t\#Q]+)], where Q stands for the double quote. *)
Definition target_pattern (keyword : string) : pattern :=
  [Lit keyword; Plus (none_of (" " ++ NL ++ TAB ++ "#" ++ DQUOTE))].

(** [has_event_target = ([^ \n\tQ]+)] *)
Definition has_target_pattern : pattern :=
  [Lit "has_event_target = "; Plus (none_of (" " ++ NL ++ TAB ++ DQUOTE))].

Definition get_all_used_targets (fs : filesystem) (mod_path : string)
    (lowercase : bool) (return_paths : bool)
    (staged_files : option (list string)) : M (extracted return_paths) :=
  let files_to_scan := txt_files_to_scan fs mod_path staged_files in
  acc <- for_each files_to_scan ([], [])
           (fun acc filename =>
              if should_skip_file filename then ret acc
              else
                text_file <- FileOpener.open_text_file fs filename lowercase ;;
                if str_in "tag_aliases" filename then
                  if str_in "global_event_target =" text_file then
                    ret (record_if_any filename
                           (findall (target_pattern "global_event_target = ") text_file)
                           acc)
                  else ret acc
                else
                  let acc :=
                    if str_in "event_target:" text_file then
                      record_if_any filename
                        (findall (target_pattern "event_target:") text_file) acc
                    else acc in
                  if str_in "has_event_target =" text_file then
                    ret (record_if_any filename
                           (findall has_target_pattern text_file) acc)
                  else ret acc) ;;
  ret (give return_paths acc).

Definition get_all_set_targets (fs : filesystem) (mod_path : string)
    (lowercase : bool) (return_paths : bool)
    (staged_files : option (list string)) : M (extracted return_paths) :=
  let files_to_scan := txt_files_to_scan fs mod_path staged_files in
  acc <- for_each files_to_scan ([], [])
           (fun acc filename =>
              if should_skip_file filename then ret acc
              else if str_in "tag_aliases" filename then ret acc
              else
                text_file <- FileOpener.open_text_file fs filename lowercase ;;
                let acc :=
                  if str_in "save_global_event_target_as =" text_file then
                    record_if_any filename
                      (findall (target_pattern "save_global_event_target_as = ")
                               text_file) acc
                  else acc in
                if str_in "save_event_target_as =" text_file then
                  ret (record_if_any filename
                         (findall (target_pattern "save_event_target_as = ")
                                  text_file) acc)
                else ret acc) ;;
  ret (give return_paths acc).

Definition get_all_cleared_targets (fs : filesystem) (mod_path : string)
    (lowercase : bool) (return_paths : bool)
    (staged_files : option (list string)) : M (extracted return_paths) :=
  let files_to_scan := txt_files_to_scan fs mod_path staged_files in
  acc <- for_each files_to_scan ([], [])
           (fun acc filename =>
              if should_skip_file filename then ret acc
              else
                text_file <- FileOpener.open_text_file fs filename lowercase ;;
                if str_in "clear_global_event_target =" text_file then
                  ret (record_if_any filename
                         (findall (target_pattern "clear_global_event_target = ")
                                  text_file) acc)
                else ret acc) ;;
  ret (give return_paths acc).

End EventTargets.

Module Validator.

(** The first walked [.txt] file named [basename], outside the ignored
    directories, whose text holds [item] (case-sensitive). *)
Definition get_full_path (fs : filesystem) (self : validator)
    (basename0 item : string) : M (option string) :=
  for_each (iglob_rec fs (mod_path self) ".txt") None
    (fun found filename =>
       match found with
       | Some _ => ret found                      (* already returned *)
       | None =>
           if String.eqb (basename filename) basename0 then
             if should_skip_file filename then ret None
             else
               emit (EvOpen filename) ;;;
               match fs_read fs filename with
               | ReadOk content =>
                   if str_in item content then ret (Some filename) else ret None
               | ReadErr _ => ret None
               end
           else ret None
       end).

(** [if full_path: ... results.append(...)] with one probe. *)
Definition locate_and_append (fs : filesystem) (self : validator)
    (results : list defect) (symbol basename0 probe : string)
  : M (list defect) :=
  full_path <- get_full_path fs self basename0 probe ;;
  if truthy_str full_path then
    match full_path with
    | Some full_path =>
        let rel_path := relpath full_path (mod_path self) in
        line_num <- find_line_number fs full_path probe false ;;
        ret (results ++ [{| d_symbol := symbol; d_file := rel_path;
                            d_line := line_num |}])%list
    | None => ret results
    end
  else ret results.

(** The same with a second probe, tried when the first one fails. *)
Definition locate_and_append2 (fs : filesystem) (self : validator)
    (results : list defect) (symbol basename0 probe1 probe2 : string)
  : M (list defect) :=
  full_path <- get_full_path fs self basename0 probe1 ;;
  full_path <- (if negb (truthy_str full_path)
                then get_full_path fs self basename0 probe2
                else ret full_path) ;;
  if truthy_str full_path then
    match full_path with
    | Some full_path =>
        let rel_path := relpath full_path (mod_path self) in
        line_num <- find_line_number fs full_path probe1 false ;;
        line_num <- (if (line_num =? 0)%nat
                     then find_line_number fs full_path probe2 false
                     else ret line_num) ;;
        ret (results ++ [{| d_symbol := symbol; d_file := rel_path;
                            d_line := line_num |}])%list
    | None => ret results
    end
  else ret results.

(** The [results] of [validate_cleared_flags]. *)
Definition cleared_flags_results (fs : filesystem) (self : validator)
    (flag_type : string) (false_positives : list string) : M (list defect) :=
  '(cleared_flags, paths) <-
     Variables.get_all_cleared_flags fs (mod_path self) false flag_type true
       (staged_files self) ;;
  set_flags <-
     Variables.get_all_set_flags fs (mod_path self) false flag_type false
       (staged_files self) ;;
  let cleared_flags := DataCleaner.clear_list cleared_flags false_positives in
  for_each cleared_flags []
    (fun results flag =>
       if negb (mem flag set_flags) then
         basename0 <- subscript paths flag ;;
         locate_and_append fs self results flag basename0
           ("clr_" ++ flag_type ++ "_flag = " ++ flag)
       else ret results).

Definition validate_cleared_flags (fs : filesystem) (self : validator)
    (flag_type : string) (false_positives : list string) : M validator :=
  self <- announce self
            ("Checking cleared " ++ flag_type ++ " flags that are never set...") ;;
  results <- cleared_flags_results fs self flag_type false_positives ;;
  report self
    ("Cleared " ++ flag_type
       ++ " flags that are never set were encountered. Flags with @ are skipped.")
    []
    ("✓ No issues found with cleared " ++ flag_type ++ " flags")
    results.

(** The [results] of [validate_missing_flags]. *)
Definition missing_flags_results (fs : filesystem) (self : validator)
    (flag_type : string) (false_positives : list string) : M (list defect) :=
  '(used_flags, paths) <-
     Variables.get_all_used_flags fs (mod_path self) false flag_type true
       (staged_files self) ;;
  set_flags <-
     Variables.get_all_set_flags fs (mod_path self) false flag_type false
       (staged_files self) ;;
  let used_flags := DataCleaner.clear_list used_flags false_positives in
  for_each used_flags []
    (fun results flag =>
       if negb (mem flag set_flags) then
         basename0 <- subscript paths flag ;;
         locate_and_append fs self results flag basename0
           ("has_" ++ flag_type ++ "_flag = " ++ flag)
       else ret results).

Definition validate_missing_flags (fs : filesystem) (self : validator)
    (flag_type : string) (false_positives : list string) : M validator :=
  self <- announce self
            ("Checking missing " ++ flag_type ++ " flags (used but not set)...") ;;
  results <- missing_flags_results fs self flag_type false_positives ;;
  report self
    ("Missing " ++ flag_type ++ " flags were encountered - they are not set via 'set_"
       ++ flag_type ++ "_flag'. Flags with @ are skipped.")
    []
    ("✓ No issues found with missing " ++ flag_type ++ " flags")
    results.

(** The [results] of [validate_unused_flags]. *)
Definition unused_flags_results (fs : filesystem) (self : validator)
    (flag_type : string) (false_positives : list string) : M (list defect) :=
  '(set_flags, paths) <-
     Variables.get_all_set_flags fs (mod_path self) false flag_type true
       (staged_files self) ;;
  used_flags <-
     Variables.get_all_used_flags fs (mod_path self) false flag_type false
       (staged_files self) ;;
  let set_flags := DataCleaner.clear_list set_flags false_positives in
  for_each set_flags []
    (fun results flag =>
       if negb (mem flag used_flags) then
         basename0 <- subscript paths flag ;;
         locate_and_append fs self results flag basename0
           ("set_" ++ flag_type ++ "_flag = " ++ flag)
       else ret results).

Definition validate_unused_flags (fs : filesystem) (self : validator)
    (flag_type : string) (false_positives : list string) : M validator :=
  self <- announce self
            ("Checking unused " ++ flag_type ++ " flags (set but not used)...") ;;
  results <- unused_flags_results fs self flag_type false_positives ;;
  report self
    ("Unused " ++ flag_type ++ " flags were encountered - they are not used via 'has_"
       ++ flag_type ++ "_flag' at least once. Flags with @ are skipped.")
    []
    ("✓ No issues found with unused " ++ flag_type ++ " flags")
    results.

(** The [results] of [validate_cleared_event_targets]. *)
Definition cleared_event_targets_results (fs : filesystem) (self : validator)
  : M (list defect) :=
  '(cleared_targets, paths) <-
     EventTargets.get_all_cleared_targets fs (mod_path self) false true
       (staged_files self) ;;
  set_targets <-
     EventTargets.get_all_set_targets fs (mod_path self) false false
       (staged_files self) ;;
  for_each cleared_targets []
    (fun results target =>
       if negb (mem target set_targets) then
         basename0 <- subscript paths target ;;
         locate_and_append fs self results target basename0
           ("clear_global_event_target = " ++ target)
       else ret results).

Definition validate_cleared_event_targets (fs : filesystem) (self : validator)
  : M validator :=
  self <- announce self "Checking cleared event targets that are not set..." ;;
  results <- cleared_event_targets_results fs self ;;
  report self
    "Cleared event targets that are not set were encountered."
    []
    "✓ No issues found with cleared event targets"
    results.

(** The [results] of [validate_missing_event_targets]. *)
Definition missing_event_targets_results (fs : filesystem) (self : validator)
  : M (list defect) :=
  let FALSE_POSITIVES := ["."] in
  '(used_targets, paths) <-
     EventTargets.get_all_used_targets fs (mod_path self) false true
       (staged_files self) ;;
  set_targets <-
     EventTargets.get_all_set_targets fs (mod_path self) false false
       (staged_files self) ;;
  let used_targets := DataCleaner.clear_list used_targets FALSE_POSITIVES in
  for_each used_targets []
    (fun results target =>
       if negb (mem target set_targets) then
         basename0 <- subscript paths target ;;
         locate_and_append2 fs self results target basename0
           ("event_target:" ++ target) ("has_event_target = " ++ target)
       else ret results).

Definition validate_missing_event_targets (fs : filesystem) (self : validator)
  : M validator :=
  self <- announce self "Checking missing event targets (used but not set)..." ;;
  results <- missing_event_targets_results fs self ;;
  report self
    "Used event targets that are not set were encountered."
    []
    "✓ No issues found with missing event targets"
    results.

(** The [.yml] files the unused-targets check reads. *)
Definition yml_files_to_scan (fs : filesystem) (self : validator) : list string :=
  match staged_files self with
  | Some ((_ :: _) as l) => filter (fun f => endswith f ".yml") l
  | _ => iglob_rec fs (mod_path self) ".yml"
  end.

(** The second scan of [validate_unused_event_targets]: the targets a
    localisation file names in a [.GetName] or [.GetAdjective] call. *)
Definition targets_used_in_loc (fs : filesystem) (self : validator)
    (potential_results : list string) : M (list string) :=
  for_each (yml_files_to_scan fs self) []
    (fun targets_used_in_loc filename =>
       if should_skip_file filename then ret targets_used_in_loc
       else
         text_file <- FileOpener.open_text_file fs filename true ;;
         if str_in ".get" text_file then
           let not_encountered_targets :=
             filter (fun i => negb (mem i targets_used_in_loc)) potential_results in
           ret (fold_left
                  (fun used target =>
                     if str_in ("[" ++ target ++ ".getname") text_file
                        || str_in ("[" ++ target ++ ".getadjective") text_file
                     then (used ++ [target])%list else used)
                  not_encountered_targets targets_used_in_loc)
         else ret targets_used_in_loc).

(** The [results] of [validate_unused_event_targets]. *)
Definition unused_event_targets_results (fs : filesystem) (self : validator)
  : M (list defect) :=
  let FALSE_POSITIVES := ["wca_usa_floyd_olson"; "wca_usa_al_smith"; "target_value"] in
  '(set_targets, paths) <-
     EventTargets.get_all_set_targets fs (mod_path self) false true
       (staged_files self) ;;
  used_targets <-
     EventTargets.get_all_used_targets fs (mod_path self) false false
       (staged_files self) ;;
  let set_targets := DataCleaner.clear_list set_targets FALSE_POSITIVES in
  let potential_results :=
    filter (fun target => negb (mem target used_targets)) set_targets in
  targets_used_in_loc <- targets_used_in_loc fs self potential_results ;;
  for_each potential_results []
    (fun results target =>
       if negb (mem target targets_used_in_loc) then
         basename0 <- subscript paths target ;;
         locate_and_append2 fs self results target basename0
           ("save_event_target_as = " ++ target)
           ("save_global_event_target_as = " ++ target)
       else ret results).

Definition validate_unused_event_targets (fs : filesystem) (self : validator)
  : M validator :=
  self <- announce self "Checking unused event targets (set but not used)..." ;;
  results <- unused_event_targets_results fs self ;;
  report self
    "Unused event targets were encountered."
    []
    "✓ No issues found with unused event targets"
    results.

Definition FALSE_POSITIVES_GENERIC : list string := ["@"; "["; "{"].

Definition FALSE_POSITIVES_COUNTRY : list string :=
  ["@"; "["; "{"; "ire_got_guarantee"; "ire_rejected_guarantee"; "nfa_rebelled";
   "ire_alliance_refused"; "nfa_previously_rebelled"; "rom_deal"; "rus_can_core";
   "sent_volunteers"; "china_refused_alliance"; "_QMV_voted";
   "recognised_opponent_"; "rival_government_"; "_QMV"; "trade_agreement";
   "mutual_investment_treaty_"; "libya_casablanca_accords_signed_by_";
   "_EP_agenda"; "initiated_blockade_"].

Definition FALSE_POSITIVES_GLOBAL : list string :=
  ["@"; "["; "{"; "kr_current_version"; "_QMV_result"; "_QMV_voted"].

Definition FALSE_POSITIVES_COUNTRY_UNUSED : list string :=
  ["@"; "["; "{"; "saf_antagonise_"; "default_puppet"; "_QMV_voted";
   "_EP_approval"; "recognised_opponent_"].

(** The rows of the loop over the flag types:
    [(flag_type, fp_cleared, fp_missing, fp_unused)]. *)
Definition FLAG_RUNS : list (string * list string * list string * list string) :=
  [("country", FALSE_POSITIVES_COUNTRY, FALSE_POSITIVES_COUNTRY,
    FALSE_POSITIVES_COUNTRY_UNUSED);
   ("global", FALSE_POSITIVES_GENERIC, FALSE_POSITIVES_GENERIC,
    FALSE_POSITIVES_GLOBAL);
   ("state", FALSE_POSITIVES_GENERIC, FALSE_POSITIVES_GENERIC,
    FALSE_POSITIVES_GENERIC)].

Definition run_all_validations (fs : filesystem) (self : validator) : M nat :=
  self <- banner_open self "MILLENNIUM DAWN VARIABLE AND EVENT TARGET VALIDATION" ;;
  self <- for_each FLAG_RUNS self
            (fun self row =>
               match row with
               | (flag_type, fp_cleared, fp_missing, fp_unused) =>
                   self <- validate_cleared_flags fs self flag_type fp_cleared ;;
                   self <- validate_missing_flags fs self flag_type fp_missing ;;
                   validate_unused_flags fs self flag_type fp_unused
               end) ;;
  self <- validate_cleared_event_targets fs self ;;
  self <- validate_missing_event_targets fs self ;;
  self <- validate_unused_event_targets fs self ;;
  self <- banner_close self ;;
  save_output fs self ;;;
  ret (errors_found self).

End Validator.

Definition main (fs : filesystem) (args : cli_args) : nat * list event :=
  run_main get_staged_files Validator.run_all_validations fs args.

End validate_variables.

(** ** validate_scripted_localisation.py *)

Module validate_scripted_localisation.

Definition get_staged_files : filesystem -> string -> M (option (list string)) :=
  get_staged_files_ext [".txt"; ".yml"; ".gui"].

(** [enumerate(l)] *)
Definition enumerate {A} (l : list A) : list (nat * A) :=
  combine (seq 0 (List.length l)) l.

(** [l[i]], which raises [IndexError] out of range. *)
Definition item_at (l : list string) (i : nat) : M string :=
  match nth_error l i with
  | Some x => ret x
  | None => raise IndexError
  end.

(** [d.get(k, default)] *)
Definition get_or (d : dict string) (k default : string) : string :=
  match dict_get k d with
  | Some v => v
  | None => default
  end.

Module ScriptedLocalisation.

(** [name\s*=\s*([a-zA-Z_0-9]+)] *)
Definition name_pattern : pattern :=
  [Lit "name"; Star is_space; Lit "="; Star is_space; Plus is_word].

Definition defined_files_to_scan (fs : filesystem) (mod_path : string)
    (staged_files : option (list string)) : list string :=
  match staged_files with
  | Some ((_ :: _) as l) =>
      filter (fun f => str_in "scripted_localisation" f && endswith f ".txt") l
  | _ =>
      glob_dir fs
        (path_join (path_join (path_join mod_path "common") "scripted_localisation") "")
        ".txt"
  end.

Definition get_all_defined_localisations (fs : filesystem) (mod_path : string)
    (lowercase : bool) (return_paths : bool)
    (staged_files : option (list string)) : M (extracted return_paths) :=
  let files_to_scan := defined_files_to_scan fs mod_path staged_files in
  acc <- for_each files_to_scan ([], [])
           (fun acc filename =>
              if should_skip_file filename then ret acc
              else if str_in "00_scripted_localisation_FR_loc" filename then ret acc
              else
                text_file <- FileOpener.open_text_file fs filename lowercase ;;
                if str_in "defined_text" text_file && str_in "name =" text_file then
                  ret (record_if_any filename (findall name_pattern text_file) acc)
                else ret acc) ;;
  ret (give return_paths acc).

Definition used_files_to_scan (fs : filesystem) (mod_path : string)
    (staged_files : option (list string)) : list string :=
  match staged_files with
  | Some ((_ :: _) as l) =>
      filter
        (fun f => endswith f ".gui" || endswith f ".yml"
                  || (endswith f ".txt" && str_in "scripted_guis" f))
        l
  | _ =>
      let gui_files := iglob_rec fs mod_path ".gui" in
      let yml_files := iglob_rec fs mod_path ".yml" in
      let scripted_gui_files :=
        glob_dir fs (mod_path ++ "common/scripted_guis/") ".txt" in
      (gui_files ++ yml_files ++ scripted_gui_files)%list
  end.

(** [defined_names] is the set in the order it is iterated;
    [set_order] gives the order of a set built anew. *)
Definition get_all_used_localisations (set_order : list string -> list string)
    (fs : filesystem) (mod_path : string) (defined_names : list string)
    (lowercase : bool) (return_paths : bool)
    (staged_files : option (list string)) : M (extracted return_paths) :=
  let search_names :=
    if lowercase then set_order (map lower defined_names) else defined_names in
  let files_to_scan := used_files_to_scan fs mod_path staged_files in
  acc <- for_each files_to_scan ([], [])
           (fun acc filename =>
              if should_skip_file filename then ret acc
              else if str_in "scripted_localisation" filename then ret acc
              else
                text_file <- FileOpener.open_text_file fs filename lowercase ;;
                ret (fold_left
                       (fun acc name =>
                          if negb (mem name (fst acc)) then
                            if str_in name text_file then
                              ((fst acc ++ [name])%list,
                               dict_set name (basename filename) (snd acc))
                            else acc
                          else acc)
                       search_names acc)) ;;
  ret (give return_paths acc).

End ScriptedLocalisation.

Module Validator.

(** The first walked [.txt], then [.gui], file named [basename],
    outside the ignored directories, whose text holds [item], letter
    case apart. *)
Definition get_full_path (fs : filesystem) (self : validator)
    (basename0 item : string) : M (option string) :=
  for_each (iglob_rec fs (mod_path self) ".txt"
              ++ iglob_rec fs (mod_path self) ".gui")%list None
    (fun found filename =>
       match found with
       | Some _ => ret found                      (* already returned *)
       | None =>
           if String.eqb (basename filename) basename0 then
             if should_skip_file filename then ret None
             else
               emit (EvOpen filename) ;;;
               match fs_read fs filename with
               | ReadOk content =>
                   if str_in (lower item) (lower content)
                   then ret (Some filename) else ret None
               | ReadErr _ => ret None
               end
           else ret None
       end).

(** The [results] of [validate_missing_scripted_localisations]. *)
Definition missing_results (set_order : list string -> list string)
    (fs : filesystem) (self : validator) (false_positives : list string)
  : M (list defect) :=
  defined_locs <-
    ScriptedLocalisation.get_all_defined_localisations fs (mod_path self)
      false false (staged_files self) ;;
  let defined_names_set := set_order defined_locs in
  '(used_locs, paths) <-
    ScriptedLocalisation.get_all_used_localisations set_order fs (mod_path self)
      defined_names_set false true (staged_files self) ;;
  let defined_locs_lower := map lower defined_locs in
  let used_locs_lower := map lower used_locs in
  let used_locs_lower := DataCleaner.clear_list used_locs_lower false_positives in
  '(results, reported) <-
    for_each (enumerate used_locs_lower) ([], [])
      (fun st il =>
         let '(results, reported) := st in
         let '(i, loc) := il in
         if negb (mem loc defined_locs_lower) && negb (mem loc reported) then
           original_loc <- item_at used_locs i ;;
           let basename0 := get_or paths original_loc (get_or paths loc "unknown") in
           full_path <- get_full_path fs self basename0 loc ;;
           if truthy_str full_path then
             match full_path with
             | Some full_path =>
                 let rel_path := relpath full_path (mod_path self) in
                 line_num <- find_line_number fs full_path loc true ;;
                 ret ((results ++ [{| d_symbol := loc; d_file := rel_path;
                                      d_line := line_num |}])%list,
                      loc :: reported)
             | None => ret st
             end
           else ret st
         else ret st) ;;
  ret results.

Definition validate_missing_scripted_localisations
    (set_order : list string -> list string)
    (fs : filesystem) (self : validator) (false_positives : list string)
  : M validator :=
  self <- announce self
            "Checking missing scripted localisations (used but not defined)..." ;;
  results <- missing_results set_order fs self false_positives ;;
  report self
    "Missing scripted localisations were encountered - they are referenced but not defined in common/scripted_localisation/."
    [("Note: Some of these may be regular localisation keys rather than scripted localisation. Verify manually.",
      "warning")]
    "✓ No issues found with missing scripted localisations"
    results.

(** The definition file of [validate_unused_scripted_localisations]:
    the file of that name in [common/scripted_localisation], if it
    exists, else the first walked file of the directory with that
    base name. *)
Definition definition_file (fs : filesystem) (self : validator)
    (basename0 : string) : option string :=
  let pattern :=
    path_join (path_join (path_join (mod_path self) "common")
                         "scripted_localisation") basename0 in
  if fs_exists fs pattern then Some pattern
  else
    find (fun filename => String.eqb (basename filename) basename0)
         (glob_dir fs
            (path_join (path_join (path_join (mod_path self) "common")
                                  "scripted_localisation") "")
            ".txt").

(** The [results] of [validate_unused_scripted_localisations]. *)
Definition unused_results (set_order : list string -> list string)
    (fs : filesystem) (self : validator) (false_positives : list string)
  : M (list defect) :=
  '(defined_locs, paths) <-
    ScriptedLocalisation.get_all_defined_localisations fs (mod_path self)
      false true (staged_files self) ;;
  let defined_names_set := set_order defined_locs in
  used_locs <-
    ScriptedLocalisation.get_all_used_localisations set_order fs (mod_path self)
      defined_names_set false false (staged_files self) ;;
  let defined_locs_lower := map lower defined_locs in
  let used_locs_lower := map lower used_locs in
  let defined_locs_lower :=
    DataCleaner.clear_list defined_locs_lower false_positives in
  '(results, reported) <-
    for_each (enumerate defined_locs_lower) ([], [])
      (fun st il =>
         let '(results, reported) := st in
         let '(i, loc) := il in
         if negb (mem loc used_locs_lower) && negb (mem loc reported) then
           original_loc <- item_at defined_locs i ;;
           let basename0 := get_or paths original_loc (get_or paths loc "unknown") in
           let full_path := definition_file fs self basename0 in
           if truthy_str full_path then
             match full_path with
             | Some full_path =>
                 let rel_path := relpath full_path (mod_path self) in
                 line_num <- find_line_number fs full_path ("name = " ++ loc) true ;;
                 ret ((results ++ [{| d_symbol := loc; d_file := rel_path;
                                      d_line := line_num |}])%list,
                      loc :: reported)
             | None => ret st
             end
           else ret st
         else ret st) ;;
  ret results.

Definition validate_unused_scripted_localisations
    (set_order : list string -> list string)
    (fs : filesystem) (self : validator) (false_positives : list string)
  : M validator :=
  self <- announce self
            "Checking unused scripted localisations (defined but not used)..." ;;
  results <- unused_results set_order fs self false_positives ;;
  report self
    "Unused scripted localisations were encountered - they are defined but not referenced anywhere."
    []
    "✓ No issues found with unused scripted localisations"
    results.

Definition FALSE_POSITIVES : list string :=
  ["root.getname"; "this.getname"; "from.getname"; "prev.getname";
   "root.getadjective"; "this.getadjective"; "from.getadjective";
   "getdatetext"; "getyear"; "getmonth"; "getday";
   "tt"; "_tt"; "_desc"; "_title"; "button"; "gfx_"; "tooltip";
   "§"; "£"; "$"; "var:"; "@"; "["].

Definition run_all_validations (set_order : list string -> list string)
    (fs : filesystem) (self : validator) : M nat :=
  self <- banner_open self "MILLENNIUM DAWN SCRIPTED LOCALISATION VALIDATION" ;;
  self <- validate_missing_scripted_localisations set_order fs self FALSE_POSITIVES ;;
  self <- validate_unused_scripted_localisations set_order fs self FALSE_POSITIVES ;;
  self <- banner_close self ;;
  save_output fs self ;;;
  ret (errors_found self).

End Validator.

Definition main (set_order : list string -> list string)
    (fs : filesystem) (args : cli_args) : nat * list event :=
  run_main get_staged_files (Validator.run_all_validations set_order) fs args.

End validate_scripted_localisation.

(** * The vocabulary of the statements

    Pure functions that say what the extractors and the checks compute,
    the predicates the statements use, and the sample trees. *)

Definition is_substring (f k : string) : Prop :=
  exists a b, k = a ++ f ++ b.

(** Some rule of [R] occurs in [k]. *)
Definition flagged (R : list string) (k : string) : bool :=
  existsb (fun f => str_in f k) R.

(** The text an extractor gets for a file: an unreadable file reads as
    the empty text. *)
Definition text_of (fs : filesystem) (filename : string) (lowercase : bool)
  : string :=
  match fs_read fs filename with
  | ReadOk text => if lowercase then lower text else text
  | ReadErr _ => ""
  end.

(** The shape all pattern extractors share: the files [skip] rejects are
    passed over, and the matches [found] in each other file are
    recorded in order. *)
Definition scan (fs : filesystem) (lowercase : bool) (skip : string -> bool)
    (found : string -> string -> list string) (files : list string)
    (acc : list string * dict string) : list string * dict string :=
  fold_left
    (fun acc filename =>
       if skip filename then acc
       else record_matches filename (found filename (text_of fs filename lowercase)) acc)
    files acc.

(** The matches each extractor finds in one text. *)
Definition used_flags_in (flag_type : string) (filename text_file : string)
  : list string :=
  if str_in ("has_" ++ flag_type ++ "_flag =") text_file
     || str_in ("modify_" ++ flag_type ++ "_flag =") text_file
  then (findall (validate_variables.Variables.plain_pattern "has_" flag_type) text_file
        ++ findall (validate_variables.Variables.braced_used_pattern flag_type) text_file)%list
  else [].

Definition set_flags_in (flag_type : string) (filename text_file : string)
  : list string :=
  if str_in ("set_" ++ flag_type ++ "_flag =") text_file
  then (findall (validate_variables.Variables.plain_pattern "set_" flag_type) text_file
        ++ findall (validate_variables.Variables.braced_set_pattern flag_type) text_file)%list
  else [].

Definition cleared_flags_in (flag_type : string) (filename text_file : string)
  : list string :=
  if str_in ("clr_" ++ flag_type ++ "_flag =") text_file
  then findall (validate_variables.Variables.plain_pattern "clr_" flag_type) text_file
  else [].

Definition used_targets_in (filename text_file : string) : list string :=
  if str_in "tag_aliases" filename then
    if str_in "global_event_target =" text_file
    then findall (validate_variables.EventTargets.target_pattern "global_event_target = ")
                 text_file
    else []
  else
    ((if str_in "event_target:" text_file
      then findall (validate_variables.EventTargets.target_pattern "event_target:") text_file
      else [])
     ++ (if str_in "has_event_target =" text_file
         then findall validate_variables.EventTargets.has_target_pattern text_file
         else []))%list.

Definition set_targets_in (filename text_file : string) : list string :=
  ((if str_in "save_global_event_target_as =" text_file
    then findall (validate_variables.EventTargets.target_pattern
                    "save_global_event_target_as = ") text_file
    else [])
   ++ (if str_in "save_event_target_as =" text_file
       then findall (validate_variables.EventTargets.target_pattern
                       "save_event_target_as = ") text_file
       else []))%list.

Definition cleared_targets_in (filename text_file : string) : list string :=
  if str_in "clear_global_event_target =" text_file
  then findall (validate_variables.EventTargets.target_pattern
                  "clear_global_event_target = ") text_file
  else [].

Definition defined_locs_in (filename text_file : string) : list string :=
  if str_in "defined_text" text_file && str_in "name =" text_file
  then findall validate_scripted_localisation.ScriptedLocalisation.name_pattern text_file
  else [].

Definition skip_tag_aliases (filename : string) : bool :=
  should_skip_file filename || str_in "tag_aliases" filename.

Definition skip_FR_loc (filename : string) : bool :=
  should_skip_file filename || str_in "00_scripted_localisation_FR_loc" filename.

(** The names [get_all_used_localisations] newly finds in one text. *)
Definition note_names (filename text_file : string) (names : list string)
    (acc : list string * dict string) : list string * dict string :=
  fold_left
    (fun acc name =>
       if negb (mem name (fst acc)) then
         if str_in name text_file then
           ((fst acc ++ [name])%list, dict_set name (basename filename) (snd acc))
         else acc
       else acc)
    names acc.

Definition skip_definitions (filename : string) : bool :=
  should_skip_file filename || str_in "scripted_localisation" filename.

Definition scan_names (fs : filesystem) (lowercase : bool) (names : list string)
    (files : list string) (acc : list string * dict string)
  : list string * dict string :=
  fold_left
    (fun acc filename =>
       if skip_definitions filename then acc
       else note_names filename (text_of fs filename lowercase) names acc)
    files acc.

Definition readable (fs : filesystem) (path : string) : bool :=
  match fs_read fs path with
  | ReadOk _ => true
  | ReadErr _ => false
  end.

(** The file tree without the files that cannot be read. *)
Definition drop_unreadable (fs : filesystem) : filesystem :=
  {| fs_files := filter (fun pr => readable fs (fst pr)) (fs_files fs);
     fs_dirs := fs_dirs fs;
     fs_write_err := fs_write_err fs;
     fs_git := fs_git fs |}.

(** A computation over the file tree returns what it would return if the
    unreadable files were not there. *)
Definition ignores_unreadable {A} (run : filesystem -> M A) : Prop :=
  forall fs, value (run fs) = value (run (drop_unreadable fs)).

Definition raises_ValueError {A} (m : M A) : Prop :=
  exists msg, value m = inl (ValueError msg).

Fixpoint all_chars (good : ascii -> bool) (s : string) : bool :=
  match s with
  | EmptyString => true
  | String c s' => good c && all_chars good s'
  end.

(** Every [[class]+] of the pattern is made of good characters. *)
Definition groups_within (good : ascii -> bool) (its : pattern) : Prop :=
  Forall (fun it => match it with
                    | Plus p => forall c, p c = true -> good c = true
                    | _ => True
                    end) its.

Definition group_ok (good : ascii -> bool) (r : option (string * string)) : Prop :=
  match r with
  | Some (g, _) => all_chars good g = true
  | None => True
  end.

(** The symbols an extractor returns (none when it raises). *)
Definition symbols_of (m : M (list string)) : list string :=
  match value m with
  | inr l => l
  | inl _ => []
  end.


Definition blank_free (c : ascii) : bool := none_of (" " ++ TAB ++ NL) c.

Definition target_char (c : ascii) : bool :=
  none_of (" " ++ NL ++ TAB ++ "#" ++ DQUOTE) c.

Definition has_target_char (c : ascii) : bool :=
  none_of (" " ++ NL ++ TAB ++ DQUOTE) c.


(** A file tree with the given files under the directory [/mod]. *)
Definition tree (files : list (string * read_result)) : filesystem :=
  {| fs_files := files; fs_dirs := ["/mod"];
     fs_write_err := fun _ => None; fs_git := GitFails |}.


(** [paths.get(sym)] in what an extractor returns with its paths. *)
Definition file_of (sym : string) (m : M (list string * dict string))
  : option string :=
  match value m with
  | inr (_, paths) => dict_get sym paths
  | inl _ => None
  end.

(** [sym] is recorded when the file [f] is scanned. *)
Definition recorded_in (fs : filesystem) (lowercase : bool) (skip : string -> bool)
    (found : string -> string -> list string) (sym f : string) : bool :=
  negb (skip f) && mem sym (found f (text_of fs f lowercase)).

(** The name [sym], one of [names], occurs in the scanned file [f]. *)
Definition named_in (fs : filesystem) (lowercase : bool) (names : list string)
    (sym f : string) : bool :=
  negb (skip_definitions f) && mem sym names && str_in sym (text_of fs f lowercase).

Definition first_file (p : string -> bool) (files : list string) : option string :=
  find p files.

Definition last_file (p : string -> bool) (files : list string) : option string :=
  find p (rev files).

(** The symbols listed are the keys of the dict. *)
Definition keys_agree (acc : list string * dict string) : Prop :=
  forall n, mem n (fst acc) = true <-> dict_get n (snd acc) <> None.

(** A tree in which two files set the same country flag. *)
Definition tree_with_two_setters : filesystem :=
  tree [("/mod/events/a.txt", ReadOk ("set_country_flag = x" ++ NL));
        ("/mod/events/b.txt", ReadOk ("set_country_flag = x" ++ NL))].

Definition is_esc (c : ascii) : bool := Ascii.eqb c (ascii_of_nat 27).

(** No escape character. *)
Definition esc_free (s : string) : bool := all_chars (fun c => negb (is_esc c)) s.

(** A tree in which a saved event target is spelt with an escape, a
    bracket and a whole colour code inside what would be a colour code. *)
Definition tree_with_nested_code : filesystem :=
  tree [("/mod/events/a.txt",
         ReadOk ("save_event_target_as = " ++ ESC ++ "[" ++ Colors.ENDC ++ "0m" ++ NL))].

Definition report_to (path : string) : cli_args :=
  {| arg_path := "/mod"; arg_strict := false; arg_output := Some path;
     arg_no_color := false; arg_staged := false |}.

(** The text a run writes to [path], if it writes it. *)
Definition written_to (path : string) (t : list event) : option string :=
  match find (fun e => match e with
                       | EvWrite p _ => String.eqb p path
                       | _ => false
                       end) t with
  | Some (EvWrite _ content) => Some content
  | _ => None
  end.

(** A validator over the tree under [/mod/], walking all files. *)
Definition walker : validator :=
  {| mod_path := "/mod/"; errors_found := 0; output_file := None;
     use_colors := false; staged_only := false; staged_files := None;
     output_lines := [] |}.

(** A country flag tested on two lines and never set. *)
Definition tree_with_flag_tested_twice : filesystem :=
  tree [("/mod/events/a.txt",
         ReadOk ("has_country_flag = ghost" ++ NL
                 ++ "has_country_flag = ghost" ++ NL))].

(** A target saved with a capital letter, never used in script, and
    named in a localisation file in a [GetName] call. *)
Definition tree_with_capitalised_target : filesystem :=
  tree [("/mod/events/a.txt", ReadOk ("save_event_target_as = Hero" ++ NL));
        ("/mod/localisation/l_english.yml",
         ReadOk (" key:0 " ++ DQUOTE ++ "[Hero.GetName] wins" ++ DQUOTE ++ NL))].

(** The same with the target in lower case. *)
Definition tree_with_lowercase_target : filesystem :=
  tree [("/mod/events/a.txt", ReadOk ("save_event_target_as = hero" ++ NL));
        ("/mod/localisation/l_english.yml",
         ReadOk (" key:0 " ++ DQUOTE ++ "[hero.GetName] wins" ++ DQUOTE ++ NL))].

(** The text of [filename] can be read and holds [item]. *)
Definition holds (fs : filesystem) (item filename : string) : bool :=
  match fs_read fs filename with
  | ReadOk content => str_in item content
  | ReadErr _ => false
  end.

(** What [get_full_path] of [validate_variables.py] returns. *)
Definition full_path_of (fs : filesystem) (mod_path0 basename0 item : string)
  : option string :=
  find (fun filename =>
          String.eqb (basename filename) basename0
          && negb (should_skip_file filename)
          && holds fs item filename)
       (iglob_rec fs mod_path0 ".txt").

(** What [find_line_number] returns. *)
Definition line_of (fs : filesystem) (filename pattern : string) (lowercase : bool)
  : nat :=
  match fs_read fs filename with
  | ReadOk text =>
      first_line (if lowercase then lower pattern else pattern) lowercase (lines text) 1
  | ReadErr _ => 0
  end.

(** The finding one symbol adds to [results], with one probe. *)
Definition emitted1 (fs : filesystem) (mod_path0 : string)
    (symbol basename0 probe : string) : list defect :=
  let full_path := full_path_of fs mod_path0 basename0 probe in
  if truthy_str full_path then
    match full_path with
    | Some full_path =>
        [{| d_symbol := symbol; d_file := relpath full_path mod_path0;
            d_line := line_of fs full_path probe false |}]
    | None => []
    end
  else [].

(** The same with two probes. *)
Definition emitted2 (fs : filesystem) (mod_path0 : string)
    (symbol basename0 probe1 probe2 : string) : list defect :=
  let full_path := full_path_of fs mod_path0 basename0 probe1 in
  let full_path := if negb (truthy_str full_path)
                   then full_path_of fs mod_path0 basename0 probe2
                   else full_path in
  if truthy_str full_path then
    match full_path with
    | Some full_path =>
        let line_num := line_of fs full_path probe1 false in
        let line_num := if (line_num =? 0)%nat
                        then line_of fs full_path probe2 false
                        else line_num in
        [{| d_symbol := symbol; d_file := relpath full_path mod_path0;
            d_line := line_num |}]
    | None => []
    end
  else [].

(** The findings of a loop over the candidates [cands]: each candidate
    that [keep]s is looked up in [paths] and located. *)
Definition defects_for (keep : string -> bool) (paths : dict string)
    (emitted : string -> string -> list defect) (cands : list string)
  : list defect :=
  flat_map
    (fun c =>
       if keep c then
         match dict_get c paths with
         | Some b => emitted c b
         | None => []
         end
       else [])
    cands.

(** What a pattern extractor returns for a validator's tree. *)
Definition occurrences (fs : filesystem) (mod_path0 : string)
    (staged : option (list string)) (skip : string -> bool)
    (found : string -> string -> list string) : list string * dict string :=
  scan fs false skip found (txt_files_to_scan fs mod_path0 staged) ([], []).

Definition cleared_flags_defects (fs : filesystem) (mod_path0 : string)
    (staged : option (list string)) (flag_type : string)
    (false_positives : list string) : list defect :=
  let cleared := occurrences fs mod_path0 staged should_skip_file
                   (cleared_flags_in flag_type) in
  let set_flags := fst (occurrences fs mod_path0 staged should_skip_file
                          (set_flags_in flag_type)) in
  defects_for (fun flag => negb (mem flag set_flags)) (snd cleared)
    (fun flag b => emitted1 fs mod_path0 flag b
                     ("clr_" ++ flag_type ++ "_flag = " ++ flag))
    (DataCleaner.clear_list (fst cleared) false_positives).

Definition missing_flags_defects (fs : filesystem) (mod_path0 : string)
    (staged : option (list string)) (flag_type : string)
    (false_positives : list string) : list defect :=
  let used := occurrences fs mod_path0 staged should_skip_file
                (used_flags_in flag_type) in
  let set_flags := fst (occurrences fs mod_path0 staged should_skip_file
                          (set_flags_in flag_type)) in
  defects_for (fun flag => negb (mem flag set_flags)) (snd used)
    (fun flag b => emitted1 fs mod_path0 flag b
                     ("has_" ++ flag_type ++ "_flag = " ++ flag))
    (DataCleaner.clear_list (fst used) false_positives).

Definition unused_flags_defects (fs : filesystem) (mod_path0 : string)
    (staged : option (list string)) (flag_type : string)
    (false_positives : list string) : list defect :=
  let set := occurrences fs mod_path0 staged should_skip_file
               (set_flags_in flag_type) in
  let used_flags := fst (occurrences fs mod_path0 staged should_skip_file
                           (used_flags_in flag_type)) in
  defects_for (fun flag => negb (mem flag used_flags)) (snd set)
    (fun flag b => emitted1 fs mod_path0 flag b
                     ("set_" ++ flag_type ++ "_flag = " ++ flag))
    (DataCleaner.clear_list (fst set) false_positives).

Definition cleared_event_targets_defects (fs : filesystem) (mod_path0 : string)
    (staged : option (list string)) : list defect :=
  let cleared := occurrences fs mod_path0 staged should_skip_file cleared_targets_in in
  let set_targets := fst (occurrences fs mod_path0 staged skip_tag_aliases
                            set_targets_in) in
  defects_for (fun target => negb (mem target set_targets)) (snd cleared)
    (fun target b => emitted1 fs mod_path0 target b
                       ("clear_global_event_target = " ++ target))
    (fst cleared).

Definition missing_event_targets_defects (fs : filesystem) (mod_path0 : string)
    (staged : option (list string)) : list defect :=
  let used := occurrences fs mod_path0 staged should_skip_file used_targets_in in
  let set_targets := fst (occurrences fs mod_path0 staged skip_tag_aliases
                            set_targets_in) in
  defects_for (fun target => negb (mem target set_targets)) (snd used)
    (fun target b => emitted2 fs mod_path0 target b
                       ("event_target:" ++ target) ("has_event_target = " ++ target))
    (DataCleaner.clear_list (fst used) ["."]).

(** The targets the localisation files name, as [targets_used_in_loc]
    collects them. *)
Definition named_in_loc (fs : filesystem) (yml_files potential_results : list string)
  : list string :=
  fold_left
    (fun used filename =>
       if should_skip_file filename then used
       else
         let text_file := text_of fs filename true in
         if str_in ".get" text_file then
           fold_left
             (fun used target =>
                if str_in ("[" ++ target ++ ".getname") text_file
                   || str_in ("[" ++ target ++ ".getadjective") text_file
                then (used ++ [target])%list else used)
             (filter (fun i => negb (mem i used)) potential_results) used
         else used)
    yml_files [].

Definition yml_files_of (fs : filesystem) (mod_path0 : string)
    (staged : option (list string)) : list string :=
  match staged with
  | Some ((_ :: _) as l) => filter (fun f => endswith f ".yml") l
  | _ => iglob_rec fs mod_path0 ".yml"
  end.

Definition unused_event_targets_defects (fs : filesystem) (mod_path0 : string)
    (staged : option (list string)) : list defect :=
  let set := occurrences fs mod_path0 staged skip_tag_aliases set_targets_in in
  let used_targets := fst (occurrences fs mod_path0 staged should_skip_file
                             used_targets_in) in
  let set_targets :=
    DataCleaner.clear_list (fst set)
      ["wca_usa_floyd_olson"; "wca_usa_al_smith"; "target_value"] in
  let potential_results :=
    filter (fun target => negb (mem target used_targets)) set_targets in
  let in_loc := named_in_loc fs (yml_files_of fs mod_path0 staged) potential_results in
  defects_for (fun target => negb (mem target in_loc)) (snd set)
    (fun target b => emitted2 fs mod_path0 target b
                       ("save_event_target_as = " ++ target)
                       ("save_global_event_target_as = " ++ target))
    potential_results.

(** The text of [filename] can be read and holds [item], letter case
    apart. *)
Definition holds_any_case (fs : filesystem) (item filename : string) : bool :=
  match fs_read fs filename with
  | ReadOk content => str_in (lower item) (lower content)
  | ReadErr _ => false
  end.

(** What [get_full_path] of [validate_scripted_localisation.py] returns. *)
Definition full_path_of_any_case (fs : filesystem) (mod_path0 basename0 item : string)
  : option string :=
  find (fun filename =>
          String.eqb (basename filename) basename0
          && negb (should_skip_file filename)
          && holds_any_case fs item filename)
       (iglob_rec fs mod_path0 ".txt" ++ iglob_rec fs mod_path0 ".gui")%list.

(** One turn of the reporting loop of either check: [originals] is the
    list the index picks the original spelling from, [others] the list
    the symbol must be absent from. *)
Definition scripted_step (mod_path0 : string) (originals others : list string)
    (paths : dict string) (locate : string -> string -> option string)
    (line : string -> string -> nat)
    (st : list defect * list string) (il : nat * string)
  : list defect * list string :=
  if negb (mem (snd il) others) && negb (mem (snd il) (snd st)) then
    let original_loc := nth (fst il) originals "" in
    let basename0 :=
      validate_scripted_localisation.get_or paths original_loc
        (validate_scripted_localisation.get_or paths (snd il) "unknown") in
    let full_path := locate basename0 (snd il) in
    if truthy_str full_path then
      match full_path with
      | Some full_path =>
          ((fst st ++ [{| d_symbol := snd il; d_file := relpath full_path mod_path0;
                          d_line := line full_path (snd il) |}])%list,
           snd il :: snd st)
      | None => st
      end
    else st
  else st.

Definition missing_scripted_defects (set_order : list string -> list string)
    (fs : filesystem) (mod_path0 : string) (staged : option (list string))
    (false_positives : list string) : list defect :=
  let defined_locs :=
    fst (scan fs false skip_FR_loc defined_locs_in
           (validate_scripted_localisation.ScriptedLocalisation.defined_files_to_scan
              fs mod_path0 staged) ([], [])) in
  let used :=
    scan_names fs false (set_order defined_locs)
      (validate_scripted_localisation.ScriptedLocalisation.used_files_to_scan
         fs mod_path0 staged) ([], []) in
  fst (fold_left
         (scripted_step mod_path0 (fst used) (map lower defined_locs) (snd used)
            (full_path_of_any_case fs mod_path0)
            (fun full_path loc => line_of fs full_path loc true))
         (validate_scripted_localisation.enumerate
            (DataCleaner.clear_list (map lower (fst used)) false_positives))
         ([], [])).

(** The definition file, from the path of the tree alone. *)
Definition definition_file_of (fs : filesystem) (mod_path0 basename0 : string)
  : option string :=
  let pattern :=
    path_join (path_join (path_join mod_path0 "common") "scripted_localisation")
              basename0 in
  if fs_exists fs pattern then Some pattern
  else
    find (fun filename => String.eqb (basename filename) basename0)
         (glob_dir fs
            (path_join (path_join (path_join mod_path0 "common")
                                  "scripted_localisation") "")
            ".txt").

Definition unused_scripted_defects (set_order : list string -> list string)
    (fs : filesystem) (mod_path0 : string) (staged : option (list string))
    (false_positives : list string) : list defect :=
  let defined :=
    scan fs false skip_FR_loc defined_locs_in
      (validate_scripted_localisation.ScriptedLocalisation.defined_files_to_scan
         fs mod_path0 staged) ([], []) in
  let used_locs :=
    fst (scan_names fs false (set_order (fst defined))
           (validate_scripted_localisation.ScriptedLocalisation.used_files_to_scan
              fs mod_path0 staged) ([], [])) in
  fst (fold_left
         (scripted_step mod_path0 (fst defined) (map lower used_locs) (snd defined)
            (fun basename0 _ => definition_file_of fs mod_path0 basename0)
            (fun full_path loc => line_of fs full_path ("name = " ++ loc) true))
         (validate_scripted_localisation.enumerate
            (DataCleaner.clear_list (map lower (fst defined)) false_positives))
         ([], [])).

(** The [reported] set of the scripted-localisation checks keeps a symbol
    from being listed twice. *)
Definition listed_once (st : list defect * list string) : Prop :=
  NoDup (map d_symbol (fst st))
  /\ forall d, In d (fst st) -> In (d_symbol d) (snd st).

(** [b] is [a] with [n] more defects counted and more lines stored. *)
Definition counts (n : nat) (a b : validator) : Prop :=
  mod_path b = mod_path a
  /\ staged_files b = staged_files a
  /\ output_file b = output_file a
  /\ use_colors b = use_colors a
  /\ staged_only b = staged_only a
  /\ errors_found b = errors_found a + n.

(** A step that returns a validator counting [n] more defects. *)
Definition steps (n : nat) (a : validator) (m : M validator) : Prop :=
  exists b, value m = inr b /\ counts n a b.

(** All the defects the checks of [validate_variables.py] find. *)
Definition variables_defects (fs : filesystem) (mod_path0 : string)
    (staged : option (list string)) : list defect :=
  (flat_map
     (fun row =>
        match row with
        | (flag_type, fp_cleared, fp_missing, fp_unused) =>
            cleared_flags_defects fs mod_path0 staged flag_type fp_cleared
            ++ missing_flags_defects fs mod_path0 staged flag_type fp_missing
            ++ unused_flags_defects fs mod_path0 staged flag_type fp_unused
        end)
     validate_variables.Validator.FLAG_RUNS
   ++ cleared_event_targets_defects fs mod_path0 staged
   ++ missing_event_targets_defects fs mod_path0 staged
   ++ unused_event_targets_defects fs mod_path0 staged)%list.

(** All the defects the checks of [validate_scripted_localisation.py]
    find. *)
Definition scripted_defects (set_order : list string -> list string)
    (fs : filesystem) (mod_path0 : string) (staged : option (list string))
  : list defect :=
  (missing_scripted_defects set_order fs mod_path0 staged
     validate_scripted_localisation.Validator.FALSE_POSITIVES
   ++ unused_scripted_defects set_order fs mod_path0 staged
        validate_scripted_localisation.Validator.FALSE_POSITIVES)%list.

(** The path of the tree as [Validator.__init__] keeps it. *)
Definition root_of (args : cli_args) : string :=
  if endswith (arg_path args) "/" then arg_path args else arg_path args ++ "/".

(** The staged files of a run: what [get_staged_files] returns, when it
    is called and returns. *)
Definition staged_of
    (get_staged_files : filesystem -> string -> M (option (list string)))
    (fs : filesystem) (args : cli_args) : option (list string) :=
  if arg_staged args then
    match value (get_staged_files fs (root_of args)) with
    | inr staged => staged
    | inl _ => None
    end
  else None.

(** What asking for the staged files gives a run: the exception that
    ends it, or the files. *)
Definition staged_answer
    (get_staged_files : filesystem -> string -> M (option (list string)))
    (fs : filesystem) (args : cli_args) : exn + option (list string) :=
  if arg_staged args then value (get_staged_files fs (root_of args)) else inr None.

(** The run asks git for the staged files, and git cannot be started. *)
Definition git_missing (fs : filesystem) (args : cli_args) : bool :=
  arg_staged args
  && match fs_git fs with
     | GitAbsent _ => true
     | _ => false
     end.

(** What a run returns: the validator is built, then all checks run. *)
Definition run_of
    (get_staged_files : filesystem -> string -> M (option (list string)))
    (run_all_validations : filesystem -> validator -> M nat)
    (fs : filesystem) (args : cli_args) : M nat :=
  validator <- Validator_init get_staged_files fs (arg_path args)
                 (arg_output args) (negb (arg_no_color args)) (arg_staged args) ;;
  run_all_validations fs validator.

(** The total count of defects of a run of either script. *)
Definition variables_total (fs : filesystem) (args : cli_args) : nat :=
  List.length
    (variables_defects fs (root_of args)
       (staged_of validate_variables.get_staged_files fs args)).

Definition scripted_total (set_order : list string -> list string)
    (fs : filesystem) (args : cli_args) : nat :=
  List.length
    (scripted_defects set_order fs (root_of args)
       (staged_of validate_scripted_localisation.get_staged_files fs args)).

(** A strict run over a tree with defects, and one over a clean tree. *)
Definition strict_run : cli_args :=
  {| arg_path := "/mod"; arg_strict := true; arg_output := None;
     arg_no_color := true; arg_staged := false |}.

(** A clean tree on a machine without git, and a run over its staged
    files that is not strict. *)
Definition tree_without_git : filesystem :=
  {| fs_files := [("/mod/events/a.txt",
                   ReadOk ("set_country_flag = met" ++ NL
                           ++ "has_country_flag = met" ++ NL))];
     fs_dirs := ["/mod"];
     fs_write_err := fun _ => None;
     fs_git := GitAbsent "[Errno 2] No such file or directory: 'git'" |}.

Definition staged_run : cli_args :=
  {| arg_path := "/mod"; arg_strict := false; arg_output := None;
     arg_no_color := true; arg_staged := true |}.

(** An iteration order for sets: first occurrences, in order. *)
Definition first_occurrences (l : list string) : list string :=
  nodup string_dec l.

(** A flag tested in the braced form only, and never set. *)
Definition tree_with_braced_test : filesystem :=
  tree [("/mod/events/a.txt",
         ReadOk ("has_country_flag = { flag = ghost days > 3 }" ++ NL))].

(** The file found for a symbol, with one probe and with two. *)
Definition located1 (fs : filesystem) (mod_path0 : string) (paths : dict string)
    (probe : string -> string) (sym : string) : option string :=
  match dict_get sym paths with
  | Some b => full_path_of fs mod_path0 b (probe sym)
  | None => None
  end.

Definition located2 (fs : filesystem) (mod_path0 : string) (paths : dict string)
    (probe1 probe2 : string -> string) (sym : string) : option string :=
  match dict_get sym paths with
  | Some b =>
      let full_path := full_path_of fs mod_path0 b (probe1 sym) in
      if negb (truthy_str full_path) then full_path_of fs mod_path0 b (probe2 sym)
      else full_path
  | None => None
  end.

(** The finding for a symbol located in [p]: the line is 0 when no line
    of [p] holds the probe. *)
Definition finding1 (fs : filesystem) (mod_path0 : string) (probe : string -> string)
    (sym p : string) : defect :=
  {| d_symbol := sym; d_file := relpath p mod_path0;
     d_line := line_of fs p (probe sym) false |}.

Definition finding2 (fs : filesystem) (mod_path0 : string)
    (probe1 probe2 : string -> string) (sym p : string) : defect :=
  {| d_symbol := sym; d_file := relpath p mod_path0;
     d_line := if (line_of fs p (probe1 sym) false =? 0)%nat
               then line_of fs p (probe2 sym) false
               else line_of fs p (probe1 sym) false |}.

(** The results are the findings of the survivors that are located, and
    nothing else. *)
Definition reports_the_located (results : list defect) (survivors : list string)
    (locate : string -> option string) (finding : string -> string -> defect)
  : Prop :=
  forall d, In d results <->
            exists sym p, In sym survivors /\ locate sym = Some p /\ p <> ""
                          /\ d = finding sym p.

(** The file found for the occurrence at index [i] of a symbol that is
    absent from [others]. *)
Definition located_at (originals others : list string) (paths : dict string)
    (locate : string -> string -> option string) (i : nat) (loc : string)
  : option string :=
  if mem loc others then None
  else locate (validate_scripted_localisation.get_or paths (nth i originals "")
                 (validate_scripted_localisation.get_or paths loc "unknown")) loc.

(** Every finding comes from a located occurrence, every located
    occurrence has its symbol among the findings, and no symbol is
    listed twice. *)
Definition reports_each_located_once (results : list defect)
    (cands : list (nat * string)) (locate_at : nat -> string -> option string)
    (finding : string -> string -> defect) : Prop :=
  NoDup (map d_symbol results)
  /\ (forall d, In d results ->
                exists i loc p, In (i, loc) cands /\ locate_at i loc = Some p
                                /\ p <> "" /\ d = finding loc p)
  /\ (forall i loc p, In (i, loc) cands -> locate_at i loc = Some p -> p <> "" ->
                      In loc (map d_symbol results)).

(** What the two extractors of the scripted-localisation checks return. *)
Definition defined_occurrences (fs : filesystem) (mod_path0 : string)
    (staged : option (list string)) : list string * dict string :=
  scan fs false skip_FR_loc defined_locs_in
    (validate_scripted_localisation.ScriptedLocalisation.defined_files_to_scan
       fs mod_path0 staged) ([], []).

Definition used_occurrences (set_order : list string -> list string)
    (fs : filesystem) (mod_path0 : string) (staged : option (list string))
  : list string * dict string :=
  scan_names fs false (set_order (fst (defined_occurrences fs mod_path0 staged)))
    (validate_scripted_localisation.ScriptedLocalisation.used_files_to_scan
       fs mod_path0 staged) ([], []).

(** A tree whose first file cannot be decoded. *)
Definition tree_with_unreadable_file : filesystem :=
  tree [("/mod/events/a.txt", ReadErr "invalid start byte");
        ("/mod/events/b.txt", ReadOk ("set_country_flag = x" ++ NL))].

(** ** The vocabulary of the further properties *)

(** The line at index [n] (from 0) is the first one that holds the
    pattern. *)
Definition first_hit (search_pattern : string) (lowercase : bool)
    (ls : list string) (n : nat) : Prop :=
  (exists line, nth_error ls n = Some line
                /\ str_in search_pattern (if lowercase then lower line else line) = true)
  /\ forall k line, k < n -> nth_error ls k = Some line ->
                    str_in search_pattern (if lowercase then lower line else line)
                    = false.

(** The findings of a check (none when it raises). *)
Definition results_of (m : M (list defect)) : list defect :=
  match value m with
  | inr l => l
  | inl _ => []
  end.

Definition not_newline (c : ascii) : bool := negb (Ascii.eqb c "010"%char).

(** The finding [d] points at a line that holds its symbol: its file,
    taken from the root of the tree, is a readable [.txt] file outside
    the ignored directories, and its line number is the number of a line
    of that file in which the symbol occurs. *)
Definition points_at (fs : filesystem) (mod_path0 : string) (d : defect) : Prop :=
  exists content line,
    fs_read fs (mod_path0 ++ d_file d) = ReadOk content
    /\ should_skip_file (mod_path0 ++ d_file d) = false
    /\ endswith (d_file d) ".txt" = true
    /\ 1 <= d_line d
    /\ nth_error (lines content) (d_line d - 1) = Some line
    /\ str_in (d_symbol d) line = true.

(** The pattern has a group, and a match fills it. *)
Definition has_group (its : pattern) : bool :=
  existsb (fun it => match it with Plus _ => true | _ => false end) its.

Definition group_filled (r : option (string * string)) : Prop :=
  match r with
  | Some (g, _) => g <> ""
  | None => True
  end.

(** The colour codes of [Colors]. *)
Definition colour_codes : list string :=
  [Colors.HEADER; Colors.BLUE; Colors.CYAN; Colors.GREEN; Colors.YELLOW;
   Colors.RED; Colors.ENDC; Colors.BOLD; Colors.UNDERLINE].

(** The line of a finding as [render] gives it without colours. *)
Definition plain_render (result : defect) : string :=
  if (0 <? d_line result)%nat then
    "  " ++ d_file result ++ ":" ++ str_of_nat (d_line result)
         ++ " - " ++ d_symbol result
  else "  " ++ d_file result ++ " - " ++ d_symbol result.

(** The same command line with other report options, and the same tree
    with another answer to opening a file for writing. *)
Definition with_report_options (args : cli_args) (output : option string)
    (no_color : bool) : cli_args :=
  {| arg_path := arg_path args; arg_strict := arg_strict args;
     arg_output := output; arg_no_color := no_color;
     arg_staged := arg_staged args |}.

Definition with_write_err (fs : filesystem) (err : string -> option string)
  : filesystem :=
  {| fs_files := fs_files fs; fs_dirs := fs_dirs fs;
     fs_write_err := err; fs_git := fs_git fs |}.

(** A checkout that lies below a directory called [tools]; its one file
    tests a flag that is never set. *)
Definition tree_under_tools : filesystem :=
  {| fs_files := [("/work/tools/mod/events/a.txt",
                   ReadOk ("has_country_flag = ghost" ++ NL))];
     fs_dirs := ["/work/tools/mod"];
     fs_write_err := fun _ => None; fs_git := GitFails |}.

Definition strict_run_under_tools : cli_args :=
  {| arg_path := "/work/tools/mod"; arg_strict := true; arg_output := None;
     arg_no_color := true; arg_staged := false |}.

(** The files a run opens for reading, in order. *)
Definition opened (t : list event) : list string :=
  flat_map (fun e => match e with
                     | EvOpen path => [path]
                     | _ => []
                     end) t.

(** The files of [files] that [skip] lets through. *)
Definition let_through (skip : string -> bool) (files : list string) : list string :=
  filter (fun f => negb (skip f)) files.

(** A name git prints that a script keeps: it is not empty and it ends
    with one of the extensions [exts] of the script. *)
Definition kept (exts : list string) (name : string) : bool :=
  negb (String.eqb name "") && existsb (fun e => endswith name e) exts.

(** The names a new validator keeps, in the order git prints them: none
    without [--staged], and none when git fails. *)
Definition kept_names (exts : list string) (fs : filesystem) (staged_only0 : bool)
  : list string :=
  if staged_only0 then
    match fs_git fs with
    | GitNames names => filter (kept exts) names
    | _ => []
    end
  else [].

(** What [Validator.__init__] leaves behind, for a script that accepts
    the staged files with the extensions [exts]: [v] is the validator
    and [t] is what was logged. *)
Definition new_validator (exts : list string) (fs : filesystem)
    (mod_path0 : string) (output_file0 : option string)
    (use_colors0 staged_only0 : bool) (v : validator) (t : list event) : Prop :=
  mod_path v = (if endswith mod_path0 "/" then mod_path0 else mod_path0 ++ "/")
  /\ endswith (mod_path v) "/" = true
  /\ errors_found v = 0
  /\ output_file v = output_file0
  /\ use_colors v = use_colors0
  /\ staged_only v = staged_only0
  /\ output_lines v = []
  /\ match kept_names exts fs staged_only0 with
     | [] =>
         staged_files v = None
         /\ t = if staged_only0
                then [EvLog WARNING "No staged .txt or .yml files found"] else []
     | (_ :: _) as names =>
         staged_files v = Some (map (path_join (mod_path v)) names)
         /\ t = []
     end
  /\ staged_files v <> Some []
  /\ forall l p, staged_files v = Some l -> In p l ->
                 existsb (fun e => endswith p e) exts = true.

(** A tree in which four names are staged: two of them are kept by
    [validate_variables.py], three by
    [validate_scripted_localisation.py]. *)
Definition tree_with_staged_names : filesystem :=
  {| fs_files := [("/mod/events/a.txt", ReadOk ("set_country_flag = met" ++ NL))];
     fs_dirs := ["/mod"];
     fs_write_err := fun _ => None;
     fs_git := GitNames ["events/a.txt"; "notes.md"; "interface/main.gui";
                         "localisation/l_english.yml"] |}.



(** A country flag that is cleared and never set. *)
Definition tree_with_cleared_flag : filesystem :=
  tree [("/mod/events/a.txt", ReadOk ("clr_country_flag = gone" ++ NL))].

(** A scripted localisation that is defined and used. *)
Definition tree_with_scripted_name : filesystem :=
  tree [("/mod/common/scripted_localisation/a.txt",
         ReadOk ("defined_text = { name = GetRuler }" ++ NL));
        ("/mod/interface/main.gui", ReadOk ("text = [GetRuler]" ++ NL))].

(** [r] is the first element of [l] that passes [p], or [None] when no
    element passes. *)
Definition first_such (p : string -> bool) (l : list string) (r : option string)
  : Prop :=
  match r with
  | Some x =>
      exists l1 l2, l = (l1 ++ x :: l2)%list /\ p x = true
                    /\ forall y, In y l1 -> p y = false
  | None => forall y, In y l -> p y = false
  end.

(** A file the Locator may open when it looks for [basename0]. *)
Definition candidate (files : list string) (basename0 path : string) : Prop :=
  In path files /\ basename path = basename0 /\ should_skip_file path = false.

(** The names between the slashes of a path, and those of them that
    name a directory: all but the last. *)
Fixpoint split_from (cur s : string) : list string :=
  match s with
  | EmptyString => [cur]
  | String c s' =>
      if Ascii.eqb c "/"%char then cur :: split_from "" s'
      else split_from (cur ++ String c "") s'
  end.

Definition segments (path : string) : list string := split_from "" path.

Definition directories_of (path : string) : list string :=
  removelast (segments path).

Definition no_slash (s : string) : bool :=
  all_chars (fun c => negb (Ascii.eqb c "/"%char)) s.

(** The symbol occurs in the text of a file of the scan that is let
    through, as the extractor reads it; read in lower case, the symbol
    is in lower case. *)
Definition met_in (fs : filesystem) (lowercase : bool) (skip : string -> bool)
    (files : list string) (sym : string) : Prop :=
  (exists f, In f files /\ skip f = false
             /\ str_in sym (text_of fs f lowercase) = true)
  /\ (lowercase = true -> lower sym = sym).

Definition not_upper (c : ascii) : bool := negb (is_upper c).

(** A text of ASCII characters only. *)
Definition ascii_only (s : string) : bool :=
  all_chars (fun c => (nat_of_ascii c <? 128)%nat) s.

(** The target [hero] is saved and never used, and the localisation
    names it in capitals. *)
Definition tree_with_shouted_call : filesystem :=
  tree [("/mod/events/a.txt", ReadOk ("save_event_target_as = hero" ++ NL));
        ("/mod/localisation/l_english.yml",
         ReadOk (" key:0 " ++ DQUOTE ++ "[HERO.GETADJECTIVE] army" ++ DQUOTE ++ NL))].









(** * Properties *)

(** ** Strings and lists *)

Lemma prefix_spec : forall p s, prefix p s = true <-> exists b, s = p ++ b.
Proof.
  induction p as [|c p IH]; intros s; simpl.
  - split; [intros _; exists s; reflexivity | now destruct s].
  - destruct s as [|d s].
    + split; [discriminate | intros [b Hb]; discriminate].
    + simpl. destruct (ascii_dec c d) as [->|Hcd].
      * rewrite IH. split; intros [b Hb]; exists b.
        -- now rewrite Hb.
        -- now injection Hb.
      * split; [discriminate | intros [b Hb]; injection Hb; congruence].
Qed.

Lemma str_in_eq : forall f k,
    str_in f k = if prefix f k then true
                 else match k with
                      | EmptyString => false
                      | String _ k' => str_in f k'
                      end.
Proof. intros f k. destruct k; reflexivity. Qed.

Lemma str_in_spec : forall f k, str_in f k = true <-> is_substring f k.
Proof.
  intros f k. unfold is_substring. induction k as [|c k IH];
    rewrite str_in_eq; destruct (prefix f _) eqn:Hp.
  - split; [intros _ | reflexivity].
    apply prefix_spec in Hp. destruct Hp as [b Hb]. exists "", b. exact Hb.
  - split; [discriminate |].
    intros (a & b & Hab). destruct a; [|discriminate].
    simpl in Hab. assert (prefix f "" = true) by (apply prefix_spec; eauto).
    congruence.
  - split; [intros _ | reflexivity].
    apply prefix_spec in Hp. destruct Hp as [b Hb]. exists "", b. exact Hb.
  - rewrite IH. split.
    + intros (a & b & Hab). exists (String c a), b. simpl. now rewrite Hab.
    + intros (a & b & Hab). destruct a as [|c' a].
      * simpl in Hab.
        assert (prefix f (String c k) = true) by (apply prefix_spec; eauto).
        congruence.
      * injection Hab as _ Hk. eauto.
Qed.

Lemma mem_spec : forall x l, mem x l = true <-> In x l.
Proof.
  intros x l. unfold mem. rewrite existsb_exists. split.
  - intros (y & Hy & He). apply String.eqb_eq in He. now subst.
  - intros H. exists x. split; [assumption | apply String.eqb_refl].
Qed.

Lemma mem_app : forall x l1 l2, mem x (l1 ++ l2)%list = mem x l1 || mem x l2.
Proof. intros. unfold mem. apply existsb_app. Qed.

Lemma filter_all : forall {A} (p : A -> bool) (l : list A),
    (forall x, In x l -> p x = true) -> filter p l = l.
Proof.
  intros A p l. induction l as [|x l IH]; intros H; simpl; [reflexivity|].
  rewrite (H x (or_introl eq_refl)). f_equal. apply IH. intros; apply H; now right.
Qed.

Lemma filter_idem : forall {A} (p : A -> bool) (l : list A),
    filter p (filter p l) = filter p l.
Proof.
  intros. apply filter_all. intros x Hx. now apply filter_In in Hx.
Qed.

Lemma filter_filter : forall {A} (p q : A -> bool) (l : list A),
    filter p (filter q l) = filter (fun x => q x && p x) l.
Proof.
  intros A p q l. induction l as [|x l IH]; simpl; [reflexivity|].
  destruct (q x); simpl; [destruct (p x)|]; now rewrite IH.
Qed.

(** ** The false-positive filter *)

Lemma flagged_spec : forall R k,
    flagged R k = true <-> exists f, In f R /\ is_substring f k.
Proof.
  intros R k. unfold flagged. rewrite existsb_exists.
  split; intros (f & Hf & Hs); exists f; (split; [assumption|]);
    now apply str_in_spec.
Qed.

Lemma mem_skip_list_of : forall keys R i,
    mem i (DataCleaner.skip_list_of keys R) = true <-> In i keys /\ flagged R i = true.
Proof.
  intros keys R i. rewrite mem_spec. unfold DataCleaner.skip_list_of.
  rewrite in_flat_map. split.
  - intros (k & Hk & Hin). apply in_flat_map in Hin. destruct Hin as (f & Hf & Hin).
    destruct (str_in f k) eqn:E; [|contradiction].
    destruct Hin as [<-|[]]. split; [assumption|].
    unfold flagged. apply existsb_exists. eauto.
  - intros (Hk & Hfl). exists i. split; [assumption|].
    unfold flagged in Hfl. apply existsb_exists in Hfl. destruct Hfl as (f & Hf & E).
    apply in_flat_map. exists f. split; [assumption|]. rewrite E. now left.
Qed.

Lemma dict_pop_all : forall {V} (skip : list string) (d : dict V),
    fold_left (fun d i => if dict_mem i d then dict_pop i d else d) skip d
    = filter (fun kv => negb (mem (fst kv) skip)) d.
Proof.
  intros V skip. induction skip as [|i skip IH]; intros d; simpl.
  - symmetry. now apply filter_all.
  - assert (Hpop : (if dict_mem i d then dict_pop i d else d) = dict_pop i d).
    { destruct (dict_mem i d) eqn:E; [reflexivity|].
      symmetry. apply filter_all. intros [k v] Hkv. simpl.
      destruct (String.eqb_spec i k) as [->|]; [|reflexivity].
      assert (dict_mem k d = true); [|congruence].
      apply mem_spec. unfold dict_keys. now apply (in_map fst) in Hkv. }
    rewrite Hpop, IH. unfold dict_pop. rewrite filter_filter.
    apply filter_ext. intros [k v]. simpl. rewrite (String.eqb_sym k i).
    now destruct (String.eqb i k), (mem k skip).
Qed.

Lemma clear_list_filter : forall l R,
    DataCleaner.clear_list l R = filter (fun k => negb (flagged R k)) l.
Proof.
  intros l R. unfold DataCleaner.clear_list, DataCleaner.clear_false_positives_partial_match.
  destruct R as [|f R]; simpl.
  - symmetry. now apply filter_all.
  - apply filter_ext_in. intros k Hk. f_equal.
    apply eq_true_iff_eq. rewrite mem_skip_list_of. tauto.
Qed.

(** C4. [clear_false_positives_partial_match] with the rules [R] removes
    from a list, and from the keys of a dict, exactly the symbols in
    which some rule of [R] occurs as a substring; what stays keeps its
    order, its multiplicity and (in a dict) its value; and filtering the
    result again with [R] gives the result back. *)
Theorem clear_false_positives_partial_match_exact :
  forall (V : Type) (R : list string),
    (forall l : list string,
        exists l',
          DataCleaner.clear_false_positives_partial_match (V := V)
            (DataCleaner.PyList l) R = Some (DataCleaner.PyList l')
          /\ l' = filter (fun k => negb (flagged R k)) l
          /\ (forall k, In k l' <->
                        In k l /\ ~ (exists f, In f R /\ is_substring f k))
          /\ DataCleaner.clear_false_positives_partial_match (V := V)
               (DataCleaner.PyList l') R = Some (DataCleaner.PyList l'))
    /\
    (forall d : dict V,
        exists d',
          DataCleaner.clear_false_positives_partial_match (DataCleaner.PyDict d) R
          = Some (DataCleaner.PyDict d')
          /\ d' = filter (fun kv => negb (flagged R (fst kv))) d
          /\ (forall k v, In (k, v) d' <->
                          In (k, v) d /\ ~ (exists f, In f R /\ is_substring f k))
          /\ DataCleaner.clear_false_positives_partial_match (DataCleaner.PyDict d') R
             = Some (DataCleaner.PyDict d')).
Proof.
  intros V R.
  assert (Hlist : forall l,
             DataCleaner.clear_false_positives_partial_match (V := V)
               (DataCleaner.PyList l) R
             = Some (DataCleaner.PyList (filter (fun k => negb (flagged R k)) l))).
  { intros l. unfold DataCleaner.clear_false_positives_partial_match.
    destruct R as [|f R]; simpl.
    - do 2 f_equal. symmetry. now apply filter_all.
    - do 2 f_equal. apply filter_ext_in. intros k Hk. f_equal.
      apply eq_true_iff_eq. rewrite mem_skip_list_of. tauto. }
  assert (Hdict : forall d : dict V,
             DataCleaner.clear_false_positives_partial_match (DataCleaner.PyDict d) R
             = Some (DataCleaner.PyDict
                       (filter (fun kv => negb (flagged R (fst kv))) d))).
  { intros d. unfold DataCleaner.clear_false_positives_partial_match.
    destruct R as [|f R]; simpl.
    - do 2 f_equal. symmetry. now apply filter_all.
    - do 2 f_equal. rewrite dict_pop_all.
      apply filter_ext_in. intros [k v] Hk. simpl. f_equal.
      apply eq_true_iff_eq. rewrite mem_skip_list_of. unfold dict_keys.
      apply (in_map fst) in Hk. simpl in Hk. tauto. }
  split.
  - intros l. eexists. split; [apply Hlist|]. split; [reflexivity|]. split.
    + intros k. rewrite filter_In, negb_true_iff, <- flagged_spec.
      destruct (flagged R k); intuition congruence.
    + rewrite Hlist. now rewrite filter_idem.
  - intros d. eexists. split; [apply Hdict|]. split; [reflexivity|]. split.
    + intros k v. rewrite filter_In, negb_true_iff, <- flagged_spec. simpl.
      destruct (flagged R k); intuition congruence.
    + rewrite Hdict. now rewrite filter_idem.
Qed.

(** ** The effect monad *)

Lemma value_bind : forall {A B} (m : M A) (f : A -> M B),
    value (bind m f) = match value m with
                       | inl e => inl e
                       | inr a => value (f a)
                       end.
Proof.
  intros A B [[e|a] t] f; simpl; [reflexivity|]. now destruct (f a).
Qed.

Lemma value_ret : forall {A} (a : A), value (ret a) = inr a.
Proof. reflexivity. Qed.

Lemma for_each_value : forall {A S} (f : S -> A -> M S) (g : S -> A -> S),
    (forall s x, value (f s x) = inr (g s x)) ->
    forall l s, value (for_each l s f) = inr (fold_left g l s).
Proof.
  intros A S f g H l. induction l as [|x l IH]; intros s; simpl; [reflexivity|].
  rewrite value_bind, H. apply IH.
Qed.

(** ** Dictionaries *)

Lemma dict_get_set_same : forall {V} k (v : V) d, dict_get k (dict_set k v d) = Some v.
Proof.
  intros V k v d. induction d as [|[k' v'] d IH]; simpl.
  - now rewrite String.eqb_refl.
  - destruct (String.eqb k k') eqn:E; simpl; rewrite E; [reflexivity | exact IH].
Qed.

Lemma dict_get_set_other : forall {V} k k' (v : V) d,
    k <> k' -> dict_get k' (dict_set k v d) = dict_get k' d.
Proof.
  intros V k k' v d Hne. induction d as [|[k0 v0] d IH]; simpl.
  - destruct (String.eqb_spec k' k); [congruence | reflexivity].
  - destruct (String.eqb_spec k k0) as [->|]; simpl.
    + destruct (String.eqb_spec k' k0); [congruence | reflexivity].
    + destruct (String.eqb k' k0); [reflexivity | exact IH].
Qed.

(** ** The extractors, as folds over the files *)

Lemma open_text_file_value : forall fs filename lowercase,
    value (FileOpener.open_text_file fs filename lowercase)
    = inr (text_of fs filename lowercase).
Proof.
  intros fs filename lowercase. unfold FileOpener.open_text_file, text_of.
  rewrite value_bind. simpl. destruct (fs_read fs filename); [now destruct lowercase|].
  reflexivity.
Qed.

Lemma record_if_any_eq : forall filename ms acc,
    record_if_any filename ms acc = record_matches filename ms acc.
Proof. intros filename [|m ms] acc; reflexivity. Qed.

Lemma record_matches_app : forall filename ms1 ms2 acc,
    record_matches filename (ms1 ++ ms2)%list acc
    = record_matches filename ms2 (record_matches filename ms1 acc).
Proof. intros. unfold record_matches. apply fold_left_app. Qed.

Lemma record_matches_fst : forall filename ms acc,
    fst (record_matches filename ms acc) = (fst acc ++ ms)%list.
Proof.
  intros filename ms. induction ms as [|m ms IH]; intros acc; simpl.
  - now rewrite app_nil_r.
  - unfold record_matches in *. simpl. rewrite IH. simpl. now rewrite <- app_assoc.
Qed.

Lemma record_matches_snd : forall filename ms acc s,
    dict_get s (snd (record_matches filename ms acc))
    = if mem s ms then Some (basename filename) else dict_get s (snd acc).
Proof.
  intros filename ms. induction ms as [|m ms IH]; intros acc s; [reflexivity|].
  unfold record_matches in *. simpl fold_left. rewrite IH. simpl.
  destruct (mem s ms) eqn:E.
  - now rewrite orb_true_r.
  - rewrite orb_false_r. destruct (String.eqb_spec s m) as [->|Hne].
    + apply dict_get_set_same.
    + apply dict_get_set_other. congruence.
Qed.

Lemma record_matches_nil : forall filename acc,
    record_matches filename [] acc = acc.
Proof. reflexivity. Qed.

(** Rewriting an extractor body into the shape of [scan]. *)
Ltac scan_body :=
  intros acc filename;
  repeat match goal with
         | |- context [if ?b then _ else _] =>
             lazymatch b with
             | should_skip_file _ => destruct b eqn:?
             | str_in _ _ => destruct b eqn:?
             | orb _ _ => destruct b eqn:?
             | andb _ _ => destruct b eqn:?
             end; cbv beta iota zeta
         | |- context [value (bind _ _)] =>
             rewrite value_bind, open_text_file_value
         | |- context [record_if_any] => rewrite record_if_any_eq
         | |- context [record_matches _ (_ ++ _)%list _] => rewrite record_matches_app
         | |- context [record_matches _ [] _] => rewrite record_matches_nil
         | |- context [(_ ++ [])%list] => rewrite app_nil_r
         end;
  try discriminate; try reflexivity.

Lemma get_all_used_flags_value :
  forall fs mod_path lowercase flag_type return_paths staged_files,
    In flag_type validate_variables.FLAG_TYPES ->
    value (validate_variables.Variables.get_all_used_flags fs mod_path lowercase
             flag_type return_paths staged_files)
    = inr (give return_paths
             (scan fs lowercase should_skip_file (used_flags_in flag_type)
                (txt_files_to_scan fs mod_path staged_files) ([], []))).
Proof.
  intros fs mod_path lowercase flag_type return_paths staged_files Hin.
  unfold validate_variables.Variables.get_all_used_flags.
  apply mem_spec in Hin. rewrite Hin. simpl negb. cbv iota.
  rewrite value_bind.
  erewrite for_each_value; [reflexivity|].
  unfold used_flags_in. scan_body.
Qed.

Lemma get_all_set_flags_value :
  forall fs mod_path lowercase flag_type return_paths staged_files,
    In flag_type validate_variables.FLAG_TYPES ->
    value (validate_variables.Variables.get_all_set_flags fs mod_path lowercase
             flag_type return_paths staged_files)
    = inr (give return_paths
             (scan fs lowercase should_skip_file (set_flags_in flag_type)
                (txt_files_to_scan fs mod_path staged_files) ([], []))).
Proof.
  intros fs mod_path lowercase flag_type return_paths staged_files Hin.
  unfold validate_variables.Variables.get_all_set_flags.
  apply mem_spec in Hin. rewrite Hin. simpl negb. cbv iota.
  rewrite value_bind.
  erewrite for_each_value; [reflexivity|].
  unfold set_flags_in. scan_body.
Qed.

Lemma get_all_cleared_flags_value :
  forall fs mod_path lowercase flag_type return_paths staged_files,
    In flag_type validate_variables.FLAG_TYPES ->
    value (validate_variables.Variables.get_all_cleared_flags fs mod_path lowercase
             flag_type return_paths staged_files)
    = inr (give return_paths
             (scan fs lowercase should_skip_file (cleared_flags_in flag_type)
                (txt_files_to_scan fs mod_path staged_files) ([], []))).
Proof.
  intros fs mod_path lowercase flag_type return_paths staged_files Hin.
  unfold validate_variables.Variables.get_all_cleared_flags.
  apply mem_spec in Hin. rewrite Hin. simpl negb. cbv iota.
  rewrite value_bind.
  erewrite for_each_value; [reflexivity|].
  unfold cleared_flags_in. scan_body.
Qed.

Lemma get_all_used_targets_value :
  forall fs mod_path lowercase return_paths staged_files,
    value (validate_variables.EventTargets.get_all_used_targets fs mod_path lowercase
             return_paths staged_files)
    = inr (give return_paths
             (scan fs lowercase should_skip_file used_targets_in
                (txt_files_to_scan fs mod_path staged_files) ([], []))).
Proof.
  intros fs mod_path lowercase return_paths staged_files.
  unfold validate_variables.EventTargets.get_all_used_targets.
  rewrite value_bind.
  erewrite for_each_value; [reflexivity|].
  unfold used_targets_in. scan_body.
Qed.

Lemma get_all_set_targets_value :
  forall fs mod_path lowercase return_paths staged_files,
    value (validate_variables.EventTargets.get_all_set_targets fs mod_path lowercase
             return_paths staged_files)
    = inr (give return_paths
             (scan fs lowercase skip_tag_aliases set_targets_in
                (txt_files_to_scan fs mod_path staged_files) ([], []))).
Proof.
  intros fs mod_path lowercase return_paths staged_files.
  unfold validate_variables.EventTargets.get_all_set_targets.
  rewrite value_bind.
  erewrite for_each_value; [reflexivity|].
  unfold set_targets_in, skip_tag_aliases. scan_body.
Qed.

Lemma get_all_cleared_targets_value :
  forall fs mod_path lowercase return_paths staged_files,
    value (validate_variables.EventTargets.get_all_cleared_targets fs mod_path lowercase
             return_paths staged_files)
    = inr (give return_paths
             (scan fs lowercase should_skip_file cleared_targets_in
                (txt_files_to_scan fs mod_path staged_files) ([], []))).
Proof.
  intros fs mod_path lowercase return_paths staged_files.
  unfold validate_variables.EventTargets.get_all_cleared_targets.
  rewrite value_bind.
  erewrite for_each_value; [reflexivity|].
  unfold cleared_targets_in. scan_body.
Qed.

Lemma get_all_defined_localisations_value :
  forall fs mod_path lowercase return_paths staged_files,
    value (validate_scripted_localisation.ScriptedLocalisation.get_all_defined_localisations
             fs mod_path lowercase return_paths staged_files)
    = inr (give return_paths
             (scan fs lowercase skip_FR_loc defined_locs_in
                (validate_scripted_localisation.ScriptedLocalisation.defined_files_to_scan
                   fs mod_path staged_files) ([], []))).
Proof.
  intros fs mod_path lowercase return_paths staged_files.
  unfold validate_scripted_localisation.ScriptedLocalisation.get_all_defined_localisations.
  rewrite value_bind.
  erewrite for_each_value; [reflexivity|].
  unfold defined_locs_in, skip_FR_loc. scan_body.
Qed.

Lemma get_all_used_localisations_value :
  forall set_order fs mod_path defined_names lowercase return_paths staged_files,
    value (validate_scripted_localisation.ScriptedLocalisation.get_all_used_localisations
             set_order fs mod_path defined_names lowercase return_paths staged_files)
    = inr (give return_paths
             (scan_names fs lowercase
                (if lowercase then set_order (map lower defined_names)
                 else defined_names)
                (validate_scripted_localisation.ScriptedLocalisation.used_files_to_scan
                   fs mod_path staged_files) ([], []))).
Proof.
  intros set_order fs mod_path defined_names lowercase return_paths staged_files.
  unfold validate_scripted_localisation.ScriptedLocalisation.get_all_used_localisations.
  cbv zeta. rewrite value_bind.
  erewrite for_each_value; [reflexivity|].
  unfold skip_definitions, note_names. scan_body.
Qed.

(** ** Unreadable files *)

Lemma lookup_file_filter : forall (keep : string -> bool) path files,
    keep path = true ->
    lookup_file path (filter (fun pr => keep (fst pr)) files) = lookup_file path files.
Proof.
  intros keep path files Hk. induction files as [|[p r] files IH]; simpl; [reflexivity|].
  destruct (keep p) eqn:E; simpl.
  - destruct (String.eqb path p); [reflexivity | exact IH].
  - destruct (String.eqb_spec path p) as [->|]; [congruence | exact IH].
Qed.

Lemma text_of_drop_unreadable : forall fs path lowercase,
    readable fs path = true ->
    text_of (drop_unreadable fs) path lowercase = text_of fs path lowercase.
Proof.
  intros fs path lowercase Hr. unfold text_of, fs_read, drop_unreadable. simpl.
  now rewrite lookup_file_filter.
Qed.

Lemma text_of_unreadable : forall fs path lowercase,
    readable fs path = false -> text_of fs path lowercase = "".
Proof.
  intros fs path lowercase. unfold readable, text_of.
  now destruct (fs_read fs path).
Qed.

Lemma map_fst_filter : forall {A B} (p : A -> bool) (l : list (A * B)),
    map fst (filter (fun ab => p (fst ab)) l) = filter p (map fst l).
Proof.
  intros A B p l. induction l as [|[a b] l IH]; simpl; [reflexivity|].
  destruct (p a); simpl; now rewrite IH.
Qed.

Lemma filter_comm : forall {A} (p q : A -> bool) (l : list A),
    filter p (filter q l) = filter q (filter p l).
Proof.
  intros. rewrite !filter_filter. apply filter_ext. intros. apply andb_comm.
Qed.

Lemma iglob_rec_drop_unreadable : forall fs root ext,
    iglob_rec (drop_unreadable fs) root ext = filter (readable fs) (iglob_rec fs root ext).
Proof.
  intros. unfold iglob_rec, drop_unreadable. simpl.
  rewrite map_fst_filter. apply filter_comm.
Qed.

Lemma glob_dir_drop_unreadable : forall fs dir ext,
    glob_dir (drop_unreadable fs) dir ext = filter (readable fs) (glob_dir fs dir ext).
Proof.
  intros. unfold glob_dir, drop_unreadable. simpl.
  rewrite map_fst_filter. apply filter_comm.
Qed.

(** A scan passes over the unreadable files when the empty text holds
    no match. *)
Lemma scan_drop_unreadable : forall fs lowercase skip found,
    (forall filename, found filename "" = []) ->
    forall files acc,
      scan fs lowercase skip found files acc
      = scan (drop_unreadable fs) lowercase skip found (filter (readable fs) files) acc.
Proof.
  intros fs lowercase skip found Hempty files.
  induction files as [|f files IH]; intros acc; [reflexivity|].
  unfold scan in *. simpl. destruct (readable fs f) eqn:Hr; simpl.
  - rewrite text_of_drop_unreadable by assumption. apply IH.
  - rewrite text_of_unreadable by assumption. rewrite Hempty, record_matches_nil.
    destruct (skip f); apply IH.
Qed.

Lemma note_names_cons : forall filename text_file n names acc,
    note_names filename text_file (n :: names) acc
    = note_names filename text_file names
        (if negb (mem n (fst acc)) then
           if str_in n text_file then
             ((fst acc ++ [n])%list, dict_set n (basename filename) (snd acc))
           else acc
         else acc).
Proof. reflexivity. Qed.

Lemma str_in_empty_text : forall needle,
    needle <> "" -> str_in needle "" = false.
Proof. intros [|c n] H; [congruence | reflexivity]. Qed.

Lemma note_names_empty_text : forall filename names acc,
    ~ In "" names -> note_names filename "" names acc = acc.
Proof.
  intros filename names. induction names as [|n names IH]; intros acc Hn; [reflexivity|].
  rewrite note_names_cons, str_in_empty_text.
  - destruct (negb (mem n (fst acc))); apply IH; intros H; apply Hn; now right.
  - intros ->. apply Hn. now left.
Qed.

Lemma scan_names_drop_unreadable : forall fs lowercase names,
    ~ In "" names ->
    forall files acc,
      scan_names fs lowercase names files acc
      = scan_names (drop_unreadable fs) lowercase names (filter (readable fs) files) acc.
Proof.
  intros fs lowercase names Hn files.
  induction files as [|f files IH]; intros acc; [reflexivity|].
  unfold scan_names in *. simpl. destruct (readable fs f) eqn:Hr; simpl.
  - rewrite text_of_drop_unreadable by assumption. apply IH.
  - rewrite text_of_unreadable by assumption.
    rewrite note_names_empty_text by assumption.
    destruct (skip_definitions f); apply IH.
Qed.

Lemma walk_ignores_unreadable :
  forall return_paths (run : filesystem -> M (extracted return_paths))
         lowercase skip found root,
    (forall filename, found filename "" = []) ->
    (forall fs, value (run fs)
                = inr (give return_paths
                         (scan fs lowercase skip found
                            (txt_files_to_scan fs root None) ([], [])))) ->
    ignores_unreadable run.
Proof.
  intros return_paths run lowercase skip found root Hempty Hrun fs.
  rewrite !Hrun. unfold txt_files_to_scan.
  rewrite iglob_rec_drop_unreadable. do 2 f_equal.
  now apply scan_drop_unreadable.
Qed.

(** C5. Reading a corpus file never raises: [open_text_file] always
    returns a text; when the read or the decoding fails it logs one
    warning and returns the empty text.  So every extractor, walking the
    tree, returns what it would return if the unreadable files were not
    in the tree: they add no occurrence and the scan of the other files
    is not disturbed.  (For [get_all_used_localisations] the names
    searched are not empty, as the names a definition scan finds are.) *)
Theorem open_text_file_never_raises :
  forall fs filename lowercase,
    (exists text_file,
        value (FileOpener.open_text_file fs filename lowercase) = inr text_file)
    /\ (forall ex,
           fs_read fs filename = ReadErr ex ->
           FileOpener.open_text_file fs filename lowercase
           = (inr "",
              [EvOpen filename;
               EvLog WARNING ("Skipping the file " ++ filename ++ ", " ++ ex)]))
    /\ (forall mod_path return_paths,
           Forall
             (fun flag_type =>
                ignores_unreadable
                  (fun fs => validate_variables.Variables.get_all_used_flags
                               fs mod_path lowercase flag_type return_paths None)
                /\ ignores_unreadable
                     (fun fs => validate_variables.Variables.get_all_set_flags
                                  fs mod_path lowercase flag_type return_paths None)
                /\ ignores_unreadable
                     (fun fs => validate_variables.Variables.get_all_cleared_flags
                                  fs mod_path lowercase flag_type return_paths None))
             validate_variables.FLAG_TYPES
           /\ ignores_unreadable
                (fun fs => validate_variables.EventTargets.get_all_used_targets
                             fs mod_path lowercase return_paths None)
           /\ ignores_unreadable
                (fun fs => validate_variables.EventTargets.get_all_set_targets
                             fs mod_path lowercase return_paths None)
           /\ ignores_unreadable
                (fun fs => validate_variables.EventTargets.get_all_cleared_targets
                             fs mod_path lowercase return_paths None)
           /\ ignores_unreadable
                (fun fs =>
                   validate_scripted_localisation.ScriptedLocalisation.get_all_defined_localisations
                     fs mod_path lowercase return_paths None)
           /\ (forall set_order defined_names,
                  ~ In "" defined_names ->
                  ignores_unreadable
                    (fun fs =>
                       validate_scripted_localisation.ScriptedLocalisation.get_all_used_localisations
                         set_order fs mod_path defined_names false return_paths None))).
Proof.
  intros fs filename lowercase. split; [|split].
  - eexists. apply open_text_file_value.
  - intros ex Hex. unfold FileOpener.open_text_file. rewrite Hex. reflexivity.
  - intros mod_path return_paths. repeat split.
    + rewrite Forall_forall. intros flag_type Hft. repeat split.
      * eapply walk_ignores_unreadable with (found := used_flags_in flag_type);
          [reflexivity|]. intros fs0. now apply get_all_used_flags_value.
      * eapply walk_ignores_unreadable with (found := set_flags_in flag_type);
          [reflexivity|]. intros fs0. now apply get_all_set_flags_value.
      * eapply walk_ignores_unreadable with (found := cleared_flags_in flag_type);
          [reflexivity|]. intros fs0. now apply get_all_cleared_flags_value.
    + eapply walk_ignores_unreadable with (found := used_targets_in).
      * intros f. unfold used_targets_in. now destruct (str_in "tag_aliases" f).
      * intros fs0. apply get_all_used_targets_value.
    + eapply walk_ignores_unreadable with (found := set_targets_in);
        [reflexivity|]. intros fs0. apply get_all_set_targets_value.
    + eapply walk_ignores_unreadable with (found := cleared_targets_in);
        [reflexivity|]. intros fs0. apply get_all_cleared_targets_value.
    + intros fs0. rewrite !get_all_defined_localisations_value.
      unfold validate_scripted_localisation.ScriptedLocalisation.defined_files_to_scan.
      rewrite glob_dir_drop_unreadable. do 2 f_equal.
      now apply scan_drop_unreadable.
    + intros set_order defined_names Hn fs0.
      rewrite !get_all_used_localisations_value.
      unfold validate_scripted_localisation.ScriptedLocalisation.used_files_to_scan.
      rewrite !iglob_rec_drop_unreadable, glob_dir_drop_unreadable.
      rewrite <- !filter_app. do 2 f_equal.
      now apply scan_names_drop_unreadable.
Qed.

(** ** Unsupported flag types *)

(** C9. Each of [get_all_used_flags], [get_all_set_flags] and
    [get_all_cleared_flags] raises [ValueError] exactly when [flag_type]
    is none of country, state, global; it then raises at once, with no
    file opened and nothing logged; and for a supported type it returns. *)
Theorem flag_extractors_reject_unsupported_type :
  forall fs mod_path lowercase flag_type return_paths staged_files,
    let used := validate_variables.Variables.get_all_used_flags
                  fs mod_path lowercase flag_type return_paths staged_files in
    let set := validate_variables.Variables.get_all_set_flags
                 fs mod_path lowercase flag_type return_paths staged_files in
    let cleared := validate_variables.Variables.get_all_cleared_flags
                     fs mod_path lowercase flag_type return_paths staged_files in
    ((raises_ValueError used <-> ~ In flag_type ["country"; "state"; "global"])
     /\ (raises_ValueError set <-> ~ In flag_type ["country"; "state"; "global"])
     /\ (raises_ValueError cleared <-> ~ In flag_type ["country"; "state"; "global"]))
    /\ (~ In flag_type ["country"; "state"; "global"] ->
        trace used = [] /\ trace set = [] /\ trace cleared = [])
    /\ (In flag_type ["country"; "state"; "global"] ->
        (exists r, value used = inr r)
        /\ (exists r, value set = inr r)
        /\ (exists r, value cleared = inr r)).
Proof.
  intros fs mod_path lowercase flag_type return_paths staged_files used set cleared.
  destruct (mem flag_type validate_variables.FLAG_TYPES) eqn:E.
  - assert (Hin : In flag_type validate_variables.FLAG_TYPES) by now apply mem_spec.
    assert (Hu := get_all_used_flags_value fs mod_path lowercase flag_type
                    return_paths staged_files Hin).
    assert (Hs := get_all_set_flags_value fs mod_path lowercase flag_type
                    return_paths staged_files Hin).
    assert (Hc := get_all_cleared_flags_value fs mod_path lowercase flag_type
                    return_paths staged_files Hin).
    fold used in Hu. fold set in Hs. fold cleared in Hc.
    unfold raises_ValueError. rewrite Hu, Hs, Hc.
    repeat split; try (intros [msg Hm]; discriminate); try contradiction; eauto.
  - assert (Hnot : ~ In flag_type validate_variables.FLAG_TYPES).
    { intros H. apply mem_spec in H. congruence. }
    assert (Hu : used = (inl validate_variables.unsupported, [])).
    { unfold used, validate_variables.Variables.get_all_used_flags. now rewrite E. }
    assert (Hs : set = (inl validate_variables.unsupported, [])).
    { unfold set, validate_variables.Variables.get_all_set_flags. now rewrite E. }
    assert (Hc : cleared = (inl validate_variables.unsupported, [])).
    { unfold cleared, validate_variables.Variables.get_all_cleared_flags. now rewrite E. }
    rewrite Hu, Hs, Hc. unfold raises_ValueError, validate_variables.unsupported.
    repeat split; simpl; eauto; try contradiction.
Qed.

(** ** What a group can hold *)

Lemma all_chars_app : forall good a b,
    all_chars good (a ++ b) = all_chars good a && all_chars good b.
Proof.
  intros good a b. induction a as [|c a IH]; simpl; [reflexivity|].
  now rewrite IH, andb_assoc.
Qed.

Lemma all_chars_weaken : forall (p good : ascii -> bool) s,
    (forall c, p c = true -> good c = true) ->
    all_chars p s = true -> all_chars good s = true.
Proof.
  intros p good s H. induction s as [|c s IH]; simpl; [reflexivity|].
  rewrite !andb_true_iff. intros [Hc Hs]. auto.
Qed.


Lemma plus_loop_group : forall good p k,
    (forall c, p c = true -> good c = true) ->
    forall s acc, all_chars good acc = true -> group_ok good (plus_loop p k s acc).
Proof.
  intros good p k Hp s. induction s as [|c s IH]; intros acc Hacc; simpl; [exact I|].
  destruct (p c) eqn:Hc; [|exact I].
  assert (Hacc' : all_chars good (acc ++ String c "") = true).
  { rewrite all_chars_app, Hacc. simpl. now rewrite (Hp c Hc). }
  specialize (IH _ Hacc'). destruct (plus_loop p k s (acc ++ String c "")); [exact IH|].
  destruct (k s) as [[g rest]|]; [exact Hacc' | exact I].
Qed.

Lemma star_loop_group : forall good p k,
    (forall s, group_ok good (k s)) -> forall s, group_ok good (star_loop p k s).
Proof.
  intros good p k Hk s. induction s as [|c s IH]; simpl; [apply Hk|].
  destruct (p c); [|apply Hk]. destruct (star_loop p k s); [exact IH | apply Hk].
Qed.

Lemma lazy_loop_group : forall good k,
    (forall s, group_ok good (k s)) -> forall s, group_ok good (lazy_loop k s).
Proof.
  intros good k Hk s. induction s as [|c s IH]; simpl.
  - specialize (Hk ""). now destruct (k "").
  - specialize (Hk (String c s)). now destruct (k (String c s)).
Qed.

Lemma re_match_group : forall good its,
    groups_within good its -> forall s, group_ok good (re_match its s).
Proof.
  intros good its H. induction H as [|it its Hit Hits IH]; intros s; [reflexivity|].
  destruct it as [l|p|p|p|]; simpl.
  - destruct (strip_prefix l s); [apply IH | exact I].
  - destruct s as [|c s]; [exact I|]. destruct (p c); [apply IH | exact I].
  - now apply plus_loop_group.
  - now apply star_loop_group.
  - now apply lazy_loop_group.
Qed.

Lemma findall_group : forall good its,
    groups_within good its ->
    forall s, Forall (fun g => all_chars good g = true) (findall its s).
Proof.
  intros good its H s. unfold findall. generalize 0.
  induction s as [|c s IH]; intros skip.
  - destruct skip; simpl; [|constructor].
    assert (Hg := re_match_group good its H "").
    destruct (re_match its "") as [[g rest]|]; repeat constructor. exact Hg.
  - destruct skip; simpl; [|apply IH].
    assert (Hg := re_match_group good its H (String c s)).
    destruct (re_match its (String c s)) as [[g rest]|]; [|apply IH].
    constructor; [exact Hg | apply IH].
Qed.

(** The list of symbols a scan records. *)
Lemma scan_fst : forall fs lowercase skip found files acc,
    fst (scan fs lowercase skip found files acc)
    = (fst acc
       ++ flat_map (fun f => if skip f then []
                             else found f (text_of fs f lowercase)) files)%list.
Proof.
  intros fs lowercase skip found files.
  induction files as [|f files IH]; intros acc; simpl.
  - now rewrite app_nil_r.
  - unfold scan in *. simpl. rewrite IH. destruct (skip f); [reflexivity|].
    rewrite record_matches_fst. now rewrite <- app_assoc.
Qed.

Lemma scan_symbols : forall (P : string -> Prop) fs lowercase skip found files,
    (forall f text_file, Forall P (found f text_file)) ->
    Forall P (fst (scan fs lowercase skip found files ([], []))).
Proof.
  intros P fs lowercase skip found files H. rewrite scan_fst. simpl.
  rewrite Forall_forall. intros x Hx. apply in_flat_map in Hx.
  destruct Hx as (f & _ & Hx). destruct (skip f); [contradiction|].
  specialize (H f (text_of fs f lowercase)). rewrite Forall_forall in H. auto.
Qed.


(** ** The symbols the patterns capture *)

Ltac by_ascii :=
  let c := fresh "c" in
  intros c; destruct c as [[|] [|] [|] [|] [|] [|] [|] [|]];
  vm_compute; intros; congruence.

Lemma groups_plain : forall verb flag_type,
    groups_within blank_free (validate_variables.Variables.plain_pattern verb flag_type).
Proof. intros. repeat constructor. auto. Qed.

Lemma groups_braced_used : forall flag_type,
    groups_within blank_free (validate_variables.Variables.braced_used_pattern flag_type).
Proof. intros. repeat constructor. by_ascii. Qed.

Lemma groups_braced_set : forall flag_type,
    groups_within blank_free (validate_variables.Variables.braced_set_pattern flag_type).
Proof. intros. repeat constructor. by_ascii. Qed.

Lemma groups_target : forall keyword,
    groups_within target_char (validate_variables.EventTargets.target_pattern keyword).
Proof. intros. repeat constructor. auto. Qed.

Lemma groups_has_target :
  groups_within has_target_char validate_variables.EventTargets.has_target_pattern.
Proof. repeat constructor. auto. Qed.

Lemma groups_name :
  groups_within is_word validate_scripted_localisation.ScriptedLocalisation.name_pattern.
Proof. repeat constructor. auto. Qed.

Lemma target_char_has_target_char : forall c,
    target_char c = true -> has_target_char c = true.
Proof. by_ascii. Qed.

Lemma Forall_app_2 : forall {A} (P : A -> Prop) l1 l2,
    Forall P l1 -> Forall P l2 -> Forall P (l1 ++ l2)%list.
Proof. intros. apply Forall_app. now split. Qed.

Lemma findall_weaken : forall (p good : ascii -> bool) its s,
    (forall c, p c = true -> good c = true) ->
    groups_within p its ->
    Forall (fun g => all_chars good g = true) (findall its s).
Proof.
  intros p good its s Hpg H.
  eapply Forall_impl; [|apply (findall_group p its H)].
  intros g Hg. now apply (all_chars_weaken p).
Qed.

Lemma findall_target_has : forall keyword s,
    Forall (fun g => all_chars has_target_char g = true)
           (findall (validate_variables.EventTargets.target_pattern keyword) s).
Proof.
  intros. eapply findall_weaken;
    [apply target_char_has_target_char | apply groups_target].
Qed.

Create HintDb symbols.
#[local] Hint Resolve Forall_nil Forall_app_2 findall_group groups_plain
  groups_braced_used groups_braced_set groups_target groups_has_target groups_name
  findall_target_has : symbols.

Lemma used_flags_in_chars : forall flag_type f text_file,
    Forall (fun g => all_chars blank_free g = true) (used_flags_in flag_type f text_file).
Proof. intros. unfold used_flags_in. destruct (_ || _); auto with symbols. Qed.

Lemma set_flags_in_chars : forall flag_type f text_file,
    Forall (fun g => all_chars blank_free g = true) (set_flags_in flag_type f text_file).
Proof. intros. unfold set_flags_in. destruct (str_in _ _); auto with symbols. Qed.

Lemma cleared_flags_in_chars : forall flag_type f text_file,
    Forall (fun g => all_chars blank_free g = true) (cleared_flags_in flag_type f text_file).
Proof. intros. unfold cleared_flags_in. destruct (str_in _ _); auto with symbols. Qed.

Lemma used_targets_in_chars : forall f text_file,
    Forall (fun g => all_chars has_target_char g = true) (used_targets_in f text_file).
Proof.
  intros. unfold used_targets_in.
  repeat match goal with
         | |- context [if ?b then _ else _] => destruct b
         end; auto with symbols.
Qed.

Lemma set_targets_in_chars : forall f text_file,
    Forall (fun g => all_chars target_char g = true) (set_targets_in f text_file).
Proof.
  intros. unfold set_targets_in.
  repeat match goal with
         | |- context [if ?b then _ else _] => destruct b
         end; auto with symbols.
Qed.

Lemma cleared_targets_in_chars : forall f text_file,
    Forall (fun g => all_chars target_char g = true) (cleared_targets_in f text_file).
Proof. intros. unfold cleared_targets_in. destruct (str_in _ _); auto with symbols. Qed.





Lemma symbols_of_scan : forall (P : string -> Prop) (m : M (list string))
                               fs lowercase skip found files,
    value m = inr (give false (scan fs lowercase skip found files ([], []))) ->
    (forall f text_file, Forall P (found f text_file)) ->
    Forall P (symbols_of m).
Proof.
  intros P m fs lowercase skip found files Hm H. unfold symbols_of. rewrite Hm.
  simpl. now apply scan_symbols.
Qed.




(** ** The file recorded for a symbol *)

Lemma find_app : forall {A} (p : A -> bool) l1 l2,
    find p (l1 ++ l2)%list = match find p l1 with
                             | Some x => Some x
                             | None => find p l2
                             end.
Proof.
  intros A p l1 l2. induction l1 as [|x l1 IH]; simpl; [reflexivity|].
  now destruct (p x).
Qed.

(** Each match assigns [paths[sym]] anew: the last file stays. *)
Lemma scan_snd : forall fs lowercase skip found sym files acc,
    dict_get sym (snd (scan fs lowercase skip found files acc))
    = match last_file (recorded_in fs lowercase skip found sym) files with
      | Some f => Some (basename f)
      | None => dict_get sym (snd acc)
      end.
Proof.
  intros fs lowercase skip found sym files. unfold last_file.
  induction files as [|f files IH]; intros acc; [reflexivity|].
  unfold scan in *. simpl. rewrite IH, find_app.
  destruct (find _ (rev files)); [reflexivity|]. simpl.
  unfold recorded_in. destruct (skip f); simpl; [reflexivity|].
  rewrite record_matches_snd. now destruct (mem sym _).
Qed.

Lemma note_names_snd : forall filename text_file sym names acc,
    keys_agree acc ->
    keys_agree (note_names filename text_file names acc)
    /\ dict_get sym (snd (note_names filename text_file names acc))
       = match dict_get sym (snd acc) with
         | Some b => Some b
         | None => if mem sym names && str_in sym text_file
                   then Some (basename filename) else None
         end.
Proof.
  intros filename text_file sym names.
  induction names as [|n names IH]; intros acc Hacc.
  - split; [assumption|]. simpl. now destruct (dict_get sym (snd acc)).
  - rewrite note_names_cons.
    destruct (mem n (fst acc)) eqn:Hmem; simpl negb; cbv iota.
    + destruct (IH acc Hacc) as [Hk Hget]. split; [assumption|]. rewrite Hget.
      destruct (dict_get sym (snd acc)) eqn:Hs; [reflexivity|].
      simpl. destruct (String.eqb_spec sym n) as [->|]; [|reflexivity].
      apply Hacc in Hmem. congruence.
    + destruct (str_in n text_file) eqn:Hin.
      * assert (Hacc' : keys_agree
                          ((fst acc ++ [n])%list,
                           dict_set n (basename filename) (snd acc))).
        { intros m. simpl. rewrite mem_app. simpl. rewrite orb_false_r.
          destruct (String.eqb_spec m n) as [->|Hne].
          - rewrite orb_true_r, dict_get_set_same. split; [discriminate | reflexivity].
          - rewrite orb_false_r, dict_get_set_other by congruence. apply Hacc. }
        destruct (IH _ Hacc') as [Hk Hget]. split; [assumption|]. rewrite Hget.
        simpl. destruct (String.eqb_spec sym n) as [->|Hne].
        -- rewrite dict_get_set_same.
           assert (Hnone : dict_get n (snd acc) = None).
           { destruct (dict_get n (snd acc)) eqn:E; [|reflexivity].
             assert (mem n (fst acc) = true) by (apply Hacc; congruence). congruence. }
           rewrite Hnone. simpl. now rewrite Hin.
        -- rewrite dict_get_set_other by congruence. reflexivity.
      * destruct (IH acc Hacc) as [Hk Hget]. split; [assumption|]. rewrite Hget.
        destruct (dict_get sym (snd acc)); [reflexivity|].
        simpl. destruct (String.eqb_spec sym n) as [->|]; [|reflexivity].
        rewrite Hin. simpl. now rewrite andb_false_r.
Qed.

(** A name is recorded once: the first file stays. *)
Lemma scan_names_snd : forall fs lowercase names sym files acc,
    keys_agree acc ->
    dict_get sym (snd (scan_names fs lowercase names files acc))
    = match dict_get sym (snd acc) with
      | Some b => Some b
      | None => option_map basename
                  (first_file (named_in fs lowercase names sym) files)
      end.
Proof.
  intros fs lowercase names sym files. unfold first_file.
  induction files as [|f files IH]; intros acc Hacc.
  - simpl. now destruct (dict_get sym (snd acc)).
  - unfold scan_names in *. simpl. unfold named_in at 1.
    destruct (skip_definitions f); simpl.
    + now apply IH.
    + destruct (note_names_snd f (text_of fs f lowercase) sym names acc Hacc)
        as [Hk Hget].
      rewrite (IH _ Hk), Hget.
      destruct (dict_get sym (snd acc)); [reflexivity|].
      now destruct (mem sym names && str_in sym (text_of fs f lowercase)).
Qed.

Lemma keys_agree_empty : keys_agree ([], []).
Proof. intros n. simpl. split; [discriminate | congruence]. Qed.

Lemma file_of_scan : forall (m : M (list string * dict string))
                            fs lowercase skip found files sym,
    value m = inr (give true (scan fs lowercase skip found files ([], []))) ->
    file_of sym m
    = option_map basename (last_file (recorded_in fs lowercase skip found sym) files).
Proof.
  intros m fs lowercase skip found files sym Hm. unfold file_of. rewrite Hm.
  simpl. destruct (scan _ _ _ _ _ _) as [flags paths] eqn:E.
  change paths with (snd (flags, paths)). rewrite <- E, scan_snd.
  now destruct (last_file _ _).
Qed.

Lemma file_of_scan_names : forall (m : M (list string * dict string))
                                  fs lowercase names files sym,
    value m = inr (give true (scan_names fs lowercase names files ([], []))) ->
    file_of sym m
    = option_map basename (first_file (named_in fs lowercase names sym) files).
Proof.
  intros m fs lowercase names files sym Hm. unfold file_of. rewrite Hm.
  simpl. destruct (scan_names _ _ _ _ _) as [flags paths] eqn:E.
  change paths with (snd (flags, paths)). rewrite <- E.
  rewrite scan_names_snd by apply keys_agree_empty. reflexivity.
Qed.

(** C3, as stated, fails: the flag [x] is met first in [a.txt], and the
    mapping returned holds [b.txt], the file met last. *)
Lemma set_flag_paths_hold_the_later_file :
  txt_files_to_scan tree_with_two_setters "/mod/" None
  = ["/mod/events/a.txt"; "/mod/events/b.txt"]
  /\ value (validate_variables.Variables.get_all_set_flags
              tree_with_two_setters "/mod/" false "country" true None)
     = inr (["x"; "x"], [("x", "b.txt")]).
Proof. vm_compute. split; reflexivity. Qed.

(** C3, amended. In the mapping a pattern extractor returns (flags,
    event targets, scripted-localisation definitions) every match assigns
    the file anew, so a symbol is mapped to the base name of the last
    scanned file in which its pattern matched it.  Only
    [get_all_used_localisations] records a name once: there the symbol
    stays mapped to the first scanned file that contains it. *)
Theorem symbol_to_file_mapping :
  forall fs mod_path lowercase staged_files sym,
    let files := txt_files_to_scan fs mod_path staged_files in
    Forall
      (fun flag_type =>
         file_of sym (validate_variables.Variables.get_all_used_flags
                        fs mod_path lowercase flag_type true staged_files)
         = option_map basename
             (last_file (recorded_in fs lowercase should_skip_file
                           (used_flags_in flag_type) sym) files)
         /\ file_of sym (validate_variables.Variables.get_all_set_flags
                           fs mod_path lowercase flag_type true staged_files)
            = option_map basename
                (last_file (recorded_in fs lowercase should_skip_file
                              (set_flags_in flag_type) sym) files)
         /\ file_of sym (validate_variables.Variables.get_all_cleared_flags
                           fs mod_path lowercase flag_type true staged_files)
            = option_map basename
                (last_file (recorded_in fs lowercase should_skip_file
                              (cleared_flags_in flag_type) sym) files))
      validate_variables.FLAG_TYPES
    /\ file_of sym (validate_variables.EventTargets.get_all_used_targets
                      fs mod_path lowercase true staged_files)
       = option_map basename
           (last_file (recorded_in fs lowercase should_skip_file used_targets_in sym)
                      files)
    /\ file_of sym (validate_variables.EventTargets.get_all_set_targets
                      fs mod_path lowercase true staged_files)
       = option_map basename
           (last_file (recorded_in fs lowercase skip_tag_aliases set_targets_in sym)
                      files)
    /\ file_of sym (validate_variables.EventTargets.get_all_cleared_targets
                      fs mod_path lowercase true staged_files)
       = option_map basename
           (last_file (recorded_in fs lowercase should_skip_file cleared_targets_in sym)
                      files)
    /\ file_of sym
         (validate_scripted_localisation.ScriptedLocalisation.get_all_defined_localisations
            fs mod_path lowercase true staged_files)
       = option_map basename
           (last_file (recorded_in fs lowercase skip_FR_loc defined_locs_in sym)
              (validate_scripted_localisation.ScriptedLocalisation.defined_files_to_scan
                 fs mod_path staged_files))
    /\ (forall set_order defined_names,
           file_of sym
             (validate_scripted_localisation.ScriptedLocalisation.get_all_used_localisations
                set_order fs mod_path defined_names false true staged_files)
           = option_map basename
               (first_file (named_in fs false defined_names sym)
                  (validate_scripted_localisation.ScriptedLocalisation.used_files_to_scan
                     fs mod_path staged_files))).
Proof.
  intros fs mod_path lowercase staged_files sym files. repeat split.
  - rewrite Forall_forall. intros flag_type Hin. repeat split.
    + eapply file_of_scan.
      exact (get_all_used_flags_value fs mod_path lowercase flag_type true
               staged_files Hin).
    + eapply file_of_scan.
      exact (get_all_set_flags_value fs mod_path lowercase flag_type true
               staged_files Hin).
    + eapply file_of_scan.
      exact (get_all_cleared_flags_value fs mod_path lowercase flag_type true
               staged_files Hin).
  - eapply file_of_scan.
    exact (get_all_used_targets_value fs mod_path lowercase true staged_files).
  - eapply file_of_scan.
    exact (get_all_set_targets_value fs mod_path lowercase true staged_files).
  - eapply file_of_scan.
    exact (get_all_cleared_targets_value fs mod_path lowercase true staged_files).
  - eapply file_of_scan.
    exact (get_all_defined_localisations_value fs mod_path lowercase true staged_files).
  - intros set_order defined_names. eapply file_of_scan_names.
    exact (get_all_used_localisations_value set_order fs mod_path defined_names
             false true staged_files).
Qed.

(** ** The lines kept for the output file *)

Lemma log_value : forall self message lv,
    value (log self message lv)
    = inr (set_output_lines self (output_lines self ++ [strip_ansi message])%list).
Proof.
  intros self message lv. unfold log. rewrite value_bind.
  destruct (use_colors self);
    destruct (String.eqb lv "info"), (String.eqb lv "warning"), (String.eqb lv "error");
    reflexivity.
Qed.

(** ** Three runs that go wrong *)

(** C1 at a failing input. The flag [ghost] is tested twice and never
    set: the missing-flags check of [validate_variables.py], which has
    no step that drops a symbol already reported, lists [ghost] twice,
    renders the same line twice and counts two issues. *)
Theorem missing_flags_lists_a_symbol_twice :
  value (validate_variables.Validator.missing_flags_results
           tree_with_flag_tested_twice walker "country"
           validate_variables.Validator.FALSE_POSITIVES_COUNTRY)
  = inr [{| d_symbol := "ghost"; d_file := "events/a.txt"; d_line := 1 |};
         {| d_symbol := "ghost"; d_file := "events/a.txt"; d_line := 1 |}]
  /\ match value (validate_variables.Validator.validate_missing_flags
                   tree_with_flag_tested_twice walker "country"
                   validate_variables.Validator.FALSE_POSITIVES_COUNTRY) with
     | inr self' =>
         count_occ string_dec (output_lines self') "  events/a.txt:1 - ghost" = 2
         /\ mem "2 issues found" (output_lines self') = true
         /\ errors_found self' = 2
     | inl _ => False
     end.
Proof. vm_compute. repeat split. Qed.

(** C7 at a failing input. The localisation text is read in lower case
    and the target is looked for as it was saved: [Hero], which a
    localisation file names in [[Hero.GetName]], is reported as unused,
    while [hero] in the same place is not. *)
Theorem capitalised_target_is_reported_despite_loc_use :
  symbols_of (validate_variables.EventTargets.get_all_set_targets
                tree_with_capitalised_target "/mod/" false false None) = ["Hero"]
  /\ symbols_of (validate_variables.EventTargets.get_all_used_targets
                   tree_with_capitalised_target "/mod/" false false None) = []
  /\ str_in "[Hero.GetName"
       (text_of tree_with_capitalised_target "/mod/localisation/l_english.yml" false)
     = true
  /\ value (validate_variables.Validator.targets_used_in_loc
              tree_with_capitalised_target walker ["Hero"]) = inr []
  /\ value (validate_variables.Validator.unused_event_targets_results
              tree_with_capitalised_target walker)
     = inr [{| d_symbol := "Hero"; d_file := "events/a.txt"; d_line := 1 |}]
  /\ value (validate_variables.Validator.unused_event_targets_results
              tree_with_lowercase_target walker)
     = inr [].
Proof. vm_compute. repeat split. Qed.

(** C10 at a failing input. [log] has the comment "Store for file
    output (without colors)", and what it stores is
    [re.sub(pattern, "", message)]: one pass, which deletes the inner
    code of a nested one and leaves a colour code behind.  Whatever
    [use_colors] and the level are, the line stored for the message
    below is [ENDC] itself; and a run with colours over a tree in which
    a target is spelt that way writes a report file that holds
    [ENDC]. *)
Theorem stored_line_keeps_a_colour_code :
  strip_ansi (ESC ++ "[" ++ Colors.ENDC ++ "0m") = Colors.ENDC
  /\ (forall (self : validator) (lv : string),
         exists self',
           value (log self (ESC ++ "[" ++ Colors.ENDC ++ "0m") lv) = inr self'
           /\ output_lines self' = (output_lines self ++ [Colors.ENDC])%list)
  /\ (exists content,
         written_to "/report.txt"
           (snd (validate_variables.main tree_with_nested_code (report_to "/report.txt")))
         = Some content
         /\ str_in Colors.ENDC content = true).
Proof.
  split; [reflexivity|]. split.
  - intros self lv. eexists. split; [apply log_value|]. reflexivity.
  - eexists. split; [vm_compute; reflexivity|]. vm_compute. reflexivity.
Qed.

(** ** The Locator, as pure functions *)

Lemma find_line_number_value : forall fs filename pattern lowercase,
    value (find_line_number fs filename pattern lowercase)
    = inr (line_of fs filename pattern lowercase).
Proof.
  intros. unfold find_line_number, line_of. rewrite value_bind. simpl.
  now destruct (fs_read fs filename).
Qed.

Lemma first_found_value :
  forall (body : option string -> string -> M (option string)) (p : string -> bool),
    (forall filename, value (body None filename)
                      = inr (if p filename then Some filename else None)) ->
    (forall x filename, value (body (Some x) filename) = inr (Some x)) ->
    forall files found,
      value (for_each files found body)
      = inr (match found with
             | Some x => Some x
             | None => find p files
             end).
Proof.
  intros body p Hnone Hsome files. induction files as [|f files IH]; intros found.
  - now destruct found.
  - simpl. rewrite value_bind. destruct found as [x|].
    + rewrite Hsome. apply IH.
    + rewrite Hnone, IH. now destruct (p f).
Qed.

Lemma get_full_path_value : forall fs self basename0 item,
    value (validate_variables.Validator.get_full_path fs self basename0 item)
    = inr (full_path_of fs (mod_path self) basename0 item).
Proof.
  intros fs self basename0 item.
  unfold validate_variables.Validator.get_full_path, full_path_of.
  erewrite first_found_value; [reflexivity| |reflexivity].
  intros filename. unfold holds.
  destruct (String.eqb (basename filename) basename0); [|reflexivity].
  destruct (should_skip_file filename); [reflexivity|].
  rewrite value_bind. simpl.
  destruct (fs_read fs filename) as [content|]; [|reflexivity].
  now destruct (str_in item content).
Qed.

Lemma locate_and_append_value : forall fs self results symbol basename0 probe,
    value (validate_variables.Validator.locate_and_append
             fs self results symbol basename0 probe)
    = inr (results ++ emitted1 fs (mod_path self) symbol basename0 probe)%list.
Proof.
  intros. unfold validate_variables.Validator.locate_and_append, emitted1.
  rewrite value_bind, get_full_path_value. cbv zeta.
  destruct (full_path_of fs (mod_path self) basename0 probe) as [p|]; simpl.
  - destruct (negb (String.eqb p "")).
    + now rewrite value_bind, find_line_number_value.
    + simpl. now rewrite app_nil_r.
  - now rewrite app_nil_r.
Qed.

Lemma locate_and_append2_value :
  forall fs self results symbol basename0 probe1 probe2,
    value (validate_variables.Validator.locate_and_append2
             fs self results symbol basename0 probe1 probe2)
    = inr (results ++ emitted2 fs (mod_path self) symbol basename0 probe1 probe2)%list.
Proof.
  intros. unfold validate_variables.Validator.locate_and_append2, emitted2.
  rewrite value_bind, get_full_path_value. cbv zeta.
  rewrite value_bind.
  destruct (negb (truthy_str (full_path_of fs (mod_path self) basename0 probe1)));
    [rewrite get_full_path_value | rewrite value_ret];
    match goal with
    | |- context [truthy_str ?fp] => destruct fp as [p|]
    end; simpl; try now rewrite app_nil_r.
  all: destruct (negb (String.eqb p "")); simpl; try now rewrite app_nil_r.
  all: rewrite value_bind, find_line_number_value, value_bind.
  all: destruct (line_of fs p probe1 false =? 0)%nat;
    [now rewrite find_line_number_value | reflexivity].
Qed.

Lemma results_loop_value :
  forall (keep : string -> bool) (paths : dict string)
         (app : list defect -> string -> string -> M (list defect))
         (emitted : string -> string -> list defect),
    (forall results c b, value (app results c b) = inr (results ++ emitted c b)%list) ->
    forall (cands : list string) (results : list defect),
      (forall c, In c cands -> dict_get c paths <> None) ->
      value (for_each cands results
               (fun results c =>
                  if keep c then b <- subscript paths c ;; app results c b
                  else ret results))
      = inr (results ++ defects_for keep paths emitted cands)%list.
Proof.
  intros keep paths app emitted Happ cands.
  induction cands as [|c cands IH]; intros results Hkeys.
  - simpl. now rewrite app_nil_r.
  - simpl. rewrite value_bind.
    assert (Hc : dict_get c paths <> None) by (apply Hkeys; now left).
    assert (Hrest : forall c', In c' cands -> dict_get c' paths <> None)
      by (intros; apply Hkeys; now right).
    destruct (keep c).
    + rewrite value_bind. unfold subscript.
      destruct (dict_get c paths) as [b|]; [|congruence].
      rewrite value_ret, Happ, (IH _ Hrest). now rewrite <- app_assoc.
    + rewrite value_ret, (IH _ Hrest). reflexivity.
Qed.

Lemma find_none_iff : forall {A} (p : A -> bool) l,
    find p l = None <-> forall x, In x l -> p x = false.
Proof.
  intros A p l. split; [apply find_none|].
  induction l as [|x l IH]; intros H; [reflexivity|]. simpl.
  rewrite (H x (or_introl eq_refl)). apply IH. intros; apply H; now right.
Qed.

(** Every symbol a scan lists is a key of its dict. *)
Lemma scan_keys : forall fs lowercase skip found files sym,
    In sym (fst (scan fs lowercase skip found files ([], []))) ->
    dict_get sym (snd (scan fs lowercase skip found files ([], []))) <> None.
Proof.
  intros fs lowercase skip found files sym Hin.
  rewrite scan_snd. rewrite scan_fst in Hin. simpl in Hin.
  apply in_flat_map in Hin. destruct Hin as (f & Hf & Hin).
  destruct (skip f) eqn:Hs; [contradiction|].
  unfold last_file. destruct (find _ (rev files)) eqn:E; [discriminate|].
  exfalso. rewrite find_none_iff in E. specialize (E f).
  rewrite <- in_rev in E. specialize (E Hf). unfold recorded_in in E.
  rewrite Hs in E. simpl in E. apply mem_spec in Hin. congruence.
Qed.

Lemma clear_list_incl : forall l R c, In c (DataCleaner.clear_list l R) -> In c l.
Proof. intros l R c. rewrite clear_list_filter, filter_In. tauto. Qed.

(** ** The findings of the checks of validate_variables.py, as pure functions *)

Lemma targets_used_in_loc_value : forall fs self potential_results,
    value (validate_variables.Validator.targets_used_in_loc fs self potential_results)
    = inr (named_in_loc fs (yml_files_of fs (mod_path self) (staged_files self))
             potential_results).
Proof.
  intros. unfold validate_variables.Validator.targets_used_in_loc, named_in_loc.
  erewrite for_each_value; [reflexivity|].
  intros used filename. cbv beta.
  destruct (should_skip_file filename); [reflexivity|].
  rewrite value_bind, open_text_file_value. cbv zeta.
  now destruct (str_in ".get" (text_of fs filename true)).
Qed.

(** A bind whose first computation returns a pair, or a list. *)
Lemma bind_pair_value :
  forall {B} (m : M (extracted true)) (f : extracted true -> M B) acc,
    value m = inr (give true acc) -> value (bind m f) = value (f acc).
Proof. intros B m f acc H. rewrite value_bind, H. reflexivity. Qed.

Lemma bind_list_value :
  forall {B} (m : M (extracted false)) (f : extracted false -> M B) acc,
    value m = inr (give false acc) -> value (bind m f) = value (f (fst acc)).
Proof. intros B m f acc H. rewrite value_bind, H. reflexivity. Qed.

Lemma occurrences_keys : forall fs mod_path0 staged skip found R c,
    In c (DataCleaner.clear_list (fst (occurrences fs mod_path0 staged skip found)) R) ->
    dict_get c (snd (occurrences fs mod_path0 staged skip found)) <> None.
Proof.
  intros. apply scan_keys. eapply clear_list_incl. eassumption.
Qed.

Lemma cleared_flags_results_value : forall fs self flag_type false_positives,
    In flag_type validate_variables.FLAG_TYPES ->
    value (validate_variables.Validator.cleared_flags_results
             fs self flag_type false_positives)
    = inr (cleared_flags_defects fs (mod_path self) (staged_files self)
             flag_type false_positives).
Proof.
  intros fs self flag_type false_positives Hin.
  unfold validate_variables.Validator.cleared_flags_results.
  erewrite bind_pair_value by (now apply get_all_cleared_flags_value).
  fold (occurrences fs (mod_path self) (staged_files self) should_skip_file
          (cleared_flags_in flag_type)).
  destruct (occurrences fs (mod_path self) (staged_files self) should_skip_file
              (cleared_flags_in flag_type)) as [cleared paths] eqn:Ecl.
  erewrite bind_list_value by (now apply get_all_set_flags_value).
  cbv zeta.
  rewrite (results_loop_value _ _
             (fun results c b =>
                validate_variables.Validator.locate_and_append fs self results c b
                  ("clr_" ++ flag_type ++ "_flag = " ++ c))
             (fun c b => emitted1 fs (mod_path self) c b
                           ("clr_" ++ flag_type ++ "_flag = " ++ c))).
  - unfold cleared_flags_defects. rewrite Ecl. reflexivity.
  - intros. apply locate_and_append_value.
  - intros c Hc. change paths with (snd (cleared, paths)).
    change cleared with (fst (cleared, paths)) in Hc. rewrite <- Ecl in *.
    eapply occurrences_keys. eassumption.
Qed.

Lemma missing_flags_results_value : forall fs self flag_type false_positives,
    In flag_type validate_variables.FLAG_TYPES ->
    value (validate_variables.Validator.missing_flags_results
             fs self flag_type false_positives)
    = inr (missing_flags_defects fs (mod_path self) (staged_files self)
             flag_type false_positives).
Proof.
  intros fs self flag_type false_positives Hin.
  unfold validate_variables.Validator.missing_flags_results.
  erewrite bind_pair_value by (now apply get_all_used_flags_value).
  fold (occurrences fs (mod_path self) (staged_files self) should_skip_file
          (used_flags_in flag_type)).
  destruct (occurrences fs (mod_path self) (staged_files self) should_skip_file
              (used_flags_in flag_type)) as [used paths] eqn:Eu.
  erewrite bind_list_value by (now apply get_all_set_flags_value).
  cbv zeta.
  rewrite (results_loop_value _ _
             (fun results c b =>
                validate_variables.Validator.locate_and_append fs self results c b
                  ("has_" ++ flag_type ++ "_flag = " ++ c))
             (fun c b => emitted1 fs (mod_path self) c b
                           ("has_" ++ flag_type ++ "_flag = " ++ c))).
  - unfold missing_flags_defects. rewrite Eu. reflexivity.
  - intros. apply locate_and_append_value.
  - intros c Hc. change paths with (snd (used, paths)).
    change used with (fst (used, paths)) in Hc. rewrite <- Eu in *.
    eapply occurrences_keys. eassumption.
Qed.

Lemma unused_flags_results_value : forall fs self flag_type false_positives,
    In flag_type validate_variables.FLAG_TYPES ->
    value (validate_variables.Validator.unused_flags_results
             fs self flag_type false_positives)
    = inr (unused_flags_defects fs (mod_path self) (staged_files self)
             flag_type false_positives).
Proof.
  intros fs self flag_type false_positives Hin.
  unfold validate_variables.Validator.unused_flags_results.
  erewrite bind_pair_value by (now apply get_all_set_flags_value).
  fold (occurrences fs (mod_path self) (staged_files self) should_skip_file
          (set_flags_in flag_type)).
  destruct (occurrences fs (mod_path self) (staged_files self) should_skip_file
              (set_flags_in flag_type)) as [set paths] eqn:Es.
  erewrite bind_list_value by (now apply get_all_used_flags_value).
  cbv zeta.
  rewrite (results_loop_value _ _
             (fun results c b =>
                validate_variables.Validator.locate_and_append fs self results c b
                  ("set_" ++ flag_type ++ "_flag = " ++ c))
             (fun c b => emitted1 fs (mod_path self) c b
                           ("set_" ++ flag_type ++ "_flag = " ++ c))).
  - unfold unused_flags_defects. rewrite Es. reflexivity.
  - intros. apply locate_and_append_value.
  - intros c Hc. change paths with (snd (set, paths)).
    change set with (fst (set, paths)) in Hc. rewrite <- Es in *.
    eapply occurrences_keys. eassumption.
Qed.

Lemma clear_list_nil_rules : forall l, DataCleaner.clear_list l [] = l.
Proof. reflexivity. Qed.

Lemma cleared_event_targets_results_value : forall fs self,
    value (validate_variables.Validator.cleared_event_targets_results fs self)
    = inr (cleared_event_targets_defects fs (mod_path self) (staged_files self)).
Proof.
  intros fs self.
  unfold validate_variables.Validator.cleared_event_targets_results.
  erewrite bind_pair_value by (apply get_all_cleared_targets_value).
  fold (occurrences fs (mod_path self) (staged_files self) should_skip_file
          cleared_targets_in).
  destruct (occurrences fs (mod_path self) (staged_files self) should_skip_file
              cleared_targets_in) as [cleared paths] eqn:Ecl.
  erewrite bind_list_value by (apply get_all_set_targets_value).
  rewrite (results_loop_value _ _
             (fun results c b =>
                validate_variables.Validator.locate_and_append fs self results c b
                  ("clear_global_event_target = " ++ c))
             (fun c b => emitted1 fs (mod_path self) c b
                           ("clear_global_event_target = " ++ c))).
  - unfold cleared_event_targets_defects. rewrite Ecl. reflexivity.
  - intros. apply locate_and_append_value.
  - intros c Hc. change paths with (snd (cleared, paths)).
    change cleared with (fst (cleared, paths)) in Hc. rewrite <- Ecl in *.
    apply (occurrences_keys _ _ _ _ _ []). now rewrite clear_list_nil_rules.
Qed.

Lemma missing_event_targets_results_value : forall fs self,
    value (validate_variables.Validator.missing_event_targets_results fs self)
    = inr (missing_event_targets_defects fs (mod_path self) (staged_files self)).
Proof.
  intros fs self.
  unfold validate_variables.Validator.missing_event_targets_results. cbv zeta.
  erewrite bind_pair_value by (apply get_all_used_targets_value).
  fold (occurrences fs (mod_path self) (staged_files self) should_skip_file
          used_targets_in).
  destruct (occurrences fs (mod_path self) (staged_files self) should_skip_file
              used_targets_in) as [used paths] eqn:Eu.
  erewrite bind_list_value by (apply get_all_set_targets_value).
  rewrite (results_loop_value _ _
             (fun results c b =>
                validate_variables.Validator.locate_and_append2 fs self results c b
                  ("event_target:" ++ c) ("has_event_target = " ++ c))
             (fun c b => emitted2 fs (mod_path self) c b
                           ("event_target:" ++ c) ("has_event_target = " ++ c))).
  - unfold missing_event_targets_defects. rewrite Eu. reflexivity.
  - intros. apply locate_and_append2_value.
  - intros c Hc. change paths with (snd (used, paths)).
    change used with (fst (used, paths)) in Hc. rewrite <- Eu in *.
    eapply occurrences_keys. eassumption.
Qed.

Lemma unused_event_targets_results_value : forall fs self,
    value (validate_variables.Validator.unused_event_targets_results fs self)
    = inr (unused_event_targets_defects fs (mod_path self) (staged_files self)).
Proof.
  intros fs self.
  unfold validate_variables.Validator.unused_event_targets_results. cbv zeta.
  erewrite bind_pair_value by (apply get_all_set_targets_value).
  fold (occurrences fs (mod_path self) (staged_files self) skip_tag_aliases
          set_targets_in).
  destruct (occurrences fs (mod_path self) (staged_files self) skip_tag_aliases
              set_targets_in) as [set paths] eqn:Es.
  erewrite bind_list_value by (apply get_all_used_targets_value).
  rewrite value_bind, targets_used_in_loc_value.
  rewrite (results_loop_value _ _
             (fun results c b =>
                validate_variables.Validator.locate_and_append2 fs self results c b
                  ("save_event_target_as = " ++ c)
                  ("save_global_event_target_as = " ++ c))
             (fun c b => emitted2 fs (mod_path self) c b
                           ("save_event_target_as = " ++ c)
                           ("save_global_event_target_as = " ++ c))).
  - unfold unused_event_targets_defects. rewrite Es. reflexivity.
  - intros. apply locate_and_append2_value.
  - intros c Hc. apply filter_In in Hc. destruct Hc as [Hc _].
    change paths with (snd (set, paths)).
    change set with (fst (set, paths)) in Hc. rewrite <- Es in *.
    eapply occurrences_keys. eassumption.
Qed.

(** ** The findings of the checks of validate_scripted_localisation.py *)

Lemma scripted_get_full_path_value : forall fs self basename0 item,
    value (validate_scripted_localisation.Validator.get_full_path fs self basename0 item)
    = inr (full_path_of_any_case fs (mod_path self) basename0 item).
Proof.
  intros fs self basename0 item.
  unfold validate_scripted_localisation.Validator.get_full_path, full_path_of_any_case.
  erewrite first_found_value; [reflexivity| |reflexivity].
  intros filename. unfold holds_any_case.
  destruct (String.eqb (basename filename) basename0); [|reflexivity].
  destruct (should_skip_file filename); [reflexivity|].
  rewrite value_bind. simpl.
  destruct (fs_read fs filename) as [content|]; [|reflexivity].
  now destruct (str_in (lower item) (lower content)).
Qed.

Lemma enumerate_index : forall {A} (l : list A) i x,
    In (i, x) (validate_scripted_localisation.enumerate l) -> i < List.length l.
Proof.
  intros A l i x H. unfold validate_scripted_localisation.enumerate in H.
  apply in_combine_l in H. apply in_seq in H. lia.
Qed.

Lemma for_each_value_in : forall {A S} (f : S -> A -> M S) (g : S -> A -> S) l,
    (forall s x, In x l -> value (f s x) = inr (g s x)) ->
    forall s, value (for_each l s f) = inr (fold_left g l s).
Proof.
  intros A S f g l. induction l as [|x l IH]; intros H s; simpl; [reflexivity|].
  rewrite value_bind, H by now left. apply IH. intros; apply H; now right.
Qed.

Lemma item_at_value : forall l i,
    i < List.length l ->
    value (validate_scripted_localisation.item_at l i) = inr (nth i l "").
Proof.
  intros l i Hi. unfold validate_scripted_localisation.item_at.
  destruct (nth_error l i) as [x|] eqn:E.
  - simpl. f_equal. symmetry. now apply nth_error_nth.
  - apply nth_error_None in E. lia.
Qed.

Lemma clear_list_length : forall l R,
    List.length (DataCleaner.clear_list l R) <= List.length l.
Proof. intros. rewrite clear_list_filter. apply filter_length_le. Qed.

Lemma missing_results_value : forall set_order fs self false_positives,
    value (validate_scripted_localisation.Validator.missing_results
             set_order fs self false_positives)
    = inr (missing_scripted_defects set_order fs (mod_path self) (staged_files self)
             false_positives).
Proof.
  intros set_order fs self false_positives.
  unfold validate_scripted_localisation.Validator.missing_results.
  erewrite bind_list_value by (apply get_all_defined_localisations_value).
  cbv zeta.
  erewrite bind_pair_value by (apply get_all_used_localisations_value).
  cbv iota.
  set (defined_locs := fst (scan fs false skip_FR_loc defined_locs_in _ _)).
  destruct (scan_names _ _ _ _ _) as [used paths] eqn:Eu.
  rewrite value_bind.
  erewrite for_each_value_in
    with (g := scripted_step (mod_path self) used (map lower defined_locs) paths
                 (full_path_of_any_case fs (mod_path self))
                 (fun full_path loc => line_of fs full_path loc true)).
  - unfold missing_scripted_defects. fold defined_locs. rewrite Eu. simpl.
    now destruct (fold_left _ _ _).
  - intros [results reported] [i loc] Hin. unfold scripted_step. simpl.
    destruct (negb (mem loc _) && negb (mem loc reported)); [|reflexivity].
    rewrite value_bind, item_at_value.
    + rewrite value_bind, scripted_get_full_path_value.
      destruct (full_path_of_any_case _ _ _ _) as [p|]; [|reflexivity]. simpl.
      destruct (negb (String.eqb p "")); [|reflexivity].
      now rewrite value_bind, find_line_number_value.
    + apply enumerate_index in Hin.
      eapply Nat.lt_le_trans; [exact Hin|].
      eapply Nat.le_trans; [apply clear_list_length|]. now rewrite length_map.
Qed.

Lemma definition_file_eq : forall fs self basename0,
    validate_scripted_localisation.Validator.definition_file fs self basename0
    = definition_file_of fs (mod_path self) basename0.
Proof. reflexivity. Qed.

Lemma unused_results_value : forall set_order fs self false_positives,
    value (validate_scripted_localisation.Validator.unused_results
             set_order fs self false_positives)
    = inr (unused_scripted_defects set_order fs (mod_path self) (staged_files self)
             false_positives).
Proof.
  intros set_order fs self false_positives.
  unfold validate_scripted_localisation.Validator.unused_results.
  erewrite bind_pair_value by (apply get_all_defined_localisations_value).
  destruct (scan fs false skip_FR_loc defined_locs_in _ _) as [defined paths] eqn:Ed.
  cbv zeta.
  erewrite bind_list_value by (apply get_all_used_localisations_value).
  cbv iota.
  set (used_locs := fst (scan_names fs false _ _ _)).
  rewrite value_bind.
  erewrite for_each_value_in
    with (g := scripted_step (mod_path self) defined (map lower used_locs) paths
                 (fun basename0 _ => definition_file_of fs (mod_path self) basename0)
                 (fun full_path loc => line_of fs full_path ("name = " ++ loc) true)).
  - unfold unused_scripted_defects. rewrite Ed. simpl. fold used_locs.
    now destruct (fold_left _ _ _).
  - intros [results reported] [i loc] Hin. unfold scripted_step. simpl.
    destruct (negb (mem loc _) && negb (mem loc reported)); [|reflexivity].
    rewrite value_bind, item_at_value.
    + rewrite definition_file_eq.
      destruct (definition_file_of _ _ _) as [p|]; [|reflexivity]. simpl.
      destruct (negb (String.eqb p "")); [|reflexivity].
      now rewrite value_bind, find_line_number_value.
    + apply enumerate_index in Hin.
      eapply Nat.lt_le_trans; [exact Hin|].
      eapply Nat.le_trans; [apply clear_list_length|]. now rewrite length_map.
Qed.

Lemma scripted_step_listed_once :
  forall mod_path0 originals others paths locate line st il,
    listed_once st ->
    listed_once (scripted_step mod_path0 originals others paths locate line st il).
Proof.
  intros mod_path0 originals others paths locate line [results reported] [i loc]
         [Hnd Hrep].
  unfold scripted_step. simpl.
  destruct (negb (mem loc others)); simpl; [|now split].
  destruct (mem loc reported) eqn:Hm; simpl; [now split|].
  destruct (locate _ loc) as [p|]; simpl; [|now split].
  destruct (negb (String.eqb p "")); [|now split].
  split; simpl.
  - rewrite map_app. simpl. apply NoDup_app; [assumption | repeat constructor; auto |].
    intros a Ha [<-|[]]. apply in_map_iff in Ha. destruct Ha as (d & <- & Hd).
    apply Hrep in Hd. apply mem_spec in Hd. simpl in Hd. congruence.
  - intros d Hd. apply in_app_or in Hd. destruct Hd as [Hd|[<-|[]]].
    + right. now apply Hrep.
    + now left.
Qed.

Lemma fold_scripted_step_listed_once :
  forall mod_path0 originals others paths locate line l st,
    listed_once st ->
    listed_once (fold_left (scripted_step mod_path0 originals others paths locate line)
                   l st).
Proof.
  intros mod_path0 originals others paths locate line l.
  induction l as [|il l IH]; intros st H; [exact H|].
  simpl. apply IH. now apply scripted_step_listed_once.
Qed.

(** What [validate_scripted_localisation.py] does and the checks of
    [validate_variables.py] leave out: no symbol is listed twice. *)
Lemma scripted_checks_list_a_symbol_once :
  forall set_order fs self false_positives,
    (exists results,
        value (validate_scripted_localisation.Validator.missing_results
                 set_order fs self false_positives) = inr results
        /\ NoDup (map d_symbol results))
    /\ (exists results,
           value (validate_scripted_localisation.Validator.unused_results
                    set_order fs self false_positives) = inr results
           /\ NoDup (map d_symbol results)).
Proof.
  intros set_order fs self false_positives. split; eexists.
  - split; [apply missing_results_value|].
    unfold missing_scripted_defects. cbv zeta.
    apply fold_scripted_step_listed_once. split; [constructor | intros d []].
  - split; [apply unused_results_value|].
    unfold unused_scripted_defects. cbv zeta.
    apply fold_scripted_step_listed_once. split; [constructor | intros d []].
Qed.

(** ** The report sink and the count of defects *)

Lemma counts_refl : forall a, counts 0 a a.
Proof. intros a. unfold counts. repeat split; lia. Qed.

Lemma counts_trans : forall n m a b c,
    counts n a b -> counts m b c -> counts (n + m) a c.
Proof.
  unfold counts. intros n m a b c (H1 & H2 & H3 & H4 & H5 & H6)
                        (K1 & K2 & K3 & K4 & K5 & K6).
  repeat split; try congruence. lia.
Qed.

Lemma steps_bind : forall n k a (m : M validator) (f : validator -> M validator),
    steps n a m ->
    (forall b, counts n a b -> steps k b (f b)) ->
    steps (n + k) a (bind m f).
Proof.
  intros n k a m f (b & Hb & Hc) Hf. destruct (Hf b Hc) as (c & Hv & Hcc).
  exists c. split; [now rewrite value_bind, Hb | eapply counts_trans; eassumption].
Qed.

Lemma steps_log : forall self message lv, steps 0 self (log self message lv).
Proof.
  intros. eexists. split; [apply log_value|]. unfold counts. simpl.
  repeat split. lia.
Qed.

Lemma steps_ret : forall self, steps 0 self (ret self).
Proof. intros. exists self. split; [reflexivity | apply counts_refl]. Qed.

Lemma steps_for_each_log :
  forall {A} (l : list A) (msg : validator -> A -> string) (lv : validator -> A -> string)
         self,
    steps 0 self (for_each l self (fun self x => log self (msg self x) (lv self x))).
Proof.
  intros A l msg lv. induction l as [|x l IH]; intros self; [apply steps_ret|].
  simpl. apply (steps_bind 0 0); [apply steps_log | intros; apply IH].
Qed.

Lemma steps_announce : forall self title, steps 0 self (announce self title).
Proof.
  intros. unfold announce.
  apply (steps_bind 0 0); [apply steps_log|]. intros.
  apply (steps_bind 0 0); [apply steps_log|]. intros. apply steps_log.
Qed.

Lemma steps_report : forall self heading notes all_clear results,
    steps (List.length results) self (report self heading notes all_clear results).
Proof.
  intros. unfold report. destruct results as [|r results].
  - simpl. apply steps_log.
  - set (rs := r :: results).
    replace (0 <? List.length rs)%nat with true by reflexivity.
    apply (steps_bind 0 (List.length rs)); [apply steps_log|]. intros b Hb.
    apply (steps_bind 0 (List.length rs)).
    { apply (steps_for_each_log notes
               (fun self n => col self Colors.YELLOW ++ fst n ++ col self Colors.ENDC)
               (fun _ n => snd n)). }
    intros c Hc.
    apply (steps_bind 0 (List.length rs)).
    { apply (steps_for_each_log rs (fun self result => render self result)
               (fun _ _ => "error")). }
    intros d Hd.
    apply (steps_bind 0 (List.length rs)); [apply steps_log|]. intros e He.
    eexists. split; [reflexivity|]. unfold counts. simpl. repeat split; lia.
Qed.

Lemma steps_results :
  forall n a (m : M (list defect)) (f : list defect -> M validator) results,
    value m = inr results -> steps n a (f results) -> steps n a (bind m f).
Proof.
  intros n a m f results Hm (b & Hb & Hc). exists b.
  split; [now rewrite value_bind, Hm | assumption].
Qed.

Lemma steps_validate_cleared_flags : forall fs self flag_type false_positives,
    In flag_type validate_variables.FLAG_TYPES ->
    steps (List.length (cleared_flags_defects fs (mod_path self) (staged_files self)
                          flag_type false_positives))
          self
          (validate_variables.Validator.validate_cleared_flags
             fs self flag_type false_positives).
Proof.
  intros fs self flag_type false_positives Hin.
  unfold validate_variables.Validator.validate_cleared_flags.
  apply (steps_bind 0); [apply steps_announce|]. intros b Hb.
  eapply steps_results; [now apply cleared_flags_results_value|].
  destruct Hb as (-> & -> & _). apply steps_report.
Qed.

Lemma steps_validate_missing_flags : forall fs self flag_type false_positives,
    In flag_type validate_variables.FLAG_TYPES ->
    steps (List.length (missing_flags_defects fs (mod_path self) (staged_files self)
                          flag_type false_positives))
          self
          (validate_variables.Validator.validate_missing_flags
             fs self flag_type false_positives).
Proof.
  intros fs self flag_type false_positives Hin.
  unfold validate_variables.Validator.validate_missing_flags.
  apply (steps_bind 0); [apply steps_announce|]. intros b Hb.
  eapply steps_results; [now apply missing_flags_results_value|].
  destruct Hb as (-> & -> & _). apply steps_report.
Qed.

Lemma steps_validate_unused_flags : forall fs self flag_type false_positives,
    In flag_type validate_variables.FLAG_TYPES ->
    steps (List.length (unused_flags_defects fs (mod_path self) (staged_files self)
                          flag_type false_positives))
          self
          (validate_variables.Validator.validate_unused_flags
             fs self flag_type false_positives).
Proof.
  intros fs self flag_type false_positives Hin.
  unfold validate_variables.Validator.validate_unused_flags.
  apply (steps_bind 0); [apply steps_announce|]. intros b Hb.
  eapply steps_results; [now apply unused_flags_results_value|].
  destruct Hb as (-> & -> & _). apply steps_report.
Qed.

Lemma steps_validate_cleared_event_targets : forall fs self,
    steps (List.length (cleared_event_targets_defects fs (mod_path self)
                          (staged_files self)))
          self (validate_variables.Validator.validate_cleared_event_targets fs self).
Proof.
  intros fs self.
  unfold validate_variables.Validator.validate_cleared_event_targets.
  apply (steps_bind 0); [apply steps_announce|]. intros b Hb.
  eapply steps_results; [apply cleared_event_targets_results_value|].
  destruct Hb as (-> & -> & _). apply steps_report.
Qed.

Lemma steps_validate_missing_event_targets : forall fs self,
    steps (List.length (missing_event_targets_defects fs (mod_path self)
                          (staged_files self)))
          self (validate_variables.Validator.validate_missing_event_targets fs self).
Proof.
  intros fs self.
  unfold validate_variables.Validator.validate_missing_event_targets.
  apply (steps_bind 0); [apply steps_announce|]. intros b Hb.
  eapply steps_results; [apply missing_event_targets_results_value|].
  destruct Hb as (-> & -> & _). apply steps_report.
Qed.

Lemma steps_validate_unused_event_targets : forall fs self,
    steps (List.length (unused_event_targets_defects fs (mod_path self)
                          (staged_files self)))
          self (validate_variables.Validator.validate_unused_event_targets fs self).
Proof.
  intros fs self.
  unfold validate_variables.Validator.validate_unused_event_targets.
  apply (steps_bind 0); [apply steps_announce|]. intros b Hb.
  eapply steps_results; [apply unused_event_targets_results_value|].
  destruct Hb as (-> & -> & _). apply steps_report.
Qed.

Lemma steps_validate_missing_scripted :
  forall set_order fs self false_positives,
    steps (List.length (missing_scripted_defects set_order fs (mod_path self)
                          (staged_files self) false_positives))
          self
          (validate_scripted_localisation.Validator.validate_missing_scripted_localisations
             set_order fs self false_positives).
Proof.
  intros set_order fs self false_positives.
  unfold validate_scripted_localisation.Validator.validate_missing_scripted_localisations.
  apply (steps_bind 0); [apply steps_announce|]. intros b Hb.
  eapply steps_results; [apply missing_results_value|].
  destruct Hb as (-> & -> & _). apply steps_report.
Qed.

Lemma steps_validate_unused_scripted :
  forall set_order fs self false_positives,
    steps (List.length (unused_scripted_defects set_order fs (mod_path self)
                          (staged_files self) false_positives))
          self
          (validate_scripted_localisation.Validator.validate_unused_scripted_localisations
             set_order fs self false_positives).
Proof.
  intros set_order fs self false_positives.
  unfold validate_scripted_localisation.Validator.validate_unused_scripted_localisations.
  apply (steps_bind 0); [apply steps_announce|]. intros b Hb.
  eapply steps_results; [apply unused_results_value|].
  destruct Hb as (-> & -> & _). apply steps_report.
Qed.

Lemma steps_banner_open : forall self title, steps 0 self (banner_open self title).
Proof.
  intros. unfold banner_open.
  apply (steps_bind 0 0); [apply steps_log|]. intros.
  apply (steps_bind 0 0); [apply steps_log|]. intros.
  apply (steps_bind 0 0); [apply steps_log|]. intros.
  apply (steps_bind 0 0); [apply steps_log|]. intros.
  apply (steps_bind 0 0).
  { destruct (staged_only _); [apply steps_log | apply steps_ret]. }
  intros. destruct (output_file _) as [path|]; [|apply steps_ret].
  destruct (negb (String.eqb path "")); [apply steps_log | apply steps_ret].
Qed.

Lemma steps_banner_close : forall self, steps 0 self (banner_close self).
Proof.
  intros. unfold banner_close.
  apply (steps_bind 0 0); [apply steps_log|]. intros.
  apply (steps_bind 0 0).
  { destruct (errors_found _ =? 0)%nat; apply steps_log. }
  intros. apply steps_log.
Qed.

Lemma save_output_value : forall fs self, value (save_output fs self) = inr tt.
Proof.
  intros. unfold save_output. destruct (output_file self) as [path|]; [|reflexivity].
  destruct (negb (String.eqb path "") && (0 <? List.length (output_lines self))%nat);
    [|reflexivity].
  now destruct (fs_write_err fs path).
Qed.

Lemma ends_bind_more : forall n k a (m : M validator) (f : validator -> M nat),
    steps n a m ->
    (forall b, counts n a b -> value (f b) = inr (errors_found b + k)) ->
    value (bind m f) = inr (errors_found a + (n + k)).
Proof.
  intros n k a m f (b & Hb & Hc) Hf. rewrite value_bind, Hb, (Hf b Hc).
  destruct Hc as (_ & _ & _ & _ & _ & ->). f_equal. lia.
Qed.

(** Bring a fact about a later validator back to the tree of an earlier
    one. *)
Ltac retree H :=
  repeat match goal with
         | Hc : counts _ ?a ?b |- _ =>
             lazymatch type of H with
             | context [mod_path b] => rewrite (proj1 Hc) in H
             | context [staged_files b] => rewrite (proj1 (proj2 Hc)) in H
             end
         end.

Ltac step_by L :=
  eapply steps_bind;
  [ let H := fresh "Hstep" in pose proof L as H; retree H; exact H
  | let b := fresh "b" in let Hb := fresh "Hb" in intros b Hb ].

Ltac last_step_by L :=
  let H := fresh "Hstep" in pose proof L as H; retree H; exact H.

Lemma steps_flag_row : forall fs self flag_type fp_cleared fp_missing fp_unused,
    In flag_type validate_variables.FLAG_TYPES ->
    steps (List.length
             (cleared_flags_defects fs (mod_path self) (staged_files self)
                flag_type fp_cleared
              ++ missing_flags_defects fs (mod_path self) (staged_files self)
                   flag_type fp_missing
              ++ unused_flags_defects fs (mod_path self) (staged_files self)
                   flag_type fp_unused)%list)
          self
          (self <- validate_variables.Validator.validate_cleared_flags
                     fs self flag_type fp_cleared ;;
           self <- validate_variables.Validator.validate_missing_flags
                     fs self flag_type fp_missing ;;
           validate_variables.Validator.validate_unused_flags
             fs self flag_type fp_unused).
Proof.
  intros fs self flag_type fp_cleared fp_missing fp_unused Hin.
  rewrite !length_app.
  step_by (steps_validate_cleared_flags fs self flag_type fp_cleared Hin).
  step_by (steps_validate_missing_flags fs b flag_type fp_missing Hin).
  last_step_by (steps_validate_unused_flags fs b0 flag_type fp_unused Hin).
Qed.

Lemma in_FLAG_TYPES :
  In "country" validate_variables.FLAG_TYPES
  /\ In "global" validate_variables.FLAG_TYPES
  /\ In "state" validate_variables.FLAG_TYPES.
Proof. repeat split; apply mem_spec; reflexivity. Qed.

Lemma steps_flag_runs : forall fs self,
    steps (List.length
             (flat_map
                (fun row =>
                   match row with
                   | (flag_type, fp_cleared, fp_missing, fp_unused) =>
                       cleared_flags_defects fs (mod_path self) (staged_files self)
                         flag_type fp_cleared
                       ++ missing_flags_defects fs (mod_path self) (staged_files self)
                            flag_type fp_missing
                       ++ unused_flags_defects fs (mod_path self) (staged_files self)
                            flag_type fp_unused
                   end)
                validate_variables.Validator.FLAG_RUNS)%list)
          self
          (for_each validate_variables.Validator.FLAG_RUNS self
             (fun self row =>
                match row with
                | (flag_type, fp_cleared, fp_missing, fp_unused) =>
                    self <- validate_variables.Validator.validate_cleared_flags
                              fs self flag_type fp_cleared ;;
                    self <- validate_variables.Validator.validate_missing_flags
                              fs self flag_type fp_missing ;;
                    validate_variables.Validator.validate_unused_flags
                      fs self flag_type fp_unused
                end)).
Proof.
  intros fs self. destruct in_FLAG_TYPES as (Hc & Hg & Hs).
  unfold validate_variables.Validator.FLAG_RUNS.
  cbn [for_each flat_map]. rewrite app_nil_r.
  rewrite (length_app (_ ++ _ ++ _)%list), (length_app (_ ++ _ ++ _)%list).
  rewrite <- (Nat.add_0_r (List.length (cleared_flags_defects _ _ _ "state" _ ++ _)%list)).
  step_by (steps_flag_row fs self "country"
             validate_variables.Validator.FALSE_POSITIVES_COUNTRY
             validate_variables.Validator.FALSE_POSITIVES_COUNTRY
             validate_variables.Validator.FALSE_POSITIVES_COUNTRY_UNUSED Hc).
  step_by (steps_flag_row fs b "global"
             validate_variables.Validator.FALSE_POSITIVES_GENERIC
             validate_variables.Validator.FALSE_POSITIVES_GENERIC
             validate_variables.Validator.FALSE_POSITIVES_GLOBAL Hg).
  step_by (steps_flag_row fs b0 "state"
             validate_variables.Validator.FALSE_POSITIVES_GENERIC
             validate_variables.Validator.FALSE_POSITIVES_GENERIC
             validate_variables.Validator.FALSE_POSITIVES_GENERIC Hs).
  apply steps_ret.
Qed.

Lemma tail_of_run_value : forall fs self,
    value (self <- banner_close self ;;
           save_output fs self ;;; ret (errors_found self))
    = inr (errors_found self + (0 + 0)).
Proof.
  intros fs self. eapply ends_bind_more; [apply steps_banner_close|].
  intros b Hb. rewrite value_bind, save_output_value. simpl. f_equal. lia.
Qed.

Lemma run_all_variables_value : forall fs self,
    value (validate_variables.Validator.run_all_validations fs self)
    = inr (errors_found self
           + List.length (variables_defects fs (mod_path self) (staged_files self))).
Proof.
  intros fs self. unfold validate_variables.Validator.run_all_validations.
  eapply eq_trans.
  { eapply ends_bind_more; [apply steps_banner_open|]. intros b Hb.
    eapply ends_bind_more.
    { let H := fresh in pose proof (steps_flag_runs fs b) as H; retree H; exact H. }
    intros b1 Hb1. eapply ends_bind_more.
    { let H := fresh in
      pose proof (steps_validate_cleared_event_targets fs b1) as H; retree H; exact H. }
    intros b2 Hb2. eapply ends_bind_more.
    { let H := fresh in
      pose proof (steps_validate_missing_event_targets fs b2) as H; retree H; exact H. }
    intros b3 Hb3. eapply ends_bind_more.
    { let H := fresh in
      pose proof (steps_validate_unused_event_targets fs b3) as H; retree H; exact H. }
    intros b4 Hb4. apply tail_of_run_value. }
  unfold variables_defects. rewrite !length_app. f_equal. lia.
Qed.

Lemma run_all_scripted_value : forall set_order fs self,
    value (validate_scripted_localisation.Validator.run_all_validations set_order fs self)
    = inr (errors_found self
           + List.length (scripted_defects set_order fs (mod_path self)
                            (staged_files self))).
Proof.
  intros set_order fs self.
  unfold validate_scripted_localisation.Validator.run_all_validations.
  eapply eq_trans.
  { eapply ends_bind_more; [apply steps_banner_open|]. intros b Hb.
    eapply ends_bind_more.
    { let H := fresh in
      pose proof (steps_validate_missing_scripted set_order fs b
                    validate_scripted_localisation.Validator.FALSE_POSITIVES) as H;
      retree H; exact H. }
    intros b1 Hb1. eapply ends_bind_more.
    { let H := fresh in
      pose proof (steps_validate_unused_scripted set_order fs b1
                    validate_scripted_localisation.Validator.FALSE_POSITIVES) as H;
      retree H; exact H. }
    intros b2 Hb2. apply tail_of_run_value. }
  unfold scripted_defects. rewrite !length_app. f_equal. lia.
Qed.

(** ** The exit status *)

Lemma run_of_value :
  forall get_staged_files run_all_validations
         (total : string -> option (list string) -> nat) fs args,
    (forall self, value (run_all_validations fs self)
                  = inr (errors_found self
                         + total (mod_path self) (staged_files self))) ->
    value (run_of get_staged_files run_all_validations fs args)
    = match staged_answer get_staged_files fs args with
      | inl e => inl e
      | inr staged => inr (total (root_of args) staged)
      end.
Proof.
  intros get_staged_files run_all_validations total fs args Hrun.
  unfold run_of, staged_answer, Validator_init, root_of. cbv zeta.
  rewrite !value_bind.
  destruct (arg_staged args).
  - destruct (value (get_staged_files fs _)) as [e|staged]; [reflexivity|].
    rewrite value_bind.
    match goal with
    | |- context [value (if ?c then emit ?w else ret tt)] =>
        replace (value (if c then emit w else ret tt))
          with (@inr exn unit tt) by (now destruct c)
    end.
    rewrite value_ret, Hrun. reflexivity.
  - rewrite value_ret, value_bind. cbn [andb]. rewrite value_ret, value_ret, Hrun.
    reflexivity.
Qed.

Lemma staged_answer_git : forall exts fs args,
    git_missing fs args = false ->
    staged_answer (get_staged_files_ext exts) fs args
    = inr (staged_of (get_staged_files_ext exts) fs args).
Proof.
  intros exts fs args H. unfold staged_answer, staged_of, git_missing in *.
  destruct (arg_staged args); [|reflexivity].
  unfold get_staged_files_ext. destruct (fs_git fs); [| reflexivity | discriminate].
  match goal with
  | |- context [match ?l with [] => ret None | _ :: _ => _ end] => now destruct l
  end.
Qed.

Lemma run_main_status :
  forall get_staged_files run_all_validations total fs args,
    value (run_of get_staged_files run_all_validations fs args) = inr total ->
    fs_exists fs (arg_path args) = true ->
    fs_is_dir fs (arg_path args) = true ->
    fst (run_main get_staged_files run_all_validations fs args)
    = if arg_strict args && (0 <? total)%nat then 1 else 0.
Proof.
  intros get_staged_files run_all_validations total fs args Hv Hex Hdir.
  unfold run_main. rewrite Hex, Hdir. simpl negb. cbv iota.
  fold (run_of get_staged_files run_all_validations fs args).
  destruct (run_of get_staged_files run_all_validations fs args) as [[e|n] t];
    simpl in Hv; [discriminate|].
  injection Hv as ->. reflexivity.
Qed.

Lemma run_main_uncaught :
  forall get_staged_files run_all_validations e fs args,
    value (run_of get_staged_files run_all_validations fs args) = inl e ->
    fs_exists fs (arg_path args) = true ->
    fs_is_dir fs (arg_path args) = true ->
    fst (run_main get_staged_files run_all_validations fs args) = 1.
Proof.
  intros get_staged_files run_all_validations e fs args Hv Hex Hdir.
  unfold run_main. rewrite Hex, Hdir. simpl negb. cbv iota.
  fold (run_of get_staged_files run_all_validations fs args).
  destruct (run_of get_staged_files run_all_validations fs args) as [[e'|n] t];
    simpl in Hv; [reflexivity | discriminate].
Qed.

(** C8 at a failing input.  The path is a directory, [--strict] is not
    given and the tree has no defect, yet the process of either script
    ends with status 1.  The run was started with [--staged] on a
    machine where git cannot be started: [subprocess.run] raises
    [FileNotFoundError], [get_staged_files] catches
    [CalledProcessError] only, and nothing else catches it.  Where git
    starts and fails, which [get_staged_files] does catch, the same run
    over the same files goes on without staged files and ends with
    status 0. *)
Theorem staged_run_without_git_exits_with_1 :
  fs_exists tree_without_git (arg_path staged_run) = true
  /\ fs_is_dir tree_without_git (arg_path staged_run) = true
  /\ arg_strict staged_run = false
  /\ variables_total tree_without_git staged_run = 0
  /\ scripted_total first_occurrences tree_without_git staged_run = 0
  /\ validate_variables.main tree_without_git staged_run = (1, [])
  /\ validate_scripted_localisation.main first_occurrences
       tree_without_git staged_run = (1, [])
  /\ fs_git (tree (fs_files tree_without_git)) = GitFails
  /\ fst (validate_variables.main (tree (fs_files tree_without_git)) staged_run) = 0
  /\ fst (validate_scripted_localisation.main first_occurrences
            (tree (fs_files tree_without_git)) staged_run) = 0.
Proof. vm_compute. repeat split. Qed.

(** X21. The exit status of a run over a directory.  When the run gets
    as far as its checks, the process of either script exits with
    status 1 exactly when [--strict] was given and the checks found at
    least one defect in total, and with status 0 otherwise: without
    [--strict] whatever the count, and with [--strict] when the count is
    zero.  The total is what [run_all_validations] returns, the sum of
    the lengths of the [results] of its checks; no check raises.  The
    one run that does not get as far is a run with [--staged] where git
    cannot be started: the exception [subprocess.run] raises is caught
    nowhere, no check runs, nothing is logged, and the process ends with
    status 1 whatever [--strict] and the tree are. *)
Theorem exit_status_follows_strict_and_defects :
  forall (set_order : list string -> list string) (fs : filesystem) (args : cli_args),
    fs_exists fs (arg_path args) = true ->
    fs_is_dir fs (arg_path args) = true ->
    (git_missing fs args = false ->
     value (run_of validate_variables.get_staged_files
              validate_variables.Validator.run_all_validations fs args)
     = inr (variables_total fs args)
     /\ value (run_of validate_scripted_localisation.get_staged_files
                 (validate_scripted_localisation.Validator.run_all_validations
                    set_order)
                 fs args)
        = inr (scripted_total set_order fs args)
     /\ (fst (validate_variables.main fs args) = 1
         <-> arg_strict args = true /\ 1 <= variables_total fs args)
     /\ (fst (validate_variables.main fs args) = 0
         <-> arg_strict args = false \/ variables_total fs args = 0)
     /\ (fst (validate_scripted_localisation.main set_order fs args) = 1
         <-> arg_strict args = true /\ 1 <= scripted_total set_order fs args)
     /\ (fst (validate_scripted_localisation.main set_order fs args) = 0
         <-> arg_strict args = false \/ scripted_total set_order fs args = 0))
    /\ (git_missing fs args = true ->
        exists ex,
          fs_git fs = GitAbsent ex
          /\ run_of validate_variables.get_staged_files
               validate_variables.Validator.run_all_validations fs args
             = (inl (OSError ex), [])
          /\ run_of validate_scripted_localisation.get_staged_files
               (validate_scripted_localisation.Validator.run_all_validations
                  set_order)
               fs args
             = (inl (OSError ex), [])
          /\ validate_variables.main fs args = (1, [])
          /\ validate_scripted_localisation.main set_order fs args = (1, [])).
Proof.
  intros set_order fs args Hex Hdir.
  assert (Rv := run_of_value validate_variables.get_staged_files
                  validate_variables.Validator.run_all_validations
                  (fun mp st => List.length (variables_defects fs mp st))
                  fs args (run_all_variables_value fs)).
  assert (Rs := run_of_value validate_scripted_localisation.get_staged_files
                  (validate_scripted_localisation.Validator.run_all_validations set_order)
                  (fun mp st => List.length (scripted_defects set_order fs mp st))
                  fs args (run_all_scripted_value set_order fs)).
  cbv beta in Rv, Rs. split.
  - intros Hgit.
    unfold validate_variables.get_staged_files in Rv at 2.
    unfold validate_scripted_localisation.get_staged_files in Rs at 2.
    rewrite (staged_answer_git _ fs args Hgit) in Rv.
    rewrite (staged_answer_git _ fs args Hgit) in Rs.
    fold validate_variables.get_staged_files in Rv.
    fold validate_scripted_localisation.get_staged_files in Rs.
    fold (variables_total fs args) in Rv.
    fold (scripted_total set_order fs args) in Rs.
    assert (Hv := run_main_status _ _ _ fs args Rv Hex Hdir).
    assert (Hs := run_main_status _ _ _ fs args Rs Hex Hdir).
    split; [exact Rv|]. split; [exact Rs|].
    unfold validate_variables.main, validate_scripted_localisation.main.
    rewrite Hv, Hs.
    destruct (arg_strict args); simpl;
      repeat match goal with
             | |- context [(0 <? ?n)%nat] => destruct (Nat.ltb_spec 0 n)
             end;
      repeat split; intros; try discriminate; try lia; try tauto;
      repeat match goal with
             | H : _ /\ _ |- _ => destruct H
             | H : _ \/ _ |- _ => destruct H
             end; try discriminate; try lia; auto.
  - intros Hgit. clear Rv Rs. unfold git_missing in Hgit.
    apply andb_true_iff in Hgit. destruct Hgit as [Hstaged Hgit].
    destruct (fs_git fs) as [names| |ex] eqn:Egit; try discriminate.
    exists ex. split; [reflexivity|].
    unfold validate_variables.main, validate_scripted_localisation.main, run_main.
    rewrite Hex, Hdir. cbn [negb].
    unfold run_of, Validator_init, validate_variables.get_staged_files,
      validate_scripted_localisation.get_staged_files, get_staged_files_ext.
    cbv zeta. rewrite Hstaged, Egit. repeat split.
Qed.

Lemma exit_status_of_a_strict_run :
  (fst (validate_variables.main tree_with_flag_tested_twice strict_run) = 1
   /\ fst (validate_scripted_localisation.main first_occurrences
             tree_with_flag_tested_twice strict_run) = 0)
  /\ fst (validate_variables.main tree_without_git staged_run) = 1.
Proof.
  split.
  - destruct (exit_status_follows_strict_and_defects first_occurrences
                tree_with_flag_tested_twice strict_run eq_refl eq_refl)
      as (H & _).
    destruct (H eq_refl) as (_ & _ & H1 & _ & _ & H0).
    split.
    + apply H1. split; [reflexivity | vm_compute; lia].
    + apply H0. right. vm_compute. reflexivity.
  - destruct (exit_status_follows_strict_and_defects first_occurrences
                tree_without_git staged_run eq_refl eq_refl)
      as (_ & H).
    destruct (H eq_refl) as (ex & _ & _ & _ & Hm & _). now rewrite Hm.
Defined.

(** ** Which surviving symbols are reported *)

(** C2, as stated, fails: [ghost] is used and never set, it passes the
    false-positive filter, and the probe [has_country_flag = ghost] is
    in no file, so [get_full_path] returns [None] and the check drops
    the symbol: nothing is reported. *)
Lemma unlocated_symbol_is_dropped :
  symbols_of (validate_variables.Variables.get_all_used_flags
                tree_with_braced_test "/mod/" false "country" false None)
  = ["{"; "ghost"]
  /\ DataCleaner.clear_list ["{"; "ghost"]
       validate_variables.Validator.FALSE_POSITIVES_COUNTRY = ["ghost"]
  /\ symbols_of (validate_variables.Variables.get_all_set_flags
                   tree_with_braced_test "/mod/" false "country" false None) = []
  /\ value (validate_variables.Validator.get_full_path
              tree_with_braced_test walker "a.txt" "has_country_flag = ghost")
     = inr None
  /\ value (validate_variables.Validator.missing_flags_results
              tree_with_braced_test walker "country"
              validate_variables.Validator.FALSE_POSITIVES_COUNTRY)
     = inr [].
Proof. vm_compute. repeat split. Qed.

Lemma truthy_str_some : forall p, truthy_str (Some p) = true <-> p <> "".
Proof.
  intros p. simpl. destruct (String.eqb_spec p ""); simpl; split;
    congruence || auto.
Qed.

Lemma defects_for_located1 : forall fs mod_path0 keep paths probe cands,
    reports_the_located
      (defects_for keep paths
         (fun c b => emitted1 fs mod_path0 c b (probe c)) cands)
      (filter keep cands)
      (located1 fs mod_path0 paths probe)
      (finding1 fs mod_path0 probe).
Proof.
  intros fs mod_path0 keep paths probe cands d. unfold defects_for.
  rewrite in_flat_map. split.
  - intros (c & Hc & Hd). destruct (keep c) eqn:Hk; [|contradiction].
    destruct (dict_get c paths) as [b|] eqn:Hb; [|contradiction].
    unfold emitted1 in Hd.
    destruct (full_path_of fs mod_path0 b (probe c)) as [p|] eqn:Hp; [|contradiction].
    destruct (truthy_str (Some p)) eqn:Ht; [|contradiction].
    destruct Hd as [<-|[]]. exists c, p. repeat split.
    + apply filter_In. now split.
    + unfold located1. now rewrite Hb.
    + now apply truthy_str_some.
  - intros (c & p & Hc & Hl & Hp & ->). apply filter_In in Hc. destruct Hc as [Hc Hk].
    exists c. split; [assumption|]. rewrite Hk. unfold located1 in Hl.
    destruct (dict_get c paths) as [b|]; [|discriminate].
    unfold emitted1. rewrite Hl.
    apply truthy_str_some in Hp. rewrite Hp. now left.
Qed.

Lemma defects_for_located2 : forall fs mod_path0 keep paths probe1 probe2 cands,
    reports_the_located
      (defects_for keep paths
         (fun c b => emitted2 fs mod_path0 c b (probe1 c) (probe2 c)) cands)
      (filter keep cands)
      (located2 fs mod_path0 paths probe1 probe2)
      (finding2 fs mod_path0 probe1 probe2).
Proof.
  intros fs mod_path0 keep paths probe1 probe2 cands d. unfold defects_for.
  rewrite in_flat_map. split.
  - intros (c & Hc & Hd). destruct (keep c) eqn:Hk; [|contradiction].
    destruct (dict_get c paths) as [b|] eqn:Hb; [|contradiction].
    unfold emitted2 in Hd. cbv zeta in Hd.
    match type of Hd with
    | In _ (if truthy_str ?fp then _ else _) => destruct fp as [p|] eqn:Hp
    end; [|contradiction].
    destruct (truthy_str (Some p)) eqn:Ht; [|contradiction].
    destruct Hd as [<-|[]]. exists c, p. repeat split.
    + apply filter_In. now split.
    + unfold located2. now rewrite Hb.
    + now apply truthy_str_some.
  - intros (c & p & Hc & Hl & Hp & ->). apply filter_In in Hc. destruct Hc as [Hc Hk].
    exists c. split; [assumption|]. rewrite Hk. unfold located2 in Hl.
    destruct (dict_get c paths) as [b|]; [|discriminate].
    unfold emitted2. cbv zeta in *. rewrite Hl.
    apply truthy_str_some in Hp. rewrite Hp. now left.
Qed.

Section ScriptedLoop.

Variables (mod_path0 : string) (originals others : list string)
          (paths : dict string) (locate : string -> string -> option string)
          (line : string -> string -> nat).

Let step := scripted_step mod_path0 originals others paths locate line.
Let finding (loc p : string) : defect :=
  {| d_symbol := loc; d_file := relpath p mod_path0; d_line := line p loc |}.

Lemma scripted_step_cases : forall st i loc,
    (step st (i, loc) = st
     /\ (located_at originals others paths locate i loc = None
         \/ (exists p, located_at originals others paths locate i loc = Some p
                       /\ p = "")
         \/ In loc (snd st)))
    \/ (exists p, located_at originals others paths locate i loc = Some p
                  /\ p <> "" /\ ~ In loc (snd st)
                  /\ step st (i, loc)
                     = ((fst st ++ [finding loc p])%list, loc :: snd st)).
Proof.
  intros [results reported] i loc. unfold step, scripted_step, located_at. simpl.
  destruct (mem loc others); simpl; [left; split; [reflexivity | now left]|].
  destruct (mem loc reported) eqn:Hm; simpl.
  { left. split; [reflexivity|]. right. right. now apply mem_spec. }
  destruct (locate _ loc) as [p|]; simpl; [|left; split; [reflexivity | now left]].
  destruct (String.eqb_spec p "") as [->|Hp]; simpl.
  - left. split; [reflexivity|]. right. left. now exists "".
  - right. exists p. repeat split; [assumption|].
    intros H. apply mem_spec in H. congruence.
Qed.

Lemma scripted_fold_sound : forall l st d,
    In d (fst (fold_left step l st)) ->
    In d (fst st)
    \/ exists i loc p, In (i, loc) l
                       /\ located_at originals others paths locate i loc = Some p
                       /\ p <> "" /\ d = finding loc p.
Proof.
  induction l as [|[i loc] l IH]; intros st d Hd; [now left|].
  simpl in Hd. apply IH in Hd. destruct Hd as [Hd|(j & x & p & Hin & Hl & Hp & ->)].
  - destruct (scripted_step_cases st i loc) as [[E _]|(p & Hl & Hp & _ & E)];
      rewrite E in Hd; [now left|].
    simpl in Hd. apply in_app_or in Hd. destruct Hd as [Hd|[<-|[]]]; [now left|].
    right. exists i, loc, p. repeat split; auto. now left.
  - right. exists j, x, p. repeat split; auto. now right.
Qed.

Lemma scripted_fold_grows : forall l st x,
    In x (snd st) -> In x (snd (fold_left step l st)).
Proof.
  induction l as [|[i loc] l IH]; intros st x Hx; [exact Hx|].
  simpl. apply IH.
  destruct (scripted_step_cases st i loc) as [[E _]|(p & _ & _ & _ & E)];
    rewrite E; [assumption | now right].
Qed.

Lemma scripted_fold_complete : forall l st i loc p,
    In (i, loc) l ->
    located_at originals others paths locate i loc = Some p -> p <> "" ->
    In loc (snd (fold_left step l st)).
Proof.
  induction l as [|[j x] l IH]; intros st i loc p Hin Hl Hp; [contradiction|].
  simpl. destruct Hin as [Heq|Hin]; [|eapply IH; eassumption].
  injection Heq as -> ->. apply scripted_fold_grows.
  destruct (scripted_step_cases st i loc)
    as [[E [Hn|[(q & Hq & ->)|Hr]]]|(q & _ & _ & _ & E)]; rewrite E.
  - congruence.
  - congruence.
  - assumption.
  - now left.
Qed.

Lemma scripted_fold_reported : forall l st x,
    In x (snd (fold_left step l st)) ->
    In x (snd st) \/ In x (map d_symbol (fst (fold_left step l st))).
Proof.
  induction l as [|[i loc] l IH]; intros st x Hx; [now left|].
  simpl in *. apply IH in Hx. destruct Hx as [Hx|Hx]; [|now right].
  destruct (scripted_step_cases st i loc) as [[E _]|(p & _ & _ & _ & E)];
    rewrite E in Hx; [now left|].
  destruct Hx as [->|Hx]; [|now left].
  right. apply in_map_iff.
  assert (Hin : In (finding x p) (fst (step st (i, x)))).
  { rewrite E. simpl. apply in_or_app. right. now left. }
  exists (finding x p). split; [reflexivity|].
  clear -Hin. revert Hin. generalize (step st (i, x)). generalize (finding x p).
  induction l as [|[j y] l IHl]; intros d st' Hd; [exact Hd|].
  simpl. apply IHl.
  destruct (scripted_step_cases st' j y) as [[E _]|(q & _ & _ & _ & E)];
    rewrite E; [assumption|]. simpl. apply in_or_app. now left.
Qed.

Lemma scripted_fold_reports : forall l,
    reports_each_located_once (fst (fold_left step l ([], []))) l
      (located_at originals others paths locate) finding.
Proof.
  intros l. split; [|split].
  - apply fold_scripted_step_listed_once. split; [constructor | intros d []].
  - intros d Hd. apply scripted_fold_sound in Hd. destruct Hd as [[]|Hd]. exact Hd.
  - intros i loc p Hin Hl Hp.
    assert (H := scripted_fold_complete l ([], []) i loc p Hin Hl Hp).
    apply scripted_fold_reported in H. destruct H as [[]|H]. exact H.
Qed.

End ScriptedLoop.

(** C2, amended. In every check, a symbol that survives the set
    difference and the false-positive filter is reported exactly when
    the Locator finds its owning file; its line number is the first line
    that holds the probe, and 0 when no line does.  A symbol whose owning
    file the Locator does not find is left out of the report.  (The two
    scripted-localisation checks report a located symbol once.) *)
Theorem located_symbols_are_reported :
  forall (set_order : list string -> list string) (fs : filesystem) (self : validator),
    let mp := mod_path self in
    let st := staged_files self in
    let set_targets := occurrences fs mp st skip_tag_aliases set_targets_in in
    let used_targets := occurrences fs mp st should_skip_file used_targets_in in
    let cleared_targets := occurrences fs mp st should_skip_file cleared_targets_in in
    Forall
      (fun flag_type =>
         forall false_positives,
           let cleared := occurrences fs mp st should_skip_file
                            (cleared_flags_in flag_type) in
           let used := occurrences fs mp st should_skip_file
                         (used_flags_in flag_type) in
           let set := occurrences fs mp st should_skip_file
                        (set_flags_in flag_type) in
           (exists results,
               value (validate_variables.Validator.cleared_flags_results
                        fs self flag_type false_positives) = inr results
               /\ reports_the_located results
                    (filter (fun flag => negb (mem flag (fst set)))
                       (DataCleaner.clear_list (fst cleared) false_positives))
                    (located1 fs mp (snd cleared)
                       (fun flag => "clr_" ++ flag_type ++ "_flag = " ++ flag))
                    (finding1 fs mp
                       (fun flag => "clr_" ++ flag_type ++ "_flag = " ++ flag)))
           /\ (exists results,
                  value (validate_variables.Validator.missing_flags_results
                           fs self flag_type false_positives) = inr results
                  /\ reports_the_located results
                       (filter (fun flag => negb (mem flag (fst set)))
                          (DataCleaner.clear_list (fst used) false_positives))
                       (located1 fs mp (snd used)
                          (fun flag => "has_" ++ flag_type ++ "_flag = " ++ flag))
                       (finding1 fs mp
                          (fun flag => "has_" ++ flag_type ++ "_flag = " ++ flag)))
           /\ (exists results,
                  value (validate_variables.Validator.unused_flags_results
                           fs self flag_type false_positives) = inr results
                  /\ reports_the_located results
                       (filter (fun flag => negb (mem flag (fst used)))
                          (DataCleaner.clear_list (fst set) false_positives))
                       (located1 fs mp (snd set)
                          (fun flag => "set_" ++ flag_type ++ "_flag = " ++ flag))
                       (finding1 fs mp
                          (fun flag => "set_" ++ flag_type ++ "_flag = " ++ flag))))
      validate_variables.FLAG_TYPES
    /\ (exists results,
           value (validate_variables.Validator.cleared_event_targets_results fs self)
           = inr results
           /\ reports_the_located results
                (filter (fun target => negb (mem target (fst set_targets)))
                   (fst cleared_targets))
                (located1 fs mp (snd cleared_targets)
                   (fun target => "clear_global_event_target = " ++ target))
                (finding1 fs mp
                   (fun target => "clear_global_event_target = " ++ target)))
    /\ (exists results,
           value (validate_variables.Validator.missing_event_targets_results fs self)
           = inr results
           /\ reports_the_located results
                (filter (fun target => negb (mem target (fst set_targets)))
                   (DataCleaner.clear_list (fst used_targets) ["."]))
                (located2 fs mp (snd used_targets)
                   (fun target => "event_target:" ++ target)
                   (fun target => "has_event_target = " ++ target))
                (finding2 fs mp
                   (fun target => "event_target:" ++ target)
                   (fun target => "has_event_target = " ++ target)))
    /\ (exists results,
           let potential_results :=
             filter (fun target => negb (mem target (fst used_targets)))
               (DataCleaner.clear_list (fst set_targets)
                  ["wca_usa_floyd_olson"; "wca_usa_al_smith"; "target_value"]) in
           value (validate_variables.Validator.unused_event_targets_results fs self)
           = inr results
           /\ reports_the_located results
                (filter
                   (fun target =>
                      negb (mem target
                              (named_in_loc fs (yml_files_of fs mp st) potential_results)))
                   potential_results)
                (located2 fs mp (snd set_targets)
                   (fun target => "save_event_target_as = " ++ target)
                   (fun target => "save_global_event_target_as = " ++ target))
                (finding2 fs mp
                   (fun target => "save_event_target_as = " ++ target)
                   (fun target => "save_global_event_target_as = " ++ target)))
    /\ (forall false_positives,
           let defined := defined_occurrences fs mp st in
           let used := used_occurrences set_order fs mp st in
           (exists results,
               value (validate_scripted_localisation.Validator.missing_results
                        set_order fs self false_positives) = inr results
               /\ reports_each_located_once results
                    (validate_scripted_localisation.enumerate
                       (DataCleaner.clear_list (map lower (fst used)) false_positives))
                    (located_at (fst used) (map lower (fst defined)) (snd used)
                       (full_path_of_any_case fs mp))
                    (fun loc p =>
                       {| d_symbol := loc; d_file := relpath p mp;
                          d_line := line_of fs p loc true |}))
           /\ (exists results,
                  value (validate_scripted_localisation.Validator.unused_results
                           set_order fs self false_positives) = inr results
                  /\ reports_each_located_once results
                       (validate_scripted_localisation.enumerate
                          (DataCleaner.clear_list (map lower (fst defined))
                             false_positives))
                       (located_at (fst defined) (map lower (fst used)) (snd defined)
                          (fun basename0 _ => definition_file_of fs mp basename0))
                       (fun loc p =>
                          {| d_symbol := loc; d_file := relpath p mp;
                             d_line := line_of fs p ("name = " ++ loc) true |}))).
Proof.
  intros set_order fs self mp st set_targets used_targets cleared_targets.
  split; [|split; [|split; [|split]]].
  - rewrite Forall_forall. intros flag_type Hin false_positives cleared used set.
    split; [|split]; eexists.
    + split; [now apply cleared_flags_results_value|].
      apply (defects_for_located1 fs mp _ _
               (fun flag => "clr_" ++ flag_type ++ "_flag = " ++ flag)).
    + split; [now apply missing_flags_results_value|].
      apply (defects_for_located1 fs mp _ _
               (fun flag => "has_" ++ flag_type ++ "_flag = " ++ flag)).
    + split; [now apply unused_flags_results_value|].
      apply (defects_for_located1 fs mp _ _
               (fun flag => "set_" ++ flag_type ++ "_flag = " ++ flag)).
  - eexists. split; [apply cleared_event_targets_results_value|].
    apply (defects_for_located1 fs mp _ _
             (fun target => "clear_global_event_target = " ++ target)).
  - eexists. split; [apply missing_event_targets_results_value|].
    apply (defects_for_located2 fs mp _ _
             (fun target => "event_target:" ++ target)
             (fun target => "has_event_target = " ++ target)).
  - eexists. split; [apply unused_event_targets_results_value|].
    apply (defects_for_located2 fs mp _ _
             (fun target => "save_event_target_as = " ++ target)
             (fun target => "save_global_event_target_as = " ++ target)).
  - intros false_positives defined used. split; eexists.
    + split; [apply missing_results_value|].
      apply (scripted_fold_reports mp (fst used) (map lower (fst defined)) (snd used)
               (full_path_of_any_case fs mp)
               (fun full_path loc => line_of fs full_path loc true)).
    + split; [apply unused_results_value|].
      apply (scripted_fold_reports mp (fst defined) (map lower (fst used)) (snd defined)
               (fun basename0 _ => definition_file_of fs mp basename0)
               (fun full_path loc => line_of fs full_path ("name = " ++ loc) true)).
Qed.

(** The line number is 0 exactly when no line holds the pattern. *)
Lemma first_line_zero : forall search_pattern lowercase ls n,
    first_line search_pattern lowercase ls (S n) = 0
    <-> forall line, In line ls ->
                     str_in search_pattern (if lowercase then lower line else line)
                     = false.
Proof.
  intros search_pattern lowercase ls. induction ls as [|l ls IH]; intros n; simpl.
  - split; [intros _ line [] | reflexivity].
  - destruct (str_in search_pattern (if lowercase then lower l else l)) eqn:E.
    + split; [discriminate|]. intros H. specialize (H l (or_introl eq_refl)). congruence.
    + rewrite IH. split.
      * intros H line [<-|Hin]; auto.
      * intros H line Hin. apply H. now right.
Qed.

(** ** The statements at concrete inputs *)

(** Two rules on a list with a repeated survivor. *)
Lemma clear_false_positives_on_a_list :
  DataCleaner.clear_false_positives_partial_match (V := unit)
    (DataCleaner.PyList ["a@b"; "plain"; "x_QMV_voted"; "plain"]) ["@"; "_QMV"]
  = Some (DataCleaner.PyList ["plain"; "plain"])
  /\ DataCleaner.clear_false_positives_partial_match (V := unit)
       (DataCleaner.PyList ["plain"; "plain"]) ["@"; "_QMV"]
     = Some (DataCleaner.PyList ["plain"; "plain"]).
Proof.
  destruct (clear_false_positives_partial_match_exact unit ["@"; "_QMV"]) as [Hl _].
  destruct (Hl ["a@b"; "plain"; "x_QMV_voted"; "plain"]) as (l' & H & E & _ & Hi).
  subst l'. split; [exact H | exact Hi].
Defined.

Lemma unreadable_file_is_passed_over :
  FileOpener.open_text_file tree_with_unreadable_file "/mod/events/a.txt" true
  = (inr "",
     [EvOpen "/mod/events/a.txt";
      EvLog WARNING "Skipping the file /mod/events/a.txt, invalid start byte"])
  /\ value (validate_variables.Variables.get_all_set_flags
              tree_with_unreadable_file "/mod/" true "country" true None)
     = value (validate_variables.Variables.get_all_set_flags
                (drop_unreadable tree_with_unreadable_file) "/mod/" true "country"
                true None).
Proof.
  destruct (open_text_file_never_raises tree_with_unreadable_file
              "/mod/events/a.txt" true) as (_ & Hwarn & Hscan).
  split.
  - apply (Hwarn "invalid start byte"). reflexivity.
  - destruct (Hscan "/mod/" true) as (Hflags & _).
    apply (proj1 (Forall_forall _ _) Hflags "country").
    + apply mem_spec. reflexivity.
Defined.

Lemma county_is_rejected_at_once :
  raises_ValueError
    (validate_variables.Variables.get_all_set_flags
       tree_with_two_setters "/mod/" false "county" true None)
  /\ trace (validate_variables.Variables.get_all_set_flags
              tree_with_two_setters "/mod/" false "county" true None) = [].
Proof.
  destruct (flag_extractors_reject_unsupported_type tree_with_two_setters "/mod/"
              false "county" true None) as ((_ & Hset & _) & Htrace & _).
  assert (Hn : ~ In "county" ["country"; "state"; "global"]).
  { intros H. apply mem_spec in H. discriminate. }
  split; [apply Hset; exact Hn | apply (Htrace Hn)].
Defined.

Lemma twice_tested_flag_is_located :
  exists results,
    value (validate_variables.Validator.missing_flags_results
             tree_with_flag_tested_twice walker "country"
             validate_variables.Validator.FALSE_POSITIVES_COUNTRY) = inr results
    /\ In {| d_symbol := "ghost"; d_file := "events/a.txt"; d_line := 1 |} results.
Proof.
  destruct (located_symbols_are_reported first_occurrences
              tree_with_flag_tested_twice walker) as (Hflags & _).
  assert (Hin : In "country" validate_variables.FLAG_TYPES)
    by (apply mem_spec; reflexivity).
  destruct (proj1 (Forall_forall _ _) Hflags "country" Hin
              validate_variables.Validator.FALSE_POSITIVES_COUNTRY)
    as (_ & (results & Hv & Hrep) & _).
  exists results. split; [exact Hv|].
  apply Hrep. exists "ghost", "/mod/events/a.txt".
  split; [apply mem_spec; reflexivity|].
  split; [reflexivity|]. split; [discriminate | reflexivity].
Defined.

Lemma later_setter_is_recorded :
  file_of "x" (validate_variables.Variables.get_all_set_flags
                 tree_with_two_setters "/mod/" false "country" true None)
  = Some "b.txt".
Proof.
  destruct (symbol_to_file_mapping tree_with_two_setters "/mod/" false None "x")
    as (Hflags & _).
  assert (Hin : In "country" validate_variables.FLAG_TYPES)
    by (apply mem_spec; reflexivity).
  destruct (proj1 (Forall_forall _ _) Hflags "country" Hin) as (_ & Hset & _).
  exact Hset.
Defined.


(** * Further properties

    What the code does besides: where a finding points, what the
    extractors open and return, what a run writes, and which inputs
    change nothing. *)

(** ** The line of a finding *)

Lemma first_line_hit : forall search_pattern lowercase ls m n,
    first_hit search_pattern lowercase ls n ->
    first_line search_pattern lowercase ls m = m + n.
Proof.
  intros search_pattern lowercase ls.
  induction ls as [|l ls IH]; intros m n [(line & Hn & Hl) Hbefore].
  - now destruct n.
  - simpl. destruct n as [|n].
    + simpl in Hn. injection Hn as ->. rewrite Hl. lia.
    + rewrite (Hbefore 0 l) by (simpl; auto; lia).
      rewrite (IH (S m) n); [lia|]. split.
      * now exists line.
      * intros k line' Hk Hk'. apply (Hbefore (S k) line'); [lia | exact Hk'].
Qed.

Lemma first_line_found : forall search_pattern lowercase ls m,
    first_line search_pattern lowercase ls (S m) <> 0 ->
    exists n, first_line search_pattern lowercase ls (S m) = S m + n
              /\ first_hit search_pattern lowercase ls n.
Proof.
  intros search_pattern lowercase ls.
  induction ls as [|l ls IH]; intros m H; simpl in *; [congruence|].
  destruct (str_in search_pattern (if lowercase then lower l else l)) eqn:E.
  - exists 0. split; [lia|]. split.
    + now exists l.
    + intros k line Hk. lia.
  - destruct (IH (S m) H) as (n & Hn & [(line & Hline & Hl) Hbefore]).
    exists (S n). split; [lia|]. split.
    + now exists line.
    + intros [|k] line' Hk Hk'; simpl in Hk'.
      * now injection Hk' as <-.
      * apply (Hbefore k line'); [lia | exact Hk'].
Qed.

(** X1. [find_line_number] never raises.  For a file that is read in
    full it returns the number, counted from 1, of the first line that
    holds the pattern: [n + 1] exactly when the line at index [n] holds
    the pattern and no line before does, and 0 exactly when no line
    holds it.  For a file whose read fails (a read fails as a whole
    here) it returns 0.  With [lowercase] both the pattern and the
    lines are folded to lower case. *)
Theorem find_line_number_is_the_first_hit :
  forall (fs : filesystem) (filename pattern : string) (lowercase : bool),
    let search_pattern := if lowercase then lower pattern else pattern in
    exists r,
      value (find_line_number fs filename pattern lowercase) = inr r
      /\ (forall n,
             r = S n
             <-> exists text, fs_read fs filename = ReadOk text
                              /\ first_hit search_pattern lowercase (lines text) n)
      /\ (r = 0
          <-> (forall text, fs_read fs filename = ReadOk text ->
                            forall line, In line (lines text) ->
                                         str_in search_pattern
                                           (if lowercase then lower line else line)
                                         = false)).
Proof.
  intros fs filename pattern lowercase search_pattern.
  exists (line_of fs filename pattern lowercase).
  split; [apply find_line_number_value|].
  unfold line_of. fold search_pattern.
  destruct (fs_read fs filename) as [text|ex].
  - split.
    + intros n. split.
      * intros H.
        destruct (first_line_found search_pattern lowercase (lines text) 0)
          as (k & Hk & Hhit); [congruence|].
        exists text. split; [reflexivity|].
        assert (k = n) by lia. now subst k.
      * intros (text' & Hr & Hhit). injection Hr as <-.
        now rewrite (first_line_hit _ _ _ 1 n Hhit).
    + rewrite first_line_zero. split.
      * intros H text' Hr. injection Hr as <-. exact H.
      * intros H. now apply H.
  - split.
    + intros n. split; [discriminate|]. intros (text & Hr & _). discriminate.
    + split; [|reflexivity]. intros _ text Hr. discriminate.
Qed.

(** ** Where a finding of validate_variables.py points *)

Lemma append_empty_r : forall s : string, s ++ "" = s.
Proof. induction s as [|c s IH]; simpl; congruence. Qed.

Lemma append_assoc : forall a b c : string, (a ++ b) ++ c = a ++ b ++ c.
Proof. induction a as [|x a IH]; intros; simpl; [reflexivity|]. now rewrite IH. Qed.

Lemma is_substring_refl : forall s, is_substring s s.
Proof. intros s. exists "", "". simpl. now rewrite append_empty_r. Qed.

Lemma is_substring_trans : forall a b c,
    is_substring a b -> is_substring b c -> is_substring a c.
Proof.
  intros a b c (x & y & ->) (x' & y' & ->).
  exists (x' ++ x), (y ++ y'). now rewrite !append_assoc.
Qed.

Lemma is_substring_app_l : forall f a b, is_substring f a -> is_substring f (a ++ b).
Proof.
  intros f a b (x & y & ->). exists x, (y ++ b). now rewrite !append_assoc.
Qed.

Lemma is_substring_app_r : forall f a b, is_substring f b -> is_substring f (a ++ b).
Proof.
  intros f a b (x & y & ->). exists (a ++ x), y. now rewrite !append_assoc.
Qed.

Lemma strip_prefix_spec : forall p s r, strip_prefix p s = Some r -> s = p ++ r.
Proof.
  induction p as [|a p IH]; intros s r H; simpl in *.
  - now injection H as ->.
  - destruct s as [|b s]; [discriminate|].
    destruct (Ascii.eqb_spec a b) as [->|]; [|discriminate].
    now rewrite (IH _ _ H).
Qed.

(** A text without the character [c] that starts a text cut at [c]
    lies before the cut. *)
Lemma prefix_before_cut : forall c item a b y,
    all_chars (fun d => negb (Ascii.eqb d c)) item = true ->
    item ++ y = a ++ String c b -> exists z, a = item ++ z.
Proof.
  intros c item. induction item as [|e item IH]; intros a b y Hall H.
  - now exists a.
  - simpl in Hall. apply andb_true_iff in Hall. destruct Hall as [He Hall].
    destruct a as [|f a]; simpl in H; injection H as -> H.
    + rewrite Ascii.eqb_refl in He. discriminate.
    + destruct (IH _ _ _ Hall H) as (z & ->). now exists z.
Qed.

(** A text without the character [c] that occurs in a text cut at [c]
    occurs on one side of the cut. *)
Lemma is_substring_cut : forall c item,
    all_chars (fun d => negb (Ascii.eqb d c)) item = true ->
    forall a b, is_substring item (a ++ String c b) ->
                is_substring item a \/ is_substring item b.
Proof.
  intros c item Hall a. induction a as [|d a IH]; intros b (x & y & H).
  - destruct x as [|e x]; simpl in H.
    + destruct (prefix_before_cut c item "" b y Hall (eq_sym H)) as (z & Hz).
      left. exists "", z. exact Hz.
    + injection H as _ ->. right. now exists x, y.
  - destruct x as [|e x]; simpl in H.
    + destruct (prefix_before_cut c item (String d a) b y Hall (eq_sym H)) as (z & Hz).
      left. exists "", z. exact Hz.
    + injection H as _ H.
      destruct (IH b) as [(x' & y' & ->)|Hb]; [now exists x, y| |now right].
      left. now exists (String d x'), y'.
Qed.

(** A text without a newline that occurs in a file occurs in one of its
    lines. *)
Lemma some_line_holds : forall item,
    item <> "" ->
    all_chars not_newline item = true ->
    forall s cur,
      is_substring item (cur ++ s) ->
      exists line, In line (lines_from cur s) /\ is_substring item line.
Proof.
  intros item Hne Hall s. induction s as [|c s IH]; intros cur Hsub.
  - rewrite append_empty_r in Hsub. simpl.
    destruct (String.eqb_spec cur "") as [->|_].
    + destruct Hsub as ([|? ?] & y & H); simpl in H; [|discriminate].
      destruct item; [congruence | discriminate].
    + exists cur. split; [now left | exact Hsub].
  - simpl. destruct (Ascii.eqb_spec c "010"%char) as [->|Hc].
    + destruct (is_substring_cut "010"%char item Hall cur s Hsub) as [H|H].
      * exists (cur ++ String "010"%char ""). split; [now left|].
        now apply is_substring_app_l.
      * destruct (IH "" H) as (line & Hin & Hl). exists line. split; [now right | exact Hl].
    + apply IH. now rewrite append_assoc.
Qed.

Lemma line_of_nonzero : forall fs p probe,
    line_of fs p probe false <> 0 ->
    exists content line,
      fs_read fs p = ReadOk content
      /\ nth_error (lines content) (line_of fs p probe false - 1) = Some line
      /\ str_in probe line = true.
Proof.
  intros fs p probe H. unfold line_of in *.
  destruct (fs_read fs p) as [content|]; [|congruence].
  destruct (first_line_found probe false (lines content) 0 H)
    as (n & Hn & (line & Hline & Hl) & _).
  exists content, line. rewrite Hn. simpl. rewrite Nat.sub_0_r. auto.
Qed.

Lemma line_of_found : forall fs p probe content,
    fs_read fs p = ReadOk content ->
    str_in probe content = true ->
    probe <> "" ->
    all_chars not_newline probe = true ->
    line_of fs p probe false <> 0.
Proof.
  intros fs p probe content Hr Hin Hne Hall H. unfold line_of in H.
  rewrite Hr in H. rewrite first_line_zero in H.
  apply str_in_spec in Hin.
  destruct (some_line_holds probe Hne Hall content "" Hin) as (line & Hline & Hl).
  apply str_in_spec in Hl. specialize (H line Hline). simpl in H. congruence.
Qed.

Lemma in_iglob_rec : forall fs root ext p,
    In p (iglob_rec fs root ext) ->
    exists rel, p = root ++ rel /\ relpath p root = rel /\ endswith rel ext = true.
Proof.
  intros fs root ext p H. unfold iglob_rec in H. apply filter_In in H.
  destruct H as [_ H]. unfold relpath.
  destruct (strip_prefix root p) as [rel|] eqn:E; [|discriminate].
  apply andb_true_iff in H. exists rel. repeat split; [|tauto].
  now apply strip_prefix_spec.
Qed.

Lemma full_path_of_some : forall fs mod_path0 basename0 item p,
    full_path_of fs mod_path0 basename0 item = Some p ->
    exists rel content,
      p = mod_path0 ++ rel /\ relpath p mod_path0 = rel
      /\ endswith rel ".txt" = true
      /\ should_skip_file p = false
      /\ fs_read fs p = ReadOk content
      /\ str_in item content = true.
Proof.
  intros fs mod_path0 basename0 item p H. unfold full_path_of in H.
  apply find_some in H. destruct H as [Hin H].
  apply andb_true_iff in H. destruct H as [H Hholds].
  apply andb_true_iff in H. destruct H as [_ Hskip].
  destruct (in_iglob_rec _ _ _ _ Hin) as (rel & Hp & Hrel & Hext).
  unfold holds in Hholds. destruct (fs_read fs p) as [content|] eqn:Hr; [|discriminate].
  exists rel, content. repeat split; auto.
  now destruct (should_skip_file p).
Qed.

Lemma points_at_line : forall fs mod_path0 sym probe p rel content,
    p = mod_path0 ++ rel ->
    endswith rel ".txt" = true ->
    should_skip_file p = false ->
    fs_read fs p = ReadOk content ->
    is_substring sym probe ->
    line_of fs p probe false <> 0 ->
    points_at fs mod_path0
      {| d_symbol := sym; d_file := rel; d_line := line_of fs p probe false |}.
Proof.
  intros fs mod_path0 sym probe p rel content -> Hext Hskip Hr Hsub Hline.
  destruct (line_of_nonzero _ _ _ Hline) as (content' & line & Hr' & Hnth & Hl).
  exists content', line. simpl. repeat split; auto; [lia|].
  apply str_in_spec. apply str_in_spec in Hl. eapply is_substring_trans; eassumption.
Qed.

Lemma emitted1_points : forall fs mod_path0 sym basename0 probe,
    is_substring sym probe ->
    probe <> "" ->
    all_chars not_newline probe = true ->
    Forall (points_at fs mod_path0) (emitted1 fs mod_path0 sym basename0 probe).
Proof.
  intros fs mod_path0 sym basename0 probe Hsub Hne Hall. unfold emitted1.
  destruct (full_path_of fs mod_path0 basename0 probe) as [p|] eqn:E;
    [|constructor].
  destruct (truthy_str (Some p)); [|constructor].
  destruct (full_path_of_some _ _ _ _ _ E)
    as (rel & content & Hp & Hrel & Hext & Hskip & Hr & Hin).
  constructor; [|constructor]. rewrite Hrel.
  eapply points_at_line; eauto. eapply line_of_found; eauto.
Qed.

Lemma emitted2_points : forall fs mod_path0 sym basename0 probe1 probe2,
    is_substring sym probe1 -> is_substring sym probe2 ->
    probe1 <> "" -> probe2 <> "" ->
    all_chars not_newline probe1 = true ->
    all_chars not_newline probe2 = true ->
    Forall (points_at fs mod_path0)
           (emitted2 fs mod_path0 sym basename0 probe1 probe2).
Proof.
  intros fs mod_path0 sym basename0 probe1 probe2 Hs1 Hs2 Hn1 Hn2 Ha1 Ha2.
  unfold emitted2. cbv zeta.
  assert (Hany : forall probe p,
             probe = probe1 \/ probe = probe2 ->
             full_path_of fs mod_path0 basename0 probe = Some p ->
             points_at fs mod_path0
               {| d_symbol := sym; d_file := relpath p mod_path0;
                  d_line := if (line_of fs p probe1 false =? 0)%nat
                            then line_of fs p probe2 false
                            else line_of fs p probe1 false |}).
  { intros probe p Hprobe E.
    destruct (full_path_of_some _ _ _ _ _ E)
      as (rel & content & Hp & Hrel & Hext & Hskip & Hr & Hin).
    rewrite Hrel.
    destruct (Nat.eqb_spec (line_of fs p probe1 false) 0) as [H0|H0].
    - eapply points_at_line; eauto.
      destruct Hprobe as [->| ->].
      + exfalso. revert H0. eapply line_of_found; eauto.
      + eapply line_of_found; eauto.
    - eapply points_at_line; eauto. }
  destruct (full_path_of fs mod_path0 basename0 probe1) as [p|] eqn:E1.
  - destruct (truthy_str (Some p)) eqn:Ht; simpl negb; cbv iota.
    + rewrite Ht. constructor; [|constructor]. apply (Hany probe1); auto.
    + destruct (full_path_of fs mod_path0 basename0 probe2) as [q|] eqn:E2;
        [|constructor].
      destruct (truthy_str (Some q)); [|constructor].
      constructor; [|constructor]. apply (Hany probe2); auto.
  - simpl negb. cbv iota.
    destruct (full_path_of fs mod_path0 basename0 probe2) as [q|] eqn:E2;
      [|constructor].
    destruct (truthy_str (Some q)); [|constructor].
    constructor; [|constructor]. apply (Hany probe2); auto.
Qed.

Lemma defects_for_Forall :
  forall (P : defect -> Prop) keep paths
         (emitted : string -> string -> list defect) cands,
    (forall c b, In c cands -> Forall P (emitted c b)) ->
    Forall P (defects_for keep paths emitted cands).
Proof.
  intros P keep paths emitted cands H. unfold defects_for.
  rewrite Forall_forall. intros d Hd. apply in_flat_map in Hd.
  destruct Hd as (c & Hc & Hd). destruct (keep c); [|contradiction].
  destruct (dict_get c paths) as [b|]; [|contradiction].
  specialize (H c b Hc). rewrite Forall_forall in H. auto.
Qed.

Lemma blank_free_not_newline : forall c, blank_free c = true -> not_newline c = true.
Proof. by_ascii. Qed.

Lemma has_target_char_not_newline : forall c,
    has_target_char c = true -> not_newline c = true.
Proof. by_ascii. Qed.

Lemma target_char_not_newline : forall c,
    target_char c = true -> not_newline c = true.
Proof. by_ascii. Qed.

Lemma occurrences_chars : forall (good : ascii -> bool) fs mod_path0 staged skip found R c,
    (forall f text_file, Forall (fun g => all_chars good g = true) (found f text_file)) ->
    (forall a, good a = true -> not_newline a = true) ->
    In c (DataCleaner.clear_list (fst (occurrences fs mod_path0 staged skip found)) R) ->
    all_chars not_newline c = true.
Proof.
  intros good fs mod_path0 staged skip found R c Hfound Hgood Hc.
  apply clear_list_incl in Hc. unfold occurrences in Hc.
  assert (H := scan_symbols (fun g => all_chars good g = true) fs false skip found
                 (txt_files_to_scan fs mod_path0 staged) Hfound).
  rewrite Forall_forall in H. eapply all_chars_weaken; [exact Hgood | now apply H].
Qed.

Lemma flag_probe : forall verb flag_type c,
    In flag_type validate_variables.FLAG_TYPES ->
    all_chars not_newline verb = true ->
    all_chars not_newline c = true ->
    is_substring c (verb ++ flag_type ++ "_flag = " ++ c)
    /\ verb ++ flag_type ++ "_flag = " ++ c <> ""
    /\ all_chars not_newline (verb ++ flag_type ++ "_flag = " ++ c) = true.
Proof.
  intros verb flag_type c Hin Hverb Hc. repeat split.
  - do 3 apply is_substring_app_r. apply is_substring_refl.
  - intros H. destruct verb; simpl in H; [|discriminate].
    destruct flag_type; simpl in H; discriminate.
  - rewrite !all_chars_app, Hverb, Hc.
    destruct Hin as [<-|[<-|[<-|[]]]]; reflexivity.
Qed.

Lemma flag_results_raise : forall fs self flag_type false_positives,
    ~ In flag_type validate_variables.FLAG_TYPES ->
    results_of (validate_variables.Validator.cleared_flags_results
                  fs self flag_type false_positives) = []
    /\ results_of (validate_variables.Validator.missing_flags_results
                     fs self flag_type false_positives) = []
    /\ results_of (validate_variables.Validator.unused_flags_results
                     fs self flag_type false_positives) = [].
Proof.
  intros fs self flag_type false_positives Hn.
  assert (E : mem flag_type validate_variables.FLAG_TYPES = false).
  { destruct (mem _ _) eqn:E; [|reflexivity]. apply mem_spec in E. contradiction. }
  unfold results_of, validate_variables.Validator.cleared_flags_results,
    validate_variables.Validator.missing_flags_results,
    validate_variables.Validator.unused_flags_results,
    validate_variables.Variables.get_all_used_flags,
    validate_variables.Variables.get_all_set_flags,
    validate_variables.Variables.get_all_cleared_flags.
  now rewrite E.
Qed.

(** X2. Every finding of the six checks of [validate_variables.py]
    points at a line that holds its symbol: the file of the finding is
    a readable [.txt] file of the tree outside the ignored directories,
    the line number is at least 1 (the value 0, for which the report
    leaves the line out, does not occur), and the symbol occurs in the
    line of that number. *)
Theorem variables_findings_point_at_the_symbol :
  forall (fs : filesystem) (self : validator),
    (forall flag_type false_positives,
        Forall (points_at fs (mod_path self))
          (results_of (validate_variables.Validator.cleared_flags_results
                         fs self flag_type false_positives))
        /\ Forall (points_at fs (mod_path self))
             (results_of (validate_variables.Validator.missing_flags_results
                            fs self flag_type false_positives))
        /\ Forall (points_at fs (mod_path self))
             (results_of (validate_variables.Validator.unused_flags_results
                            fs self flag_type false_positives)))
    /\ Forall (points_at fs (mod_path self))
         (results_of (validate_variables.Validator.cleared_event_targets_results
                        fs self))
    /\ Forall (points_at fs (mod_path self))
         (results_of (validate_variables.Validator.missing_event_targets_results
                        fs self))
    /\ Forall (points_at fs (mod_path self))
         (results_of (validate_variables.Validator.unused_event_targets_results
                        fs self)).
Proof.
  intros fs self. split; [|split; [|split]].
  - intros flag_type false_positives.
    destruct (in_dec string_dec flag_type validate_variables.FLAG_TYPES) as [Hin|Hn].
    2: { destruct (flag_results_raise fs self flag_type false_positives Hn)
           as (-> & -> & ->). repeat split; constructor. }
    unfold results_of.
    rewrite cleared_flags_results_value, missing_flags_results_value,
      unused_flags_results_value by assumption.
    split; [|split]; apply defects_for_Forall; intros c b Hc.
    + assert (Hch := occurrences_chars blank_free _ _ _ _ _ _ _
                       (cleared_flags_in_chars flag_type) blank_free_not_newline Hc).
      apply emitted1_points; now apply flag_probe.
    + assert (Hch := occurrences_chars blank_free _ _ _ _ _ _ _
                       (used_flags_in_chars flag_type) blank_free_not_newline Hc).
      apply emitted1_points; now apply flag_probe.
    + assert (Hch := occurrences_chars blank_free _ _ _ _ _ _ _
                       (set_flags_in_chars flag_type) blank_free_not_newline Hc).
      apply emitted1_points; now apply flag_probe.
  - unfold results_of. rewrite cleared_event_targets_results_value.
    apply defects_for_Forall. intros c b Hc.
    assert (Hch : all_chars not_newline c = true).
    { apply (occurrences_chars target_char fs (mod_path self) (staged_files self)
               should_skip_file cleared_targets_in [] c
               cleared_targets_in_chars target_char_not_newline).
      now rewrite clear_list_nil_rules. }
    apply emitted1_points.
    + apply is_substring_app_r, is_substring_refl.
    + discriminate.
    + now rewrite all_chars_app, Hch.
  - unfold results_of. rewrite missing_event_targets_results_value.
    apply defects_for_Forall. intros c b Hc.
    assert (Hch : all_chars not_newline c = true).
    { exact (occurrences_chars has_target_char _ _ _ _ _ _ _
               used_targets_in_chars has_target_char_not_newline Hc). }
    apply emitted2_points; try discriminate;
      try (apply is_substring_app_r, is_substring_refl);
      now rewrite all_chars_app, Hch.
  - unfold results_of. rewrite unused_event_targets_results_value.
    apply defects_for_Forall. intros c b Hc. apply filter_In in Hc.
    destruct Hc as [Hc _].
    assert (Hch : all_chars not_newline c = true).
    { exact (occurrences_chars target_char _ _ _ _ _ _ _
               set_targets_in_chars target_char_not_newline Hc). }
    apply emitted2_points; try discriminate;
      try (apply is_substring_app_r, is_substring_refl);
      now rewrite all_chars_app, Hch.
Qed.

(** ** The symbols and the keys of the mapping *)

Lemma append_not_empty : forall a c, a ++ String c "" <> "".
Proof. intros [|x a] c; discriminate. Qed.

Lemma plus_loop_filled : forall p k s acc, group_filled (plus_loop p k s acc).
Proof.
  intros p k s. induction s as [|c s IH]; intros acc; simpl; [exact I|].
  destruct (p c); [|exact I].
  specialize (IH (acc ++ String c "")).
  destruct (plus_loop p k s (acc ++ String c "")); [exact IH|].
  destruct (k s) as [[g rest]|]; [apply append_not_empty | exact I].
Qed.

Lemma star_loop_filled : forall p k,
    (forall s, group_filled (k s)) -> forall s, group_filled (star_loop p k s).
Proof.
  intros p k Hk s. induction s as [|c s IH]; simpl; [apply Hk|].
  destruct (p c); [|apply Hk]. destruct (star_loop p k s); [exact IH | apply Hk].
Qed.

Lemma lazy_loop_filled : forall k,
    (forall s, group_filled (k s)) -> forall s, group_filled (lazy_loop k s).
Proof.
  intros k Hk s. induction s as [|c s IH]; simpl.
  - specialize (Hk ""). now destruct (k "").
  - specialize (Hk (String c s)). now destruct (k (String c s)).
Qed.

Lemma re_match_filled : forall its,
    has_group its = true -> forall s, group_filled (re_match its s).
Proof.
  induction its as [|it its IH]; intros H s; [discriminate|].
  destruct it as [l|p|p|p|]; simpl in *.
  - destruct (strip_prefix l s); [now apply IH | exact I].
  - destruct s as [|c s]; [exact I|]. destruct (p c); [now apply IH | exact I].
  - apply plus_loop_filled.
  - apply star_loop_filled. now apply IH.
  - apply lazy_loop_filled. now apply IH.
Qed.

Lemma findall_filled : forall its,
    has_group its = true ->
    forall s, Forall (fun g => g <> "") (findall its s).
Proof.
  intros its H s. unfold findall. generalize 0.
  induction s as [|c s IH]; intros skip.
  - destruct skip; simpl; [|constructor].
    assert (Hg := re_match_filled its H "").
    destruct (re_match its "") as [[g rest]|]; repeat constructor. exact Hg.
  - destruct skip; simpl; [|apply IH].
    assert (Hg := re_match_filled its H (String c s)).
    destruct (re_match its (String c s)) as [[g rest]|]; [|apply IH].
    constructor; [exact Hg | apply IH].
Qed.

Ltac filled :=
  repeat match goal with
         | |- context [if ?b then _ else _] => destruct b
         | |- Forall _ (_ ++ _)%list => apply Forall_app_2
         | |- Forall _ [] => constructor
         | |- Forall _ (findall _ _) => apply findall_filled; reflexivity
         end.

Lemma flag_extractors_raise : forall fs mod_path lowercase flag_type staged sym,
    ~ In flag_type validate_variables.FLAG_TYPES ->
    (symbols_of (validate_variables.Variables.get_all_used_flags
                   fs mod_path lowercase flag_type false staged) = []
     /\ symbols_of (validate_variables.Variables.get_all_set_flags
                      fs mod_path lowercase flag_type false staged) = []
     /\ symbols_of (validate_variables.Variables.get_all_cleared_flags
                      fs mod_path lowercase flag_type false staged) = [])
    /\ (file_of sym (validate_variables.Variables.get_all_used_flags
                       fs mod_path lowercase flag_type true staged) = None
        /\ file_of sym (validate_variables.Variables.get_all_set_flags
                          fs mod_path lowercase flag_type true staged) = None
        /\ file_of sym (validate_variables.Variables.get_all_cleared_flags
                          fs mod_path lowercase flag_type true staged) = None).
Proof.
  intros fs mod_path lowercase flag_type staged sym Hn.
  assert (E : mem flag_type validate_variables.FLAG_TYPES = false).
  { destruct (mem _ _) eqn:E; [|reflexivity]. apply mem_spec in E. contradiction. }
  unfold symbols_of, file_of, validate_variables.Variables.get_all_used_flags,
    validate_variables.Variables.get_all_set_flags,
    validate_variables.Variables.get_all_cleared_flags.
  now rewrite E.
Qed.

(** X3. No extractor of patterns returns the empty symbol: the group of
    every pattern is a [[class]+], which takes one character at
    least. *)
Theorem extracted_symbols_are_not_empty :
  forall fs mod_path lowercase flag_type staged_files,
    Forall (fun sym => sym <> "")
      (symbols_of (validate_variables.Variables.get_all_used_flags
                     fs mod_path lowercase flag_type false staged_files))
    /\ Forall (fun sym => sym <> "")
         (symbols_of (validate_variables.Variables.get_all_set_flags
                        fs mod_path lowercase flag_type false staged_files))
    /\ Forall (fun sym => sym <> "")
         (symbols_of (validate_variables.Variables.get_all_cleared_flags
                        fs mod_path lowercase flag_type false staged_files))
    /\ Forall (fun sym => sym <> "")
         (symbols_of (validate_variables.EventTargets.get_all_used_targets
                        fs mod_path lowercase false staged_files))
    /\ Forall (fun sym => sym <> "")
         (symbols_of (validate_variables.EventTargets.get_all_set_targets
                        fs mod_path lowercase false staged_files))
    /\ Forall (fun sym => sym <> "")
         (symbols_of (validate_variables.EventTargets.get_all_cleared_targets
                        fs mod_path lowercase false staged_files))
    /\ Forall (fun sym => sym <> "")
         (symbols_of
            (validate_scripted_localisation.ScriptedLocalisation.get_all_defined_localisations
               fs mod_path lowercase false staged_files)).
Proof.
  intros fs mod_path lowercase flag_type staged_files.
  assert (Hflags :
            Forall (fun sym => sym <> "")
              (symbols_of (validate_variables.Variables.get_all_used_flags
                             fs mod_path lowercase flag_type false staged_files))
            /\ Forall (fun sym => sym <> "")
                 (symbols_of (validate_variables.Variables.get_all_set_flags
                                fs mod_path lowercase flag_type false staged_files))
            /\ Forall (fun sym => sym <> "")
                 (symbols_of (validate_variables.Variables.get_all_cleared_flags
                                fs mod_path lowercase flag_type false staged_files))).
  { destruct (in_dec string_dec flag_type validate_variables.FLAG_TYPES) as [Hin|Hn].
    - repeat split.
      + eapply symbols_of_scan;
          [exact (get_all_used_flags_value fs mod_path lowercase flag_type false
                    staged_files Hin)|].
        intros. unfold used_flags_in. filled.
      + eapply symbols_of_scan;
          [exact (get_all_set_flags_value fs mod_path lowercase flag_type false
                    staged_files Hin)|].
        intros. unfold set_flags_in. filled.
      + eapply symbols_of_scan;
          [exact (get_all_cleared_flags_value fs mod_path lowercase flag_type false
                    staged_files Hin)|].
        intros. unfold cleared_flags_in. filled.
    - destruct (flag_extractors_raise fs mod_path lowercase flag_type
                  staged_files "" Hn) as ((-> & -> & ->) & _).
      repeat split; constructor. }
  destruct Hflags as (H1 & H2 & H3).
  split; [exact H1|]. split; [exact H2|]. split; [exact H3|]. repeat split.
  - eapply symbols_of_scan;
      [exact (get_all_used_targets_value fs mod_path lowercase false staged_files)|].
    intros. unfold used_targets_in. filled.
  - eapply symbols_of_scan;
      [exact (get_all_set_targets_value fs mod_path lowercase false staged_files)|].
    intros. unfold set_targets_in. filled.
  - eapply symbols_of_scan;
      [exact (get_all_cleared_targets_value fs mod_path lowercase false staged_files)|].
    intros. unfold cleared_targets_in. filled.
  - eapply symbols_of_scan;
      [exact (get_all_defined_localisations_value fs mod_path lowercase false
                staged_files)|].
    intros. unfold defined_locs_in. filled.
Qed.

Lemma scan_keys_iff : forall fs lowercase skip found files sym,
    In sym (fst (scan fs lowercase skip found files ([], [])))
    <-> dict_get sym (snd (scan fs lowercase skip found files ([], []))) <> None.
Proof.
  intros fs lowercase skip found files sym. split; [apply scan_keys|].
  rewrite scan_snd, scan_fst. simpl. unfold last_file.
  destruct (find _ (rev files)) as [f|] eqn:E; [intros _ | congruence].
  apply find_some in E. destruct E as [Hf Hrec]. apply in_rev in Hf.
  unfold recorded_in in Hrec. apply andb_true_iff in Hrec. destruct Hrec as [Hs Hm].
  apply in_flat_map. exists f. split; [assumption|].
  destruct (skip f); [discriminate|]. now apply mem_spec.
Qed.

Lemma scan_names_keys_agree : forall fs lowercase names files acc,
    keys_agree acc -> keys_agree (scan_names fs lowercase names files acc).
Proof.
  intros fs lowercase names files. induction files as [|f files IH]; intros acc H.
  - exact H.
  - unfold scan_names in *. simpl. apply IH.
    destruct (skip_definitions f); [exact H|].
    exact (proj1 (note_names_snd f (text_of fs f lowercase) "" names acc H)).
Qed.

Lemma symbols_and_keys_of_scan :
  forall (m1 : M (list string)) (m2 : M (list string * dict string))
         fs lowercase skip found files sym,
    value m1 = inr (give false (scan fs lowercase skip found files ([], []))) ->
    value m2 = inr (give true (scan fs lowercase skip found files ([], []))) ->
    In sym (symbols_of m1) <-> file_of sym m2 <> None.
Proof.
  intros m1 m2 fs lowercase skip found files sym H1 H2.
  unfold symbols_of, file_of. rewrite H1, H2. simpl.
  rewrite scan_keys_iff. now destruct (scan _ _ _ _ _ _).
Qed.

Lemma symbols_and_keys_of_scan_names :
  forall (m1 : M (list string)) (m2 : M (list string * dict string))
         fs lowercase names files sym,
    value m1 = inr (give false (scan_names fs lowercase names files ([], []))) ->
    value m2 = inr (give true (scan_names fs lowercase names files ([], []))) ->
    In sym (symbols_of m1) <-> file_of sym m2 <> None.
Proof.
  intros m1 m2 fs lowercase names files sym H1 H2.
  unfold symbols_of, file_of. rewrite H1, H2. simpl.
  assert (K := scan_names_keys_agree fs lowercase names files ([], [])
                 keys_agree_empty sym).
  rewrite <- mem_spec, K. now destruct (scan_names _ _ _ _ _).
Qed.

(** X4. The list and the mapping an extractor returns hold the same
    symbols: a symbol is in the list exactly when it is a key of the
    mapping, so [paths[symbol]] is defined for every symbol a check
    takes from the list. *)
Theorem listed_symbols_are_the_keys :
  forall set_order fs mod_path lowercase flag_type defined_names staged_files sym,
    (In sym (symbols_of (validate_variables.Variables.get_all_used_flags
                           fs mod_path lowercase flag_type false staged_files))
     <-> file_of sym (validate_variables.Variables.get_all_used_flags
                        fs mod_path lowercase flag_type true staged_files) <> None)
    /\ (In sym (symbols_of (validate_variables.Variables.get_all_set_flags
                              fs mod_path lowercase flag_type false staged_files))
        <-> file_of sym (validate_variables.Variables.get_all_set_flags
                           fs mod_path lowercase flag_type true staged_files) <> None)
    /\ (In sym (symbols_of (validate_variables.Variables.get_all_cleared_flags
                              fs mod_path lowercase flag_type false staged_files))
        <-> file_of sym (validate_variables.Variables.get_all_cleared_flags
                           fs mod_path lowercase flag_type true staged_files) <> None)
    /\ (In sym (symbols_of (validate_variables.EventTargets.get_all_used_targets
                              fs mod_path lowercase false staged_files))
        <-> file_of sym (validate_variables.EventTargets.get_all_used_targets
                           fs mod_path lowercase true staged_files) <> None)
    /\ (In sym (symbols_of (validate_variables.EventTargets.get_all_set_targets
                              fs mod_path lowercase false staged_files))
        <-> file_of sym (validate_variables.EventTargets.get_all_set_targets
                           fs mod_path lowercase true staged_files) <> None)
    /\ (In sym (symbols_of (validate_variables.EventTargets.get_all_cleared_targets
                              fs mod_path lowercase false staged_files))
        <-> file_of sym (validate_variables.EventTargets.get_all_cleared_targets
                           fs mod_path lowercase true staged_files) <> None)
    /\ (In sym
          (symbols_of
             (validate_scripted_localisation.ScriptedLocalisation.get_all_defined_localisations
                fs mod_path lowercase false staged_files))
        <-> file_of sym
              (validate_scripted_localisation.ScriptedLocalisation.get_all_defined_localisations
                 fs mod_path lowercase true staged_files) <> None)
    /\ (In sym
          (symbols_of
             (validate_scripted_localisation.ScriptedLocalisation.get_all_used_localisations
                set_order fs mod_path defined_names lowercase false staged_files))
        <-> file_of sym
              (validate_scripted_localisation.ScriptedLocalisation.get_all_used_localisations
                 set_order fs mod_path defined_names lowercase true staged_files)
            <> None).
Proof.
  intros set_order fs mod_path lowercase flag_type defined_names staged_files sym.
  assert (Hflags :
            (In sym (symbols_of (validate_variables.Variables.get_all_used_flags
                                   fs mod_path lowercase flag_type false staged_files))
             <-> file_of sym (validate_variables.Variables.get_all_used_flags
                                fs mod_path lowercase flag_type true staged_files)
                 <> None)
            /\ (In sym (symbols_of (validate_variables.Variables.get_all_set_flags
                                      fs mod_path lowercase flag_type false staged_files))
                <-> file_of sym (validate_variables.Variables.get_all_set_flags
                                   fs mod_path lowercase flag_type true staged_files)
                    <> None)
            /\ (In sym (symbols_of (validate_variables.Variables.get_all_cleared_flags
                                      fs mod_path lowercase flag_type false staged_files))
                <-> file_of sym (validate_variables.Variables.get_all_cleared_flags
                                   fs mod_path lowercase flag_type true staged_files)
                    <> None)).
  { destruct (in_dec string_dec flag_type validate_variables.FLAG_TYPES) as [Hin|Hn].
    - split; [|split].
      + exact (symbols_and_keys_of_scan _ _ _ _ _ _ _ sym
                 (get_all_used_flags_value fs mod_path lowercase flag_type false
                    staged_files Hin)
                 (get_all_used_flags_value fs mod_path lowercase flag_type true
                    staged_files Hin)).
      + exact (symbols_and_keys_of_scan _ _ _ _ _ _ _ sym
                 (get_all_set_flags_value fs mod_path lowercase flag_type false
                    staged_files Hin)
                 (get_all_set_flags_value fs mod_path lowercase flag_type true
                    staged_files Hin)).
      + exact (symbols_and_keys_of_scan _ _ _ _ _ _ _ sym
                 (get_all_cleared_flags_value fs mod_path lowercase flag_type false
                    staged_files Hin)
                 (get_all_cleared_flags_value fs mod_path lowercase flag_type true
                    staged_files Hin)).
    - destruct (flag_extractors_raise fs mod_path lowercase flag_type
                  staged_files sym Hn) as ((-> & -> & ->) & (-> & -> & ->)).
      simpl. repeat split; intros; contradiction || congruence. }
  destruct Hflags as (H1 & H2 & H3).
  split; [exact H1|]. split; [exact H2|]. split; [exact H3|].
  split; [|split; [|split; [|split]]].
  - exact (symbols_and_keys_of_scan _ _ _ _ _ _ _ sym
             (get_all_used_targets_value fs mod_path lowercase false staged_files)
             (get_all_used_targets_value fs mod_path lowercase true staged_files)).
  - exact (symbols_and_keys_of_scan _ _ _ _ _ _ _ sym
             (get_all_set_targets_value fs mod_path lowercase false staged_files)
             (get_all_set_targets_value fs mod_path lowercase true staged_files)).
  - exact (symbols_and_keys_of_scan _ _ _ _ _ _ _ sym
             (get_all_cleared_targets_value fs mod_path lowercase false staged_files)
             (get_all_cleared_targets_value fs mod_path lowercase true staged_files)).
  - exact (symbols_and_keys_of_scan _ _ _ _ _ _ _ sym
             (get_all_defined_localisations_value fs mod_path lowercase false
                staged_files)
             (get_all_defined_localisations_value fs mod_path lowercase true
                staged_files)).
  - exact (symbols_and_keys_of_scan_names _ _ _ _ _ _ sym
             (get_all_used_localisations_value set_order fs mod_path defined_names
                lowercase false staged_files)
             (get_all_used_localisations_value set_order fs mod_path defined_names
                lowercase true staged_files)).
Qed.

(** ** The scripted localisations in use *)

Lemma note_names_NoDup : forall filename text_file names acc,
    NoDup (fst acc) -> NoDup (fst (note_names filename text_file names acc)).
Proof.
  intros filename text_file names. induction names as [|n names IH]; intros acc H.
  - exact H.
  - rewrite note_names_cons. apply IH.
    destruct (mem n (fst acc)) eqn:Hm; simpl negb; cbv iota; [exact H|].
    destruct (str_in n text_file); [|exact H]. simpl.
    apply NoDup_app; [assumption | repeat constructor; auto |].
    intros a Ha [<-|[]]. apply mem_spec in Ha. congruence.
Qed.

Lemma scan_names_NoDup : forall fs lowercase names files acc,
    NoDup (fst acc) -> NoDup (fst (scan_names fs lowercase names files acc)).
Proof.
  intros fs lowercase names files. induction files as [|f files IH]; intros acc H.
  - exact H.
  - unfold scan_names in *. simpl. apply IH.
    destruct (skip_definitions f); [exact H | now apply note_names_NoDup].
Qed.

(** A name is listed exactly when a scanned file names it. *)
Lemma scan_names_fst : forall fs lowercase names files sym,
    In sym (fst (scan_names fs lowercase names files ([], [])))
    <-> exists f, In f files /\ named_in fs lowercase names sym f = true.
Proof.
  intros fs lowercase names files sym.
  assert (K := scan_names_keys_agree fs lowercase names files ([], [])
                 keys_agree_empty sym).
  rewrite <- mem_spec, K, scan_names_snd by apply keys_agree_empty.
  simpl. unfold first_file. split.
  - destruct (find _ files) as [f|] eqn:E; [intros _ | intros H; now elim H].
    apply find_some in E. now exists f.
  - intros (f & Hf & Hn). destruct (find _ files) as [g|] eqn:E; [discriminate|].
    rewrite find_none_iff in E. rewrite (E f Hf) in Hn. discriminate.
Qed.

Lemma symbols_of_value : forall (m : M (list string)) acc,
    value m = inr (give false acc) -> symbols_of m = fst acc.
Proof. intros m acc H. unfold symbols_of. now rewrite H. Qed.

(** X5. [get_all_used_localisations] returns each searched name that
    occurs in the text of some file it scans, and each such name once:
    the files in the ignored directories and the files whose path holds
    [scripted_localisation] do not count, and an unreadable file counts
    as an empty text. *)
Theorem used_localisations_are_the_names_met :
  forall (set_order : list string -> list string) (fs : filesystem)
         (mod_path : string) (defined_names : list string) (lowercase : bool)
         (staged_files : option (list string)),
    let search_names :=
      if lowercase then set_order (map lower defined_names) else defined_names in
    let used :=
      symbols_of
        (validate_scripted_localisation.ScriptedLocalisation.get_all_used_localisations
           set_order fs mod_path defined_names lowercase false staged_files) in
    NoDup used
    /\ forall sym,
        In sym used
        <-> In sym search_names
            /\ exists f,
                In f (validate_scripted_localisation.ScriptedLocalisation.used_files_to_scan
                        fs mod_path staged_files)
                /\ should_skip_file f = false
                /\ str_in "scripted_localisation" f = false
                /\ str_in sym (text_of fs f lowercase) = true.
Proof.
  intros set_order fs mod_path defined_names lowercase staged_files search_names used.
  assert (E : used
              = fst (scan_names fs lowercase search_names
                       (validate_scripted_localisation.ScriptedLocalisation.used_files_to_scan
                          fs mod_path staged_files) ([], []))).
  { exact (symbols_of_value _ _
               (get_all_used_localisations_value set_order fs mod_path defined_names
                  lowercase false staged_files)). }
  rewrite E. split; [apply scan_names_NoDup; constructor|].
  intros sym. rewrite scan_names_fst. unfold named_in, skip_definitions. split.
  - intros (f & Hf & H). apply andb_true_iff in H. destruct H as [H Htext].
    apply andb_true_iff in H. destruct H as [Hskip Hmem].
    apply negb_true_iff, orb_false_iff in Hskip. destruct Hskip as [Hs1 Hs2].
    split; [now apply mem_spec|]. now exists f.
  - intros (Hmem & f & Hf & Hs1 & Hs2 & Htext). exists f. split; [assumption|].
    apply mem_spec in Hmem. now rewrite Hs1, Hs2, Hmem, Htext.
Qed.

(** ** The findings of the scripted-localisation checks *)

Lemma lower_char_idem : forall c, lower_char (lower_char c) = lower_char c.
Proof.
  intros c; destruct c as [[|] [|] [|] [|] [|] [|] [|] [|]]; reflexivity.
Qed.

Lemma lower_idem : forall s, lower (lower s) = lower s.
Proof.
  induction s as [|c s IH]; simpl; [reflexivity|]. now rewrite lower_char_idem, IH.
Qed.

Lemma in_enumerate : forall {A} (l : list A) i x,
    In (i, x) (validate_scripted_localisation.enumerate l) -> In x l.
Proof.
  intros A l i x H. unfold validate_scripted_localisation.enumerate in H.
  now apply in_combine_r in H.
Qed.

Lemma scripted_finding_symbol :
  forall mod_path0 originals others paths locate line names false_positives d,
    In d (fst (fold_left
                 (scripted_step mod_path0 originals others paths locate line)
                 (validate_scripted_localisation.enumerate
                    (DataCleaner.clear_list (map lower names) false_positives))
                 ([], []))) ->
    In (d_symbol d) (map lower names)
    /\ flagged false_positives (d_symbol d) = false
    /\ mem (d_symbol d) others = false.
Proof.
  intros mod_path0 originals others paths locate line names false_positives d Hd.
  apply scripted_fold_sound in Hd.
  destruct Hd as [[]|(i & loc & p & Hin & Hl & _ & ->)]. simpl.
  apply in_enumerate in Hin. rewrite clear_list_filter in Hin.
  apply filter_In in Hin. destruct Hin as [Hin Hfl]. repeat split.
  - exact Hin.
  - now apply negb_true_iff.
  - unfold located_at in Hl. now destruct (mem loc others).
Qed.

Lemma scan_names_incl : forall fs lowercase names files sym,
    In sym (fst (scan_names fs lowercase names files ([], []))) -> In sym names.
Proof.
  intros fs lowercase names files sym H. apply scan_names_fst in H.
  destruct H as (f & _ & H). unfold named_in in H.
  apply andb_true_iff in H. destruct H as [H _].
  apply andb_true_iff in H. destruct H as [_ H]. now apply mem_spec.
Qed.

(** X6. The check for missing scripted localisations reports nothing,
    whatever the tree: it searches the files for the defined names
    only, so every name it finds in use is a defined one, and no name
    is left to report.  The iteration order of the set of defined names
    is free; the set holds defined names only. *)
Theorem missing_scripted_check_reports_nothing :
  forall (set_order : list string -> list string) (fs : filesystem)
         (self : validator) (false_positives : list string),
    (forall l x, In x (set_order l) -> In x l) ->
    value (validate_scripted_localisation.Validator.missing_results
             set_order fs self false_positives)
    = inr [].
Proof.
  intros set_order fs self false_positives Hset.
  rewrite missing_results_value. f_equal.
  destruct (missing_scripted_defects set_order fs (mod_path self) (staged_files self)
              false_positives) as [|d results] eqn:E; [reflexivity|].
  exfalso.
  assert (Hd : In d (missing_scripted_defects set_order fs (mod_path self)
                       (staged_files self) false_positives))
    by (rewrite E; now left).
  unfold missing_scripted_defects in Hd. cbv zeta in Hd.
  apply scripted_finding_symbol in Hd. destruct Hd as (Hin & _ & Hmem).
  apply in_map_iff in Hin. destruct Hin as (u & Hu & Hin).
  apply scan_names_incl, Hset in Hin.
  assert (Hl : mem (d_symbol d)
                 (map lower
                    (fst (scan fs false skip_FR_loc defined_locs_in
                            (validate_scripted_localisation.ScriptedLocalisation.defined_files_to_scan
                               fs (mod_path self) (staged_files self)) ([], []))))
               = true).
  { apply mem_spec. rewrite <- Hu. now apply in_map. }
  congruence.
Qed.

Lemma missing_scripted_check_is_silent_on_a_tree :
  value (validate_scripted_localisation.Validator.missing_results
           first_occurrences tree_with_scripted_name walker
           validate_scripted_localisation.Validator.FALSE_POSITIVES)
  = inr [].
Proof.
  apply (missing_scripted_check_reports_nothing first_occurrences).
  intros l x H. unfold first_occurrences in H. now apply nodup_In in H.
Defined.

(** X7. Both checks of [validate_scripted_localisation.py] report a
    symbol in lower case, whatever its spelling in the files, never a
    symbol in which a false-positive rule occurs, and no symbol twice;
    the check for unused definitions reports lowered defined names only,
    and none that is the lowered form of a name found in use. *)
Theorem scripted_findings_are_lowered_names :
  forall (set_order : list string -> list string) (fs : filesystem)
         (self : validator) (false_positives : list string),
    let missing :=
      results_of (validate_scripted_localisation.Validator.missing_results
                    set_order fs self false_positives) in
    let unused :=
      results_of (validate_scripted_localisation.Validator.unused_results
                    set_order fs self false_positives) in
    NoDup (map d_symbol missing)
    /\ Forall (fun d => lower (d_symbol d) = d_symbol d
                        /\ flagged false_positives (d_symbol d) = false)
         missing
    /\ NoDup (map d_symbol unused)
    /\ Forall (fun d => lower (d_symbol d) = d_symbol d
                        /\ flagged false_positives (d_symbol d) = false
                        /\ In (d_symbol d)
                             (map lower
                                (fst (defined_occurrences fs (mod_path self)
                                        (staged_files self))))
                        /\ ~ In (d_symbol d)
                               (map lower
                                  (fst (used_occurrences set_order fs (mod_path self)
                                          (staged_files self)))))
         unused.
Proof.
  intros set_order fs self false_positives missing unused.
  unfold missing, unused, results_of.
  rewrite missing_results_value, unused_results_value.
  split; [|split; [|split]].
  - unfold missing_scripted_defects. cbv zeta.
    apply fold_scripted_step_listed_once. split; [constructor | intros d []].
  - rewrite Forall_forall. intros d Hd.
    unfold missing_scripted_defects in Hd. cbv zeta in Hd.
    apply scripted_finding_symbol in Hd. destruct Hd as (Hin & Hfl & _).
    split; [|exact Hfl]. apply in_map_iff in Hin. destruct Hin as (u & <- & _).
    apply lower_idem.
  - unfold unused_scripted_defects. cbv zeta.
    apply fold_scripted_step_listed_once. split; [constructor | intros d []].
  - rewrite Forall_forall. intros d Hd.
    unfold unused_scripted_defects in Hd. cbv zeta in Hd.
    apply scripted_finding_symbol in Hd. destruct Hd as (Hin & Hfl & Hmem).
    split; [|split; [exact Hfl|split; [exact Hin|]]].
    + apply in_map_iff in Hin. destruct Hin as (u & <- & _). apply lower_idem.
    + intros H. apply mem_spec in H. unfold used_occurrences, defined_occurrences in H.
      congruence.
Qed.

(** ** Colour codes around plain text *)

Lemma re_match_not_esc : forall c s,
    is_esc c = false -> re_match ansi_pattern (String c s) = None.
Proof.
  intros c s H. unfold is_esc in H. unfold ansi_pattern, ESC, chr.
  cbn [re_match strip_prefix append]. rewrite Ascii.eqb_sym, H. reflexivity.
Qed.

Lemma sub_from_empty : sub_from ansi_pattern 0 "" = "".
Proof. reflexivity. Qed.

(** Plain text before the rest of a message stays as it is. *)
Lemma sub_from_plain : forall text rest,
    esc_free text = true ->
    sub_from ansi_pattern 0 (text ++ rest) = text ++ sub_from ansi_pattern 0 rest.
Proof.
  unfold esc_free. induction text as [|c text IH]; intros rest H; [reflexivity|].
  simpl in H. apply andb_true_iff in H. destruct H as [Hc H].
  apply negb_true_iff in Hc.
  change (String c text ++ rest) with (String c (text ++ rest)).
  cbn [sub_from]. rewrite (re_match_not_esc c _ Hc). simpl. now rewrite IH.
Qed.

Lemma sub_from_match : forall its c s g rest n,
    re_match its (String c s) = Some (g, rest) ->
    String.length (String c s) - String.length rest = S n ->
    sub_from its 0 (String c s) = sub_from its n s.
Proof. intros its c s g rest n Hm Hl. cbn [sub_from]. now rewrite Hm, Hl. Qed.

(** A colour code before the rest of a message is deleted. *)
Lemma sub_from_code : forall code rest,
    In code colour_codes ->
    sub_from ansi_pattern 0 (code ++ rest) = sub_from ansi_pattern 0 rest.
Proof.
  intros code rest H. unfold colour_codes in H. cbn [In] in H.
  repeat (destruct H as [<-|H];
          [ match goal with
            | |- sub_from _ 0 (?c ++ rest) = _ =>
                let s := eval cbv in c in
                change (c ++ rest) with (s ++ rest)
            end;
            cbn [append];
            first
              [ solve [ erewrite (sub_from_match _ _ _ _ _ 4);
                        [ reflexivity | reflexivity | cbn [String.length]; lia ] ]
              | solve [ erewrite (sub_from_match _ _ _ _ _ 3);
                        [ reflexivity | reflexivity | cbn [String.length]; lia ] ] ]
          | ]).
  contradiction.
Qed.

Lemma string_of_uint_esc_free : forall u,
    esc_free (NilEmpty.string_of_uint u) = true.
Proof. induction u; simpl; auto. Qed.

Lemma str_of_nat_esc_free : forall n, esc_free (str_of_nat n) = true.
Proof. intros n. apply string_of_uint_esc_free. Qed.

Lemma strip_ansi_plain : forall text, esc_free text = true -> strip_ansi text = text.
Proof.
  intros text H. unfold strip_ansi, re_sub_empty.
  rewrite <- (append_empty_r text) at 1.
  now rewrite sub_from_plain, sub_from_empty, append_empty_r.
Qed.

Lemma in_colour_codes :
  In Colors.YELLOW colour_codes /\ In Colors.ENDC colour_codes.
Proof. split; unfold colour_codes; simpl; tauto. Qed.

(** X8. The line [log] keeps for the output file is the message as it
    would be without colours, when the text inside holds no escape
    character: a text between a colour code and the reset code is kept
    as the text alone, the line of a finding is kept as [render] gives
    it without colours, and a plain text is kept unchanged.  So the
    output file does not depend on [--no-color]. *)
Theorem stored_line_is_the_message_without_colours :
  forall (self : validator),
    (forall text, esc_free text = true -> strip_ansi text = text)
    /\ (forall code text lv,
           In code colour_codes ->
           esc_free text = true ->
           strip_ansi (col self code ++ text ++ col self Colors.ENDC) = text
           /\ value (log self (col self code ++ text ++ col self Colors.ENDC) lv)
              = inr (set_output_lines self (output_lines self ++ [text])%list))
    /\ (forall result,
           esc_free (d_file result) = true ->
           esc_free (d_symbol result) = true ->
           strip_ansi (render self result) = plain_render result).
Proof.
  intros self. split; [exact strip_ansi_plain|].
  destruct in_colour_codes as [HY HE].
  assert (Hlast : forall text, esc_free text = true ->
                               sub_from ansi_pattern 0 text = text).
  { exact strip_ansi_plain. }
  split.
  - intros code text lv Hcode Htext.
    assert (E : strip_ansi (col self code ++ text ++ col self Colors.ENDC) = text).
    { unfold strip_ansi, re_sub_empty, col. destruct (use_colors self).
      - rewrite sub_from_code by assumption.
        rewrite sub_from_plain by assumption.
        rewrite <- (append_empty_r Colors.ENDC).
        rewrite sub_from_code by assumption.
        now rewrite sub_from_empty, append_empty_r.
      - simpl. rewrite append_empty_r. now apply Hlast. }
    split; [exact E|]. now rewrite log_value, E.
  - intros result Hfile Hsym. unfold strip_ansi, re_sub_empty, render, plain_render, col.
    destruct (0 <? d_line result)%nat, (use_colors self);
      repeat first
        [ rewrite (sub_from_plain "  ") by reflexivity
        | rewrite (sub_from_plain ":") by reflexivity
        | rewrite (sub_from_plain " - ") by reflexivity
        | rewrite (sub_from_plain "") by reflexivity
        | rewrite (sub_from_plain (d_file result)) by assumption
        | rewrite (sub_from_plain (str_of_nat (d_line result)))
            by apply str_of_nat_esc_free
        | rewrite (sub_from_code Colors.YELLOW) by assumption
        | rewrite (sub_from_code Colors.ENDC) by assumption ];
      rewrite ?(Hlast _ Hsym); reflexivity.
Qed.

(** ** What the exit status does not depend on *)

Lemma run_main_status_any :
  forall get_staged_files run_all_validations
         (total : string -> option (list string) -> nat) fs args,
    (forall self, value (run_all_validations fs self)
                  = inr (errors_found self
                         + total (mod_path self) (staged_files self))) ->
    fst (run_main get_staged_files run_all_validations fs args)
    = if negb (fs_exists fs (arg_path args)) then 1
      else if negb (fs_is_dir fs (arg_path args)) then 1
           else match staged_answer get_staged_files fs args with
                | inl _ => 1
                | inr staged =>
                    if arg_strict args && (0 <? total (root_of args) staged)%nat
                    then 1 else 0
                end.
Proof.
  intros get_staged_files run_all_validations total fs args Hrun.
  destruct (fs_exists fs (arg_path args)) eqn:Hex;
    [|unfold run_main; now rewrite Hex].
  destruct (fs_is_dir fs (arg_path args)) eqn:Hdir;
    [|unfold run_main; now rewrite Hex, Hdir].
  simpl negb. cbv iota.
  assert (Hv := run_of_value get_staged_files run_all_validations total fs args Hrun).
  destruct (staged_answer get_staged_files fs args) as [e|staged].
  - eapply run_main_uncaught; eassumption.
  - now apply run_main_status.
Qed.

(** X9. The exit status of either script depends on the tree, on the
    path, on [--strict] and on [--staged] only: another [--output],
    another [--no-color], or a failure to write the output file, leave
    it as it is. *)
Theorem exit_status_ignores_the_report_options :
  forall (set_order : list string -> list string) (fs : filesystem)
         (args : cli_args) (output : option string) (no_color : bool)
         (err : string -> option string),
    fst (validate_variables.main (with_write_err fs err)
           (with_report_options args output no_color))
    = fst (validate_variables.main fs args)
    /\ fst (validate_scripted_localisation.main set_order (with_write_err fs err)
              (with_report_options args output no_color))
       = fst (validate_scripted_localisation.main set_order fs args).
Proof.
  intros set_order fs args output no_color err.
  unfold validate_variables.main, validate_scripted_localisation.main.
  rewrite (run_main_status_any validate_variables.get_staged_files
             validate_variables.Validator.run_all_validations
             (fun mp st => List.length (variables_defects fs mp st))
             fs args (run_all_variables_value fs)).
  rewrite (run_main_status_any validate_variables.get_staged_files
             validate_variables.Validator.run_all_validations
             (fun mp st => List.length
                             (variables_defects (with_write_err fs err) mp st))
             (with_write_err fs err) (with_report_options args output no_color)
             (run_all_variables_value (with_write_err fs err))).
  rewrite (run_main_status_any validate_scripted_localisation.get_staged_files
             (validate_scripted_localisation.Validator.run_all_validations set_order)
             (fun mp st => List.length (scripted_defects set_order fs mp st))
             fs args (run_all_scripted_value set_order fs)).
  rewrite (run_main_status_any validate_scripted_localisation.get_staged_files
             (validate_scripted_localisation.Validator.run_all_validations set_order)
             (fun mp st => List.length
                             (scripted_defects set_order (with_write_err fs err) mp st))
             (with_write_err fs err) (with_report_options args output no_color)
             (run_all_scripted_value set_order (with_write_err fs err))).
  split; reflexivity.
Qed.

(** ** A tree below an ignored directory *)

Lemma replace_char_app : forall a b s t,
    replace_char a b (s ++ t) = replace_char a b s ++ replace_char a b t.
Proof.
  intros a b s t. induction s as [|c s IH]; simpl; [reflexivity|]. now rewrite IH.
Qed.

Lemma str_in_app_l : forall f a b, str_in f a = true -> str_in f (a ++ b) = true.
Proof.
  intros f a b H. apply str_in_spec. apply is_substring_app_l. now apply str_in_spec.
Qed.

Lemma prefix_app_l : forall p a b, prefix p a = true -> prefix p (a ++ b) = true.
Proof.
  intros p a b H. apply prefix_spec in H. destruct H as (x & ->).
  apply prefix_spec. exists (x ++ b). apply append_assoc.
Qed.

(** What lies below a skipped path is skipped. *)
Lemma should_skip_file_app : forall p r,
    should_skip_file p = true -> should_skip_file (p ++ r) = true.
Proof.
  intros p r H. unfold should_skip_file in *. cbv zeta in *.
  apply existsb_exists in H. destruct H as (d & Hd & H).
  apply existsb_exists. exists d. split; [assumption|].
  rewrite replace_char_app. apply orb_true_iff in H. apply orb_true_iff.
  destruct H as [H|H]; [left; now apply str_in_app_l|right].
  unfold startswith in *. now apply prefix_app_l.
Qed.

Lemma iglob_rec_skipped : forall fs root ext p,
    should_skip_file root = true -> In p (iglob_rec fs root ext) ->
    should_skip_file p = true.
Proof.
  intros fs root ext p Hroot Hp. apply in_iglob_rec in Hp.
  destruct Hp as (rel & -> & _). now apply should_skip_file_app.
Qed.

Lemma glob_dir_skipped : forall fs dir ext p,
    should_skip_file dir = true -> In p (glob_dir fs dir ext) ->
    should_skip_file p = true.
Proof.
  intros fs dir ext p Hdir Hp. unfold glob_dir in Hp. apply filter_In in Hp.
  destruct Hp as [_ Hp]. destruct (strip_prefix dir p) as [name|] eqn:E; [|discriminate].
  apply strip_prefix_spec in E. subst p. now apply should_skip_file_app.
Qed.

Lemma path_join_skipped : forall a b,
    startswith b "/" = false -> should_skip_file a = true ->
    should_skip_file (path_join a b) = true.
Proof.
  intros a b Hb Ha. unfold path_join. rewrite Hb.
  destruct (String.eqb a "" || endswith a "/"); now apply should_skip_file_app.
Qed.

Lemma scan_all_skipped : forall fs lowercase (skip : string -> bool) found files acc,
    (forall f, In f files -> skip f = true) ->
    scan fs lowercase skip found files acc = acc.
Proof.
  intros fs lowercase skip found files. induction files as [|f files IH]; intros acc H.
  - reflexivity.
  - unfold scan in *. cbn [fold_left]. rewrite (H f (or_introl eq_refl)).
    apply IH. intros; apply H; now right.
Qed.

Lemma scan_names_all_skipped : forall fs lowercase names files acc,
    (forall f, In f files -> should_skip_file f = true) ->
    scan_names fs lowercase names files acc = acc.
Proof.
  intros fs lowercase names files. induction files as [|f files IH]; intros acc H.
  - reflexivity.
  - assert (Hf : skip_definitions f = true).
    { unfold skip_definitions. now rewrite (H f (or_introl eq_refl)). }
    unfold scan_names in *. cbn [fold_left]. rewrite Hf.
    apply IH. intros; apply H; now right.
Qed.

Lemma occurrences_skipped : forall fs mod_path0 (skip : string -> bool) found,
    should_skip_file mod_path0 = true ->
    (forall f, should_skip_file f = true -> skip f = true) ->
    occurrences fs mod_path0 None skip found = ([], []).
Proof.
  intros fs mod_path0 skip found Hroot Hskip. unfold occurrences.
  apply scan_all_skipped. intros f Hf. apply Hskip.
  eapply iglob_rec_skipped; eassumption.
Qed.

Lemma variables_defects_skipped : forall fs mod_path0,
    should_skip_file mod_path0 = true -> variables_defects fs mod_path0 None = [].
Proof.
  intros fs mod_path0 Hroot.
  assert (H1 : forall found,
             occurrences fs mod_path0 None should_skip_file found = ([], []))
    by (intros; now apply occurrences_skipped).
  assert (H2 : forall found,
             occurrences fs mod_path0 None skip_tag_aliases found = ([], [])).
  { intros. apply occurrences_skipped; [assumption|].
    intros f Hf. unfold skip_tag_aliases. now rewrite Hf. }
  assert (Hc : forall flag_type R,
             cleared_flags_defects fs mod_path0 None flag_type R = []).
  { intros. unfold cleared_flags_defects. cbv zeta.
    now rewrite !H1, clear_list_filter. }
  assert (Hm : forall flag_type R,
             missing_flags_defects fs mod_path0 None flag_type R = []).
  { intros. unfold missing_flags_defects. cbv zeta.
    now rewrite !H1, clear_list_filter. }
  assert (Hu : forall flag_type R,
             unused_flags_defects fs mod_path0 None flag_type R = []).
  { intros. unfold unused_flags_defects. cbv zeta.
    now rewrite !H1, clear_list_filter. }
  unfold variables_defects, validate_variables.Validator.FLAG_RUNS.
  cbn [flat_map]. rewrite !Hc, !Hm, !Hu.
  unfold cleared_event_targets_defects, missing_event_targets_defects,
    unused_event_targets_defects.
  cbv zeta. rewrite !H1, !H2, !clear_list_filter. reflexivity.
Qed.

Lemma scripted_defects_skipped : forall set_order fs mod_path0,
    should_skip_file mod_path0 = true ->
    scripted_defects set_order fs mod_path0 None = [].
Proof.
  intros set_order fs mod_path0 Hroot.
  assert (Hdef : forall found,
             scan fs false skip_FR_loc found
               (validate_scripted_localisation.ScriptedLocalisation.defined_files_to_scan
                  fs mod_path0 None) ([], []) = ([], [])).
  { intros found. apply scan_all_skipped. intros f Hf.
    unfold skip_FR_loc.
    unfold validate_scripted_localisation.ScriptedLocalisation.defined_files_to_scan in Hf.
    assert (Hdir : should_skip_file
                     (path_join (path_join (path_join mod_path0 "common")
                                           "scripted_localisation") "") = true)
      by (repeat apply path_join_skipped; auto).
    now rewrite (glob_dir_skipped _ _ _ _ Hdir Hf). }
  assert (Hused : forall names,
             scan_names fs false names
               (validate_scripted_localisation.ScriptedLocalisation.used_files_to_scan
                  fs mod_path0 None) ([], []) = ([], [])).
  { intros names. apply scan_names_all_skipped. intros f Hf.
    unfold validate_scripted_localisation.ScriptedLocalisation.used_files_to_scan in Hf.
    cbv zeta in Hf. apply in_app_or in Hf. destruct Hf as [Hf|Hf];
      [eapply iglob_rec_skipped; eassumption|].
    apply in_app_or in Hf. destruct Hf as [Hf|Hf];
      [eapply iglob_rec_skipped; eassumption|].
    eapply glob_dir_skipped; [|exact Hf]. now apply should_skip_file_app. }
  unfold scripted_defects, missing_scripted_defects, unused_scripted_defects.
  cbv zeta. rewrite !Hdef, !Hused, !clear_list_filter. reflexivity.
Qed.

(** X10. A tree that is, or lies below, an ignored directory ([gfx],
    [tools], [resources], [docs] or [map] is the name of the tree or of
    a directory above it) is not checked at all: [should_skip_file]
    tests the whole path of each file, so every file of the walk is
    passed over, every check finds nothing, and the process exits with
    status 0, also with [--strict]. *)
Theorem tree_below_an_ignored_directory_is_not_checked :
  forall (set_order : list string -> list string) (fs : filesystem) (args : cli_args),
    fs_exists fs (arg_path args) = true ->
    fs_is_dir fs (arg_path args) = true ->
    arg_staged args = false ->
    should_skip_file (root_of args) = true ->
    value (run_of validate_variables.get_staged_files
             validate_variables.Validator.run_all_validations fs args)
    = inr 0
    /\ value (run_of validate_scripted_localisation.get_staged_files
                (validate_scripted_localisation.Validator.run_all_validations set_order)
                fs args)
       = inr 0
    /\ fst (validate_variables.main fs args) = 0
    /\ fst (validate_scripted_localisation.main set_order fs args) = 0.
Proof.
  intros set_order fs args Hex Hdir Hstaged Hroot.
  assert (Rv := run_of_value validate_variables.get_staged_files
                  validate_variables.Validator.run_all_validations
                  (fun mp st => List.length (variables_defects fs mp st))
                  fs args (run_all_variables_value fs)).
  assert (Rs := run_of_value validate_scripted_localisation.get_staged_files
                  (validate_scripted_localisation.Validator.run_all_validations set_order)
                  (fun mp st => List.length (scripted_defects set_order fs mp st))
                  fs args (run_all_scripted_value set_order fs)).
  cbv beta in Rv, Rs. unfold staged_answer in Rv, Rs. rewrite Hstaged in Rv, Rs.
  rewrite variables_defects_skipped in Rv by assumption.
  rewrite scripted_defects_skipped in Rs by assumption.
  simpl in Rv, Rs.
  split; [exact Rv|]. split; [exact Rs|].
  unfold validate_variables.main, validate_scripted_localisation.main.
  rewrite (run_main_status _ _ _ fs args Rv Hex Hdir),
    (run_main_status _ _ _ fs args Rs Hex Hdir).
  now rewrite andb_false_r.
Qed.

Lemma checkout_below_tools_passes_a_strict_run :
  value (run_of validate_variables.get_staged_files
           validate_variables.Validator.run_all_validations
           tree_under_tools strict_run_under_tools)
  = inr 0
  /\ fst (validate_variables.main tree_under_tools strict_run_under_tools) = 0.
Proof.
  destruct (tree_below_an_ignored_directory_is_not_checked first_occurrences
              tree_under_tools strict_run_under_tools
              eq_refl eq_refl eq_refl eq_refl) as (H1 & _ & H2 & _).
  split; [exact H1 | exact H2].
Defined.

(** ** The files an extractor opens *)

Lemma trace_bind : forall {A B} (m : M A) (f : A -> M B),
    trace (bind m f) = match value m with
                       | inl _ => trace m
                       | inr a => (trace m ++ trace (f a))%list
                       end.
Proof.
  intros A B [[e|a] t] f; simpl; [reflexivity|]. now destruct (f a).
Qed.

Lemma opened_app : forall t1 t2, opened (t1 ++ t2) = (opened t1 ++ opened t2)%list.
Proof. intros. unfold opened. apply flat_map_app. Qed.

Lemma opened_bind_ret : forall {A B} (m : M A) (g : A -> B),
    opened (trace (bind m (fun a => ret (g a)))) = opened (trace m).
Proof.
  intros A B [[e|a] t] g; simpl; [reflexivity|]. now rewrite app_nil_r.
Qed.

Lemma opened_open_text_file : forall fs filename lowercase,
    opened (trace (FileOpener.open_text_file fs filename lowercase)) = [filename].
Proof.
  intros fs filename lowercase. unfold FileOpener.open_text_file.
  destruct (fs_read fs filename); [now destruct lowercase | reflexivity].
Qed.

Lemma for_each_opened :
  forall {A S} (f : S -> A -> M S) (g : A -> list string),
    (forall s x, (exists s', value (f s x) = inr s')
                 /\ opened (trace (f s x)) = g x) ->
    forall l s, opened (trace (for_each l s f)) = flat_map g l.
Proof.
  intros A S f g H l. induction l as [|x l IH]; intros s; [reflexivity|].
  cbn [for_each flat_map]. rewrite trace_bind.
  destruct (H s x) as [(s' & Hv) Ho]. rewrite Hv, opened_app, Ho. now rewrite IH.
Qed.

Lemma flat_map_let_through : forall (skip : string -> bool) files,
    flat_map (fun f => if skip f then [] else [f]) files = let_through skip files.
Proof.
  intros skip files. unfold let_through.
  induction files as [|f files IH]; simpl; [reflexivity|].
  rewrite IH. now destruct (skip f).
Qed.

Ltac open_body :=
  intros acc filename;
  repeat match goal with
         | |- context [should_skip_file ?f] => destruct (should_skip_file f)
         | |- context [str_in ?a filename] => destruct (str_in a filename)
         end;
  cbn [orb];
  try (split; [eexists; reflexivity | reflexivity]);
  rewrite value_bind, trace_bind, !open_text_file_value, opened_app,
    opened_open_text_file;
  repeat match goal with
         | |- context [if ?b then _ else _] => destruct b
         end;
  (split; [eexists; reflexivity | reflexivity]).

Lemma opened_by_scan :
  forall (return_paths : bool) (skip : string -> bool) files
         (body : list string * dict string -> string -> M (list string * dict string)),
    (forall acc filename,
        (exists acc', value (body acc filename) = inr acc')
        /\ opened (trace (body acc filename)) = if skip filename then [] else [filename]) ->
    opened (trace (acc <- for_each files ([], []) body ;; ret (give return_paths acc)))
    = let_through skip files.
Proof.
  intros return_paths skip files body H.
  rewrite opened_bind_ret, (for_each_opened body _ H). apply flat_map_let_through.
Qed.

(** X11. What an extractor opens: the files of its scan list that it
    does not pass over, each once and in the order of the list, and
    nothing else.  No extractor opens a file of an ignored directory;
    [get_all_set_targets] opens no [tag_aliases] file, and the
    extractors of the scripted localisations open neither the French
    definitions nor, for the uses, a file whose path holds
    [scripted_localisation].  A flag extractor called with an unknown
    flag type opens no file. *)
Theorem extractors_open_the_files_let_through :
  forall (set_order : list string -> list string) (fs : filesystem)
         (mod_path : string) (lowercase : bool) (flag_type : string)
         (defined_names : list string) (return_paths : bool)
         (staged_files : option (list string)),
    let txt_files := txt_files_to_scan fs mod_path staged_files in
    let flag_files :=
      if mem flag_type validate_variables.FLAG_TYPES
      then let_through should_skip_file txt_files else [] in
    opened (trace (validate_variables.Variables.get_all_used_flags
                     fs mod_path lowercase flag_type return_paths staged_files))
    = flag_files
    /\ opened (trace (validate_variables.Variables.get_all_set_flags
                        fs mod_path lowercase flag_type return_paths staged_files))
       = flag_files
    /\ opened (trace (validate_variables.Variables.get_all_cleared_flags
                        fs mod_path lowercase flag_type return_paths staged_files))
       = flag_files
    /\ opened (trace (validate_variables.EventTargets.get_all_used_targets
                        fs mod_path lowercase return_paths staged_files))
       = let_through should_skip_file txt_files
    /\ opened (trace (validate_variables.EventTargets.get_all_set_targets
                        fs mod_path lowercase return_paths staged_files))
       = let_through skip_tag_aliases txt_files
    /\ opened (trace (validate_variables.EventTargets.get_all_cleared_targets
                        fs mod_path lowercase return_paths staged_files))
       = let_through should_skip_file txt_files
    /\ opened
         (trace
            (validate_scripted_localisation.ScriptedLocalisation.get_all_defined_localisations
               fs mod_path lowercase return_paths staged_files))
       = let_through skip_FR_loc
           (validate_scripted_localisation.ScriptedLocalisation.defined_files_to_scan
              fs mod_path staged_files)
    /\ opened
         (trace
            (validate_scripted_localisation.ScriptedLocalisation.get_all_used_localisations
               set_order fs mod_path defined_names lowercase return_paths staged_files))
       = let_through skip_definitions
           (validate_scripted_localisation.ScriptedLocalisation.used_files_to_scan
              fs mod_path staged_files).
Proof.
  intros set_order fs mod_path lowercase flag_type defined_names return_paths
         staged_files txt_files flag_files.
  split; [|split; [|split; [|split; [|split; [|split; [|split]]]]]].
  - unfold validate_variables.Variables.get_all_used_flags, flag_files.
    destruct (mem flag_type validate_variables.FLAG_TYPES); [|reflexivity].
    apply opened_by_scan. open_body.
  - unfold validate_variables.Variables.get_all_set_flags, flag_files.
    destruct (mem flag_type validate_variables.FLAG_TYPES); [|reflexivity].
    apply opened_by_scan. open_body.
  - unfold validate_variables.Variables.get_all_cleared_flags, flag_files.
    destruct (mem flag_type validate_variables.FLAG_TYPES); [|reflexivity].
    apply opened_by_scan. open_body.
  - unfold validate_variables.EventTargets.get_all_used_targets.
    apply opened_by_scan. open_body.
  - unfold validate_variables.EventTargets.get_all_set_targets.
    apply opened_by_scan. unfold skip_tag_aliases. open_body.
  - unfold validate_variables.EventTargets.get_all_cleared_targets.
    apply opened_by_scan. open_body.
  - unfold validate_scripted_localisation.ScriptedLocalisation.get_all_defined_localisations.
    apply opened_by_scan. unfold skip_FR_loc. open_body.
  - unfold validate_scripted_localisation.ScriptedLocalisation.get_all_used_localisations.
    apply opened_by_scan. unfold skip_definitions. open_body.
Qed.

(** ** A target a localisation file names *)

Lemma named_fold_keeps : forall (named : string -> bool) cands used x,
    In x used ->
    In x (fold_left (fun used target => if named target
                                        then (used ++ [target])%list else used)
                    cands used).
Proof.
  intros named cands. induction cands as [|c cands IH]; intros used x H; [exact H|].
  simpl. apply IH. destruct (named c); [apply in_or_app; now left | exact H].
Qed.

Lemma named_fold_adds : forall (named : string -> bool) cands used x,
    In x cands -> named x = true ->
    In x (fold_left (fun used target => if named target
                                        then (used ++ [target])%list else used)
                    cands used).
Proof.
  intros named cands. induction cands as [|c cands IH]; intros used x Hin Hn;
    [contradiction|].
  simpl. destruct Hin as [->|Hin]; [|now apply IH].
  apply named_fold_keeps. rewrite Hn. apply in_or_app. right. now left.
Qed.

Lemma named_in_loc_keeps : forall fs potential_results yml_files used x,
    In x used ->
    In x (fold_left
            (fun used filename =>
               if should_skip_file filename then used
               else
                 let text_file := text_of fs filename true in
                 if str_in ".get" text_file then
                   fold_left
                     (fun used target =>
                        if str_in ("[" ++ target ++ ".getname") text_file
                           || str_in ("[" ++ target ++ ".getadjective") text_file
                        then (used ++ [target])%list else used)
                     (filter (fun i => negb (mem i used)) potential_results) used
                 else used)
            yml_files used).
Proof.
  intros fs potential_results yml_files.
  induction yml_files as [|f yml_files IH]; intros used x H; [exact H|].
  cbn [fold_left]. apply IH. destruct (should_skip_file f); [exact H|].
  cbv zeta. destruct (str_in ".get" (text_of fs f true)); [|exact H].
  now apply (named_fold_keeps
               (fun target =>
                  str_in ("[" ++ target ++ ".getname") (text_of fs f true)
                  || str_in ("[" ++ target ++ ".getadjective") (text_of fs f true))).
Qed.

Lemma named_in_loc_adds : forall fs potential_results target f yml_files used,
    In target potential_results ->
    In f yml_files ->
    should_skip_file f = false ->
    str_in ".get" (text_of fs f true) = true ->
    str_in ("[" ++ target ++ ".getname") (text_of fs f true)
    || str_in ("[" ++ target ++ ".getadjective") (text_of fs f true) = true ->
    In target
       (fold_left
          (fun used filename =>
             if should_skip_file filename then used
             else
               let text_file := text_of fs filename true in
               if str_in ".get" text_file then
                 fold_left
                   (fun used target =>
                      if str_in ("[" ++ target ++ ".getname") text_file
                         || str_in ("[" ++ target ++ ".getadjective") text_file
                      then (used ++ [target])%list else used)
                   (filter (fun i => negb (mem i used)) potential_results) used
               else used)
          yml_files used).
Proof.
  intros fs potential_results target f yml_files.
  induction yml_files as [|g yml_files IH]; intros used Hpot Hf Hskip Hget Hnamed;
    [contradiction|].
  cbn [fold_left]. destruct Hf as [->|Hf]; [|now apply IH].
  apply named_in_loc_keeps. rewrite Hskip. cbv zeta. rewrite Hget.
  destruct (mem target used) eqn:Hm.
  - apply (named_fold_keeps
             (fun target =>
                str_in ("[" ++ target ++ ".getname") (text_of fs f true)
                || str_in ("[" ++ target ++ ".getadjective") (text_of fs f true))).
    now apply mem_spec.
  - apply (named_fold_adds
             (fun target =>
                str_in ("[" ++ target ++ ".getname") (text_of fs f true)
                || str_in ("[" ++ target ++ ".getadjective") (text_of fs f true)));
      [|exact Hnamed].
    apply filter_In. split; [assumption|]. now rewrite Hm.
Qed.

Lemma named_in_loc_complete : forall fs yml_files potential_results target f,
    In target potential_results ->
    In f yml_files ->
    should_skip_file f = false ->
    str_in ("[" ++ target ++ ".getname") (text_of fs f true)
    || str_in ("[" ++ target ++ ".getadjective") (text_of fs f true) = true ->
    In target (named_in_loc fs yml_files potential_results).
Proof.
  intros fs yml_files potential_results target f Hpot Hf Hskip Hnamed.
  assert (Hget : str_in ".get" (text_of fs f true) = true).
  { apply str_in_spec. apply orb_true_iff in Hnamed.
    destruct Hnamed as [H|H]; apply str_in_spec in H;
      (eapply is_substring_trans; [|exact H]).
    - exists ("[" ++ target), "name". now rewrite !append_assoc.
    - exists ("[" ++ target), "adjective". now rewrite !append_assoc. }
  unfold named_in_loc. now apply (named_in_loc_adds fs potential_results target f).
Qed.

Lemma lower_app : forall a b, lower (a ++ b) = lower a ++ lower b.
Proof. intros a b. induction a as [|c a IH]; simpl; [reflexivity|]. now rewrite IH. Qed.

Lemma is_substring_lower : forall f k,
    is_substring f k -> is_substring (lower f) (lower k).
Proof.
  intros f k (a & b & ->). exists (lower a), (lower b). now rewrite !lower_app.
Qed.

(** X12. The check for unused event targets does not report a target
    that a localisation file names.  The file is read in lower case and
    the target is looked for as it was saved, so the letter case of the
    call does not matter and that of the target does: when some [.yml]
    file of the scan, outside the ignored directories, holds a text
    that reads [[target.getname] or [[target.getadjective] once its
    letters are folded to lower case ([[hero.GetName],
    [[HERO.GETADJECTIVE], ...), no finding carries the target.  The
    target is a name in ASCII, whose letters [lower] folds as Python
    does. *)
Theorem target_named_in_localisation_is_not_reported :
  forall (fs : filesystem) (self : validator) (target f content spelling : string),
    In f (yml_files_of fs (mod_path self) (staged_files self)) ->
    should_skip_file f = false ->
    fs_read fs f = ReadOk content ->
    ascii_only target = true ->
    lower spelling = "[" ++ target ++ ".getname"
    \/ lower spelling = "[" ++ target ++ ".getadjective" ->
    str_in spelling content = true ->
    Forall (fun d => d_symbol d <> target)
      (results_of (validate_variables.Validator.unused_event_targets_results fs self)).
Proof.
  intros fs self target f content spelling Hf Hskip Hread _ Hspelt Hnamed.
  assert (Hn : str_in ("[" ++ target ++ ".getname") (text_of fs f true)
               || str_in ("[" ++ target ++ ".getadjective") (text_of fs f true)
               = true).
  { unfold text_of. rewrite Hread. apply orb_true_iff.
    apply str_in_spec, is_substring_lower, str_in_spec in Hnamed.
    destruct Hspelt as [E|E]; rewrite E in Hnamed; [now left | now right]. }
  unfold results_of. rewrite unused_event_targets_results_value.
  rewrite Forall_forall. intros d Hd Heq.
  unfold unused_event_targets_defects in Hd. cbv zeta in Hd.
  apply (defects_for_located2 fs (mod_path self) _ _
           (fun target => "save_event_target_as = " ++ target)
           (fun target => "save_global_event_target_as = " ++ target)) in Hd.
  destruct Hd as (sym & p & Hsym & _ & _ & ->). simpl in Heq. subst sym.
  apply filter_In in Hsym. destruct Hsym as [Hpot Hkeep].
  apply negb_true_iff in Hkeep.
  assert (Hin := named_in_loc_complete fs _ _ target f Hpot Hf Hskip Hn).
  apply mem_spec in Hin. congruence.
Qed.

Lemma named_hero_is_not_reported :
  Forall (fun d => d_symbol d <> "hero")
    (results_of (validate_variables.Validator.unused_event_targets_results
                   tree_with_shouted_call walker))
  /\ Forall (fun d => d_symbol d <> "hero")
       (results_of (validate_variables.Validator.unused_event_targets_results
                      tree_with_lowercase_target walker)).
Proof.
  split.
  - apply (target_named_in_localisation_is_not_reported tree_with_shouted_call
             walker "hero" "/mod/localisation/l_english.yml"
             (" key:0 " ++ DQUOTE ++ "[HERO.GETADJECTIVE] army" ++ DQUOTE ++ NL)
             "[HERO.GETADJECTIVE").
    + vm_compute. now left.
    + reflexivity.
    + reflexivity.
    + reflexivity.
    + right. reflexivity.
    + reflexivity.
  - apply (target_named_in_localisation_is_not_reported tree_with_lowercase_target
             walker "hero" "/mod/localisation/l_english.yml"
             (" key:0 " ++ DQUOTE ++ "[hero.GetName] wins" ++ DQUOTE ++ NL)
             "[hero.GetName").
    + vm_compute. now left.
    + reflexivity.
    + reflexivity.
    + reflexivity.
    + left. reflexivity.
    + reflexivity.
Defined.

(** ** A new validator and its staged files *)

Lemma endswith_app : forall a s p, endswith s p = true -> endswith (a ++ s) p = true.
Proof.
  intros a s p H. induction a as [|c a IH]; [exact H|].
  change (String c a ++ s) with (String c (a ++ s)). cbn [endswith].
  rewrite IH. now destruct (String.eqb (String c (a ++ s)) p).
Qed.

Lemma endswith_path_join : forall a b e,
    endswith b e = true -> endswith (path_join a b) e = true.
Proof.
  intros a b e H. unfold path_join.
  destruct (startswith b "/"); [exact H|].
  destruct (String.eqb a "" || endswith a "/").
  - now apply endswith_app.
  - apply endswith_app. now apply (endswith_app "/").
Qed.

Lemma kept_path_ends : forall exts mod_path0 names p,
    In p (map (path_join mod_path0) (filter (kept exts) names)) ->
    existsb (fun e => endswith p e) exts = true.
Proof.
  intros exts mod_path0 names p Hp. apply in_map_iff in Hp.
  destruct Hp as (name & <- & Hname). apply filter_In in Hname.
  destruct Hname as [_ Hok]. apply andb_true_iff in Hok. destruct Hok as [_ Hext].
  apply existsb_exists in Hext. destruct Hext as (e & He & Hends).
  apply existsb_exists. exists e. split; [exact He|]. now apply endswith_path_join.
Qed.

Lemma Validator_init_new : forall exts fs mod_path0 output_file0 use_colors0 staged_only0,
    (staged_only0 = true -> forall ex, fs_git fs <> GitAbsent ex) ->
    exists v,
      value (Validator_init (get_staged_files_ext exts) fs mod_path0 output_file0
               use_colors0 staged_only0) = inr v
      /\ new_validator exts fs mod_path0 output_file0 use_colors0 staged_only0 v
           (trace (Validator_init (get_staged_files_ext exts) fs mod_path0
                     output_file0 use_colors0 staged_only0)).
Proof.
  intros exts fs mod_path0 output_file0 use_colors0 staged_only0 Hgit.
  unfold Validator_init, new_validator, kept_names, get_staged_files_ext. cbv zeta.
  set (mod_path1 := if endswith mod_path0 "/" then mod_path0 else mod_path0 ++ "/").
  assert (Hslash : endswith mod_path1 "/" = true).
  { unfold mod_path1. destruct (endswith mod_path0 "/") eqn:E; [exact E|].
    now apply endswith_app. }
  destruct staged_only0.
  - destruct (fs_git fs) as [names| |ex] eqn:Egit.
    + fold (kept exts).
      assert (Hends := kept_path_ends exts mod_path1 names).
      destruct (filter (kept exts) names) as [|name rest].
      * eexists. split; [reflexivity|]. cbn.
        repeat (split; [solve [auto | discriminate]|]).
        intros l p H. discriminate H.
      * eexists. split; [reflexivity|].
        cbn [mod_path staged_files errors_found output_file use_colors staged_only
               output_lines map].
        repeat (split; [solve [auto | discriminate]|]).
        intros l p H. injection H as <-. apply Hends.
    + eexists. split; [reflexivity|]. cbn.
      repeat (split; [solve [auto | discriminate]|]).
      intros l p H. discriminate H.
    + now elim (Hgit eq_refl ex).
  - eexists. split; [reflexivity|]. cbn.
    repeat (split; [solve [auto | discriminate]|]).
    intros l p H. discriminate H.
Qed.

(** X13. [Validator.__init__] of either script.  With [--staged] on a
    machine where git cannot be started it raises what [subprocess.run]
    raises, and logs nothing.  In every other case it returns a
    validator that keeps the output file, the colour setting and
    [--staged] as given, and the tree path with a slash appended unless
    it ends with one; no defect is counted and no line is stored.  Its
    staged files are the names git prints that are not empty and end
    with an accepted extension, in git's order, each joined to the tree
    path, and then nothing is logged; when there is no such name, that
    is without [--staged], when git fails, and when it prints no name
    that is accepted, they are [None], and with [--staged] the warning
    is logged, once.  The accepted extensions are [.txt] and [.yml], and
    [.gui] as well in [validate_scripted_localisation.py]; every staged
    file of the validator ends with one of them, and its staged files
    are never an empty list. *)
Theorem new_validator_and_its_staged_files :
  forall (fs : filesystem) (mod_path0 : string) (output_file0 : option string)
         (use_colors0 staged_only0 : bool),
    (forall ex, staged_only0 = true -> fs_git fs = GitAbsent ex ->
                Validator_init validate_variables.get_staged_files fs mod_path0
                  output_file0 use_colors0 staged_only0
                = (inl (OSError ex), [])
                /\ Validator_init validate_scripted_localisation.get_staged_files fs
                     mod_path0 output_file0 use_colors0 staged_only0
                   = (inl (OSError ex), []))
    /\ ((staged_only0 = true -> forall ex, fs_git fs <> GitAbsent ex) ->
        (exists v,
            value (Validator_init validate_variables.get_staged_files fs mod_path0
                     output_file0 use_colors0 staged_only0) = inr v
            /\ new_validator [".txt"; ".yml"] fs mod_path0 output_file0 use_colors0
                 staged_only0 v
                 (trace (Validator_init validate_variables.get_staged_files fs
                           mod_path0 output_file0 use_colors0 staged_only0)))
        /\ (exists v,
               value (Validator_init validate_scripted_localisation.get_staged_files
                        fs mod_path0 output_file0 use_colors0 staged_only0) = inr v
               /\ new_validator [".txt"; ".yml"; ".gui"] fs mod_path0 output_file0
                    use_colors0 staged_only0 v
                    (trace (Validator_init
                              validate_scripted_localisation.get_staged_files
                              fs mod_path0 output_file0 use_colors0 staged_only0)))).
Proof.
  intros. split.
  - intros ex -> Egit.
    unfold Validator_init, validate_variables.get_staged_files,
      validate_scripted_localisation.get_staged_files, get_staged_files_ext.
    cbv zeta. rewrite Egit. split; reflexivity.
  - intros Hgit. split; now apply Validator_init_new.
Qed.

Lemma validator_of_a_staged_tree :
  (exists v,
      value (Validator_init validate_variables.get_staged_files
               tree_with_staged_names "/mod" None false true) = inr v
      /\ staged_files v = Some ["/mod/events/a.txt"; "/mod/localisation/l_english.yml"])
  /\ (exists v,
         value (Validator_init validate_scripted_localisation.get_staged_files
                  tree_with_staged_names "/mod" None false true) = inr v
         /\ staged_files v
            = Some ["/mod/events/a.txt"; "/mod/interface/main.gui";
                    "/mod/localisation/l_english.yml"])
  /\ Validator_init validate_variables.get_staged_files
       tree_without_git "/mod" None false true
     = (inl (OSError "[Errno 2] No such file or directory: 'git'"), []).
Proof.
  destruct (new_validator_and_its_staged_files tree_with_staged_names "/mod" None
              false true) as [_ H].
  destruct H as [(v & Hv & Hn) (w & Hw & Hm)]; [discriminate|].
  split; [|split].
  - exists v. split; [exact Hv|].
    destruct Hn as (Hp & _ & _ & _ & _ & _ & _ & Hs & _).
    cbn in Hs. rewrite Hp in Hs. exact (proj1 Hs).
  - exists w. split; [exact Hw|].
    destruct Hm as (Hp & _ & _ & _ & _ & _ & _ & Hs & _).
    cbn in Hs. rewrite Hp in Hs. exact (proj1 Hs).
  - destruct (new_validator_and_its_staged_files tree_without_git "/mod" None
                false true) as [H _].
    exact (proj1 (H _ eq_refl eq_refl)).
Defined.

(** ** Symbols a false-positive rule matches *)

Lemma flagged_incl : forall R' R k,
    incl R' R -> flagged R k = false -> flagged R' k = false.
Proof.
  intros R' R k Hincl H. unfold flagged in *.
  destruct (existsb (fun f => str_in f k) R') eqn:E; [|reflexivity].
  apply existsb_exists in E. destruct E as (f & Hf & Hs).
  assert (existsb (fun f => str_in f k) R = true); [|congruence].
  apply existsb_exists. exists f. split; [now apply Hincl | exact Hs].
Qed.

Lemma defects_for_unflagged :
  forall (keep : string -> bool) paths (emitted : string -> string -> list defect)
         l R,
    (forall c b d, In d (emitted c b) -> d_symbol d = c) ->
    Forall (fun d => flagged R (d_symbol d) = false)
           (defects_for keep paths emitted (DataCleaner.clear_list l R)).
Proof.
  intros keep paths emitted l R Hsym. apply defects_for_Forall.
  intros c b Hc. rewrite Forall_forall. intros d Hd.
  rewrite (Hsym c b d Hd). rewrite clear_list_filter in Hc.
  apply filter_In in Hc. now apply negb_true_iff.
Qed.

Lemma emitted1_symbol : forall fs mod_path0 sym b probe d,
    In d (emitted1 fs mod_path0 sym b probe) -> d_symbol d = sym.
Proof.
  intros fs mod_path0 sym b probe d H. unfold emitted1 in H.
  destruct (full_path_of fs mod_path0 b probe) as [p|]; [|contradiction].
  destruct (truthy_str (Some p)); [|contradiction].
  now destruct H as [<-|[]].
Qed.

Lemma emitted2_symbol : forall fs mod_path0 sym b probe1 probe2 d,
    In d (emitted2 fs mod_path0 sym b probe1 probe2) -> d_symbol d = sym.
Proof.
  intros fs mod_path0 sym b probe1 probe2 d H. unfold emitted2 in H. cbv zeta in H.
  match type of H with
  | In _ (if truthy_str ?fp then _ else _) => destruct fp as [p|]
  end; [|contradiction].
  destruct (truthy_str (Some p)); [|contradiction].
  now destruct H as [<-|[]].
Qed.

Lemma generic_rules_in_every_row :
  Forall (fun row =>
            match row with
            | (_, fp_cleared, fp_missing, fp_unused) =>
                incl validate_variables.Validator.FALSE_POSITIVES_GENERIC fp_cleared
                /\ incl validate_variables.Validator.FALSE_POSITIVES_GENERIC fp_missing
                /\ incl validate_variables.Validator.FALSE_POSITIVES_GENERIC fp_unused
            end)
         validate_variables.Validator.FLAG_RUNS.
Proof.
  unfold validate_variables.Validator.FLAG_RUNS.
  repeat (apply Forall_cons;
          [repeat split; intros x Hx;
           unfold validate_variables.Validator.FALSE_POSITIVES_GENERIC in Hx;
           cbn [In] in Hx; destruct Hx as [<-|[<-|[<-|[]]]];
           apply mem_spec; reflexivity|]).
  apply Forall_nil.
Qed.

(** X14. No check of [validate_variables.py] reports a symbol in which
    one of its false-positive rules occurs.  In the run of all
    validations every list of rules of the flag checks holds [@], [[]
    and [{], so no flag with one of these characters is reported; the
    check for missing event targets reports no target with a dot; and
    the check for cleared event targets has no rule. *)
Theorem flagged_symbols_are_not_reported :
  forall (fs : filesystem) (self : validator),
    (forall flag_type false_positives,
        Forall (fun d => flagged false_positives (d_symbol d) = false)
          (results_of (validate_variables.Validator.cleared_flags_results
                         fs self flag_type false_positives))
        /\ Forall (fun d => flagged false_positives (d_symbol d) = false)
             (results_of (validate_variables.Validator.missing_flags_results
                            fs self flag_type false_positives))
        /\ Forall (fun d => flagged false_positives (d_symbol d) = false)
             (results_of (validate_variables.Validator.unused_flags_results
                            fs self flag_type false_positives)))
    /\ Forall
         (fun row =>
            match row with
            | (flag_type, fp_cleared, fp_missing, fp_unused) =>
                Forall (fun d => flagged ["@"; "["; "{"] (d_symbol d) = false)
                  (results_of (validate_variables.Validator.cleared_flags_results
                                 fs self flag_type fp_cleared)
                   ++ results_of (validate_variables.Validator.missing_flags_results
                                    fs self flag_type fp_missing)
                   ++ results_of (validate_variables.Validator.unused_flags_results
                                    fs self flag_type fp_unused))
            end)
         validate_variables.Validator.FLAG_RUNS
    /\ Forall (fun d => str_in "." (d_symbol d) = false)
         (results_of (validate_variables.Validator.missing_event_targets_results
                        fs self))
    /\ Forall (fun d => flagged ["wca_usa_floyd_olson"; "wca_usa_al_smith";
                                 "target_value"] (d_symbol d) = false)
         (results_of (validate_variables.Validator.unused_event_targets_results
                        fs self)).
Proof.
  intros fs self.
  assert (Hflags :
            forall flag_type false_positives,
              Forall (fun d => flagged false_positives (d_symbol d) = false)
                (results_of (validate_variables.Validator.cleared_flags_results
                               fs self flag_type false_positives))
              /\ Forall (fun d => flagged false_positives (d_symbol d) = false)
                   (results_of (validate_variables.Validator.missing_flags_results
                                  fs self flag_type false_positives))
              /\ Forall (fun d => flagged false_positives (d_symbol d) = false)
                   (results_of (validate_variables.Validator.unused_flags_results
                                  fs self flag_type false_positives))).
  { intros flag_type false_positives.
    destruct (in_dec string_dec flag_type validate_variables.FLAG_TYPES) as [Hin|Hn].
    2: { destruct (flag_results_raise fs self flag_type false_positives Hn)
           as (-> & -> & ->). repeat split; constructor. }
    unfold results_of.
    rewrite cleared_flags_results_value, missing_flags_results_value,
      unused_flags_results_value by assumption.
    split; [|split]; apply defects_for_unflagged; intros c b d;
      apply emitted1_symbol. }
  split; [exact Hflags|]. split; [|split].
  - assert (G := generic_rules_in_every_row). rewrite Forall_forall in *.
    intros [[[flag_type fp_cleared] fp_missing] fp_unused] Hrow.
    specialize (G _ Hrow). cbv beta iota in G. destruct G as (G1 & G2 & G3).
    rewrite Forall_forall. intros d Hd.
    destruct (Hflags flag_type fp_cleared) as (H1 & _ & _).
    destruct (Hflags flag_type fp_missing) as (_ & H2 & _).
    destruct (Hflags flag_type fp_unused) as (_ & _ & H3).
    rewrite Forall_forall in H1, H2, H3.
    apply in_app_or in Hd. destruct Hd as [Hd|Hd];
      [eapply flagged_incl; [exact G1 | now apply H1]|].
    apply in_app_or in Hd. destruct Hd as [Hd|Hd];
      [eapply flagged_incl; [exact G2 | now apply H2]
      |eapply flagged_incl; [exact G3 | now apply H3]].
  - unfold results_of. rewrite missing_event_targets_results_value.
    unfold missing_event_targets_defects. cbv zeta.
    eapply Forall_impl;
      [|apply defects_for_unflagged; intros c b d; apply emitted2_symbol].
    intros d H. simpl in H. now apply orb_false_iff in H.
  - unfold results_of. rewrite unused_event_targets_results_value.
    unfold unused_event_targets_defects. cbv zeta.
    apply defects_for_Forall. intros c b Hc. rewrite Forall_forall. intros d Hd.
    rewrite (emitted2_symbol _ _ _ _ _ _ _ Hd).
    apply filter_In in Hc. destruct Hc as [Hc _].
    rewrite clear_list_filter in Hc. apply filter_In in Hc.
    now apply negb_true_iff.
Qed.

(** ** Unreadable files and the checks of validate_variables.py *)

Lemma lookup_file_filter_out : forall (keep : string -> bool) path files,
    keep path = false ->
    lookup_file path (filter (fun pr => keep (fst pr)) files)
    = ReadErr "No such file or directory".
Proof.
  intros keep path files Hk. induction files as [|[p r] files IH]; simpl; [reflexivity|].
  destruct (keep p) eqn:E; simpl; [|exact IH].
  destruct (String.eqb_spec path p) as [->|]; [congruence | exact IH].
Qed.

Lemma fs_read_drop_readable : forall fs path,
    readable fs path = true -> fs_read (drop_unreadable fs) path = fs_read fs path.
Proof.
  intros fs path H. unfold fs_read, drop_unreadable. simpl.
  now rewrite lookup_file_filter.
Qed.

Lemma fs_read_drop_unreadable : forall fs path,
    readable fs path = false ->
    fs_read (drop_unreadable fs) path = ReadErr "No such file or directory".
Proof.
  intros fs path H. unfold fs_read, drop_unreadable. simpl.
  now apply (lookup_file_filter_out (readable fs)).
Qed.

Lemma text_of_drop_any : forall fs path lowercase,
    text_of (drop_unreadable fs) path lowercase = text_of fs path lowercase.
Proof.
  intros fs path lowercase. destruct (readable fs path) eqn:Hr.
  - now apply text_of_drop_unreadable.
  - rewrite (text_of_unreadable fs) by assumption.
    unfold text_of. now rewrite fs_read_drop_unreadable.
Qed.

Lemma holds_drop : forall fs item path,
    holds (drop_unreadable fs) item path = holds fs item path.
Proof.
  intros fs item path. unfold holds. destruct (readable fs path) eqn:Hr.
  - now rewrite fs_read_drop_readable.
  - rewrite fs_read_drop_unreadable by assumption.
    unfold readable in Hr. now destruct (fs_read fs path).
Qed.

Lemma line_of_drop : forall fs path pattern lowercase,
    line_of (drop_unreadable fs) path pattern lowercase
    = line_of fs path pattern lowercase.
Proof.
  intros fs path pattern lowercase. unfold line_of.
  destruct (readable fs path) eqn:Hr.
  - now rewrite fs_read_drop_readable.
  - rewrite fs_read_drop_unreadable by assumption.
    unfold readable in Hr. now destruct (fs_read fs path).
Qed.

Lemma find_filter : forall {A} (p q : A -> bool) l,
    (forall x, p x = true -> q x = true) -> find p (filter q l) = find p l.
Proof.
  intros A p q l H. induction l as [|x l IH]; simpl; [reflexivity|].
  destruct (q x) eqn:Hq; simpl.
  - now rewrite IH.
  - destruct (p x) eqn:Hp; [|exact IH]. rewrite (H x Hp) in Hq. discriminate.
Qed.

Lemma find_ext : forall {A} (p q : A -> bool) l,
    (forall x, p x = q x) -> find p l = find q l.
Proof.
  intros A p q l H. induction l as [|x l IH]; simpl; [reflexivity|].
  now rewrite H, IH.
Qed.

Lemma full_path_of_drop : forall fs mod_path0 basename0 item,
    full_path_of (drop_unreadable fs) mod_path0 basename0 item
    = full_path_of fs mod_path0 basename0 item.
Proof.
  intros fs mod_path0 basename0 item. unfold full_path_of.
  rewrite iglob_rec_drop_unreadable.
  rewrite (find_ext _ (fun filename =>
                         String.eqb (basename filename) basename0
                         && negb (should_skip_file filename)
                         && holds fs item filename))
    by (intros; now rewrite holds_drop).
  apply find_filter. intros x H. apply andb_true_iff in H. destruct H as [_ H].
  unfold holds in H. unfold readable. now destruct (fs_read fs x).
Qed.

Lemma emitted1_drop : forall fs mod_path0 sym b probe,
    emitted1 (drop_unreadable fs) mod_path0 sym b probe
    = emitted1 fs mod_path0 sym b probe.
Proof.
  intros. unfold emitted1. rewrite full_path_of_drop.
  destruct (full_path_of fs mod_path0 b probe); [|reflexivity].
  now rewrite line_of_drop.
Qed.

Lemma emitted2_drop : forall fs mod_path0 sym b probe1 probe2,
    emitted2 (drop_unreadable fs) mod_path0 sym b probe1 probe2
    = emitted2 fs mod_path0 sym b probe1 probe2.
Proof.
  intros. unfold emitted2. rewrite !full_path_of_drop. cbv zeta.
  match goal with
  | |- context [truthy_str ?fp] =>
      match fp with
      | (if _ then _ else _) => destruct fp; [|reflexivity]
      end
  end.
  now rewrite !line_of_drop.
Qed.

Lemma scan_ext_text : forall fs fs' lowercase skip found files acc,
    (forall f, text_of fs' f lowercase = text_of fs f lowercase) ->
    scan fs' lowercase skip found files acc = scan fs lowercase skip found files acc.
Proof.
  intros fs fs' lowercase skip found files acc H. revert acc.
  induction files as [|f files IH]; intros acc; [reflexivity|].
  unfold scan in *. cbn [fold_left]. now rewrite H, IH.
Qed.

Lemma occurrences_drop : forall fs mod_path0 staged skip found,
    (forall filename, found filename "" = []) ->
    occurrences (drop_unreadable fs) mod_path0 staged skip found
    = occurrences fs mod_path0 staged skip found.
Proof.
  intros fs mod_path0 staged skip found Hempty. unfold occurrences, txt_files_to_scan.
  destruct staged as [[|p l]|].
  - rewrite iglob_rec_drop_unreadable. symmetry. now apply scan_drop_unreadable.
  - apply scan_ext_text. intros. apply text_of_drop_any.
  - rewrite iglob_rec_drop_unreadable. symmetry. now apply scan_drop_unreadable.
Qed.

Lemma defects_for_ext : forall keep paths (e1 e2 : string -> string -> list defect) cands,
    (forall c b, e1 c b = e2 c b) ->
    defects_for keep paths e1 cands = defects_for keep paths e2 cands.
Proof.
  intros keep paths e1 e2 cands H. unfold defects_for.
  apply flat_map_ext. intros c. destruct (keep c); [|reflexivity].
  destruct (dict_get c paths); [apply H | reflexivity].
Qed.

Lemma named_in_loc_ext : forall fs fs' yml_files potential_results,
    (forall f, text_of fs' f true = text_of fs f true) ->
    named_in_loc fs' yml_files potential_results
    = named_in_loc fs yml_files potential_results.
Proof.
  intros fs fs' yml_files potential_results H. unfold named_in_loc.
  generalize (@nil string) at 2 4.
  induction yml_files as [|f yml_files IH]; intros used; [reflexivity|].
  cbn [fold_left]. now rewrite H, IH.
Qed.

Lemma named_in_loc_filter : forall fs yml_files potential_results,
    named_in_loc fs (filter (readable fs) yml_files) potential_results
    = named_in_loc fs yml_files potential_results.
Proof.
  intros fs yml_files potential_results. unfold named_in_loc.
  generalize (@nil string) at 2 4.
  induction yml_files as [|f yml_files IH]; intros used; [reflexivity|].
  cbn [filter]. destruct (readable fs f) eqn:Hr; cbn [fold_left]; [now rewrite IH|].
  rewrite IH. rewrite (text_of_unreadable fs f true Hr).
  now destruct (should_skip_file f).
Qed.

Lemma named_in_loc_drop : forall fs mod_path0 staged potential_results,
    named_in_loc (drop_unreadable fs) (yml_files_of (drop_unreadable fs) mod_path0 staged)
      potential_results
    = named_in_loc fs (yml_files_of fs mod_path0 staged) potential_results.
Proof.
  intros fs mod_path0 staged potential_results.
  rewrite (named_in_loc_ext fs) by (intros; apply text_of_drop_any).
  unfold yml_files_of. destruct staged as [[|p l]|]; try reflexivity;
    rewrite iglob_rec_drop_unreadable; apply named_in_loc_filter.
Qed.

Lemma flag_matches_of_empty_text : forall flag_type filename,
    used_flags_in flag_type filename "" = []
    /\ set_flags_in flag_type filename "" = []
    /\ cleared_flags_in flag_type filename "" = [].
Proof. intros. repeat split. Qed.

Lemma target_matches_of_empty_text : forall filename,
    used_targets_in filename "" = []
    /\ set_targets_in filename "" = []
    /\ cleared_targets_in filename "" = [].
Proof.
  intros. repeat split. unfold used_targets_in.
  now destruct (str_in "tag_aliases" filename).
Qed.

Lemma variables_defects_drop : forall fs mod_path0 staged,
    variables_defects (drop_unreadable fs) mod_path0 staged
    = variables_defects fs mod_path0 staged.
Proof.
  intros fs mod_path0 staged.
  assert (Hu : forall flag_type skip,
             occurrences (drop_unreadable fs) mod_path0 staged skip
               (used_flags_in flag_type)
             = occurrences fs mod_path0 staged skip (used_flags_in flag_type))
    by (intros; apply occurrences_drop; intros; apply flag_matches_of_empty_text).
  assert (Hs : forall flag_type skip,
             occurrences (drop_unreadable fs) mod_path0 staged skip
               (set_flags_in flag_type)
             = occurrences fs mod_path0 staged skip (set_flags_in flag_type))
    by (intros; apply occurrences_drop; intros; apply flag_matches_of_empty_text).
  assert (Hc : forall flag_type skip,
             occurrences (drop_unreadable fs) mod_path0 staged skip
               (cleared_flags_in flag_type)
             = occurrences fs mod_path0 staged skip (cleared_flags_in flag_type))
    by (intros; apply occurrences_drop; intros; apply flag_matches_of_empty_text).
  assert (Tu : forall skip,
             occurrences (drop_unreadable fs) mod_path0 staged skip used_targets_in
             = occurrences fs mod_path0 staged skip used_targets_in)
    by (intros; apply occurrences_drop; intros; apply target_matches_of_empty_text).
  assert (Ts : forall skip,
             occurrences (drop_unreadable fs) mod_path0 staged skip set_targets_in
             = occurrences fs mod_path0 staged skip set_targets_in)
    by (intros; apply occurrences_drop; intros; apply target_matches_of_empty_text).
  assert (Tc : forall skip,
             occurrences (drop_unreadable fs) mod_path0 staged skip cleared_targets_in
             = occurrences fs mod_path0 staged skip cleared_targets_in)
    by (intros; apply occurrences_drop; intros; apply target_matches_of_empty_text).
  assert (Fc : forall flag_type R,
             cleared_flags_defects (drop_unreadable fs) mod_path0 staged flag_type R
             = cleared_flags_defects fs mod_path0 staged flag_type R).
  { intros. unfold cleared_flags_defects. cbv zeta. rewrite Hc, Hs.
    apply defects_for_ext. intros. apply emitted1_drop. }
  assert (Fm : forall flag_type R,
             missing_flags_defects (drop_unreadable fs) mod_path0 staged flag_type R
             = missing_flags_defects fs mod_path0 staged flag_type R).
  { intros. unfold missing_flags_defects. cbv zeta. rewrite Hu, Hs.
    apply defects_for_ext. intros. apply emitted1_drop. }
  assert (Fu : forall flag_type R,
             unused_flags_defects (drop_unreadable fs) mod_path0 staged flag_type R
             = unused_flags_defects fs mod_path0 staged flag_type R).
  { intros. unfold unused_flags_defects. cbv zeta. rewrite Hu, Hs.
    apply defects_for_ext. intros. apply emitted1_drop. }
  assert (Ec : cleared_event_targets_defects (drop_unreadable fs) mod_path0 staged
               = cleared_event_targets_defects fs mod_path0 staged).
  { unfold cleared_event_targets_defects. cbv zeta. rewrite Tc, Ts.
    apply defects_for_ext. intros. apply emitted1_drop. }
  assert (Em : missing_event_targets_defects (drop_unreadable fs) mod_path0 staged
               = missing_event_targets_defects fs mod_path0 staged).
  { unfold missing_event_targets_defects. cbv zeta. rewrite Tu, Ts.
    apply defects_for_ext. intros. apply emitted2_drop. }
  assert (Eu : unused_event_targets_defects (drop_unreadable fs) mod_path0 staged
               = unused_event_targets_defects fs mod_path0 staged).
  { unfold unused_event_targets_defects. cbv zeta.
    rewrite Tu, Ts, named_in_loc_drop.
    apply defects_for_ext. intros. apply emitted2_drop. }
  unfold variables_defects, validate_variables.Validator.FLAG_RUNS.
  cbn [flat_map]. now rewrite !Fc, !Fm, !Fu, Ec, Em, Eu.
Qed.

(** X15. The files that cannot be read change nothing in the outcome of
    [validate_variables.py]: with or without [--staged], the run finds
    the same defects, returns the same count and exits with the same
    status as on the tree without these files.  Neither the extractors
    nor the Locator nor [find_line_number] raise on such a file, and
    none of them gives it a finding. *)
Theorem unreadable_files_do_not_change_the_run :
  forall (fs : filesystem) (self : validator) (args : cli_args),
    variables_defects (drop_unreadable fs) (mod_path self) (staged_files self)
    = variables_defects fs (mod_path self) (staged_files self)
    /\ ignores_unreadable
         (fun fs => validate_variables.Validator.run_all_validations fs self)
    /\ ignores_unreadable
         (fun fs => run_of validate_variables.get_staged_files
                      validate_variables.Validator.run_all_validations fs args)
    /\ fst (validate_variables.main (drop_unreadable fs) args)
       = fst (validate_variables.main fs args).
Proof.
  intros fs self args. split; [apply variables_defects_drop|]. split; [|split].
  - intros fs0. rewrite !run_all_variables_value. now rewrite variables_defects_drop.
  - intros fs0.
    rewrite (run_of_value validate_variables.get_staged_files
               validate_variables.Validator.run_all_validations
               (fun mp st => List.length (variables_defects fs0 mp st))
               fs0 args (run_all_variables_value fs0)).
    rewrite (run_of_value validate_variables.get_staged_files
               validate_variables.Validator.run_all_validations
               (fun mp st => List.length
                               (variables_defects (drop_unreadable fs0) mp st))
               (drop_unreadable fs0) args
               (run_all_variables_value (drop_unreadable fs0))).
    cbv beta.
    change (staged_answer validate_variables.get_staged_files (drop_unreadable fs0)
              args)
      with (staged_answer validate_variables.get_staged_files fs0 args).
    destruct (staged_answer validate_variables.get_staged_files fs0 args);
      [reflexivity|]. now rewrite variables_defects_drop.
  - unfold validate_variables.main.
    rewrite (run_main_status_any validate_variables.get_staged_files
               validate_variables.Validator.run_all_validations
               (fun mp st => List.length (variables_defects fs mp st))
               fs args (run_all_variables_value fs)).
    rewrite (run_main_status_any validate_variables.get_staged_files
               validate_variables.Validator.run_all_validations
               (fun mp st => List.length
                               (variables_defects (drop_unreadable fs) mp st))
               (drop_unreadable fs) args
               (run_all_variables_value (drop_unreadable fs))).
    cbv beta.
    change (fs_is_dir (drop_unreadable fs) (arg_path args))
      with (fs_is_dir fs (arg_path args)).
    change (staged_answer validate_variables.get_staged_files (drop_unreadable fs)
              args)
      with (staged_answer validate_variables.get_staged_files fs args).
    assert (E : forall staged,
               variables_defects (drop_unreadable fs) (root_of args) staged
               = variables_defects fs (root_of args) staged)
      by (intros; apply variables_defects_drop).
    destruct (staged_answer validate_variables.get_staged_files fs args)
      as [e|staged]; rewrite ?E.
    all: unfold fs_exists.
    all: change (fs_is_dir (drop_unreadable fs) (arg_path args))
           with (fs_is_dir fs (arg_path args)).
    all: destruct (fs_is_dir fs (arg_path args)); [reflexivity|]; cbn [orb negb].
    all: now destruct (mem (arg_path args) (map fst (fs_files fs))),
           (mem (arg_path args) (map fst (fs_files (drop_unreadable fs)))).
Qed.

(** ** Symbols the Locator always finds *)

Lemma plus_loop_taken : forall p k s acc g rest,
    plus_loop p k s acc = Some (g, rest) ->
    exists taken tail, g = acc ++ taken /\ s = taken ++ tail.
Proof.
  intros p k s. induction s as [|c s IH]; intros acc g rest H; [discriminate|].
  cbn [plus_loop] in H. destruct (p c); [|discriminate].
  destruct (plus_loop p k s (acc ++ String c "")) as [[g' rest']|] eqn:E.
  - injection H as <- <-. destruct (IH _ _ _ E) as (taken & tail & -> & ->).
    exists (String c taken), tail. split; [|reflexivity]. now rewrite append_assoc.
  - destruct (k s) as [[g' rest']|]; [|discriminate]. injection H as <- <-.
    now exists (String c ""), s.
Qed.

Lemma re_match_plain : forall l p s g rest,
    re_match [Lit l; Plus p] s = Some (g, rest) -> exists tail, s = l ++ g ++ tail.
Proof.
  intros l p s g rest H. cbn [re_match] in H.
  destruct (strip_prefix l s) as [s'|] eqn:E; [|discriminate].
  apply strip_prefix_spec in E. apply plus_loop_taken in H.
  destruct H as (taken & tail & -> & ->). exists tail. now subst s.
Qed.

(** Every match of a pattern made of a literal and its group follows
    the literal in the text. *)
Lemma findall_plain : forall l p s,
    Forall (fun g => is_substring (l ++ g) s) (findall [Lit l; Plus p] s).
Proof.
  intros l p s. unfold findall. generalize 0.
  induction s as [|c s IH]; intros skip.
  - destruct skip; cbn [findall_from]; [|constructor].
    destruct (re_match [Lit l; Plus p] "") as [[g rest]|] eqn:E; [|constructor].
    constructor; [|constructor]. apply re_match_plain in E. destruct E as (tail & E).
    exists "", tail. now rewrite append_assoc.
  - assert (Hrest : forall k, Forall (fun g => is_substring (l ++ g) (String c s))
                                     (findall_from [Lit l; Plus p] k s)).
    { intros k. eapply Forall_impl; [|apply IH]. intros g (a & b & ->).
      now exists (String c a), b. }
    destruct skip; cbn [findall_from]; [|apply Hrest].
    destruct (re_match [Lit l; Plus p] (String c s)) as [[g rest]|] eqn:E;
      [|apply Hrest].
    constructor; [|apply Hrest]. apply re_match_plain in E. destruct E as (tail & E).
    exists "", tail. now rewrite append_assoc.
Qed.

Lemma in_findall_plain : forall l p s g,
    In g (findall [Lit l; Plus p] s) -> str_in (l ++ g) s = true.
Proof.
  intros l p s g H. apply str_in_spec.
  assert (F := findall_plain l p s). rewrite Forall_forall in F. now apply F.
Qed.

(** The file recorded for a listed symbol is a file of the scan that is
    let through and holds a match of the symbol. *)
Lemma recorded_file : forall fs skip found files sym,
    In sym (fst (scan fs false skip found files ([], []))) ->
    exists f, In f files
              /\ dict_get sym (snd (scan fs false skip found files ([], [])))
                 = Some (basename f)
              /\ skip f = false
              /\ In sym (found f (text_of fs f false)).
Proof.
  intros fs skip found files sym H. apply scan_keys in H. rewrite scan_snd in *.
  unfold last_file in *.
  destruct (find (recorded_in fs false skip found sym) (rev files)) as [f|] eqn:E;
    [|now elim H].
  apply find_some in E. destruct E as [Hf Hrec]. apply in_rev in Hf.
  unfold recorded_in in Hrec. apply andb_true_iff in Hrec. destruct Hrec as [Hs Hm].
  exists f. repeat split; auto.
  - now apply negb_true_iff.
  - now apply mem_spec.
Qed.

Lemma text_holds : forall fs f probe,
    probe <> "" -> str_in probe (text_of fs f false) = true -> holds fs probe f = true.
Proof.
  intros fs f probe Hne H. unfold text_of in H. unfold holds.
  destruct (fs_read fs f); [exact H|].
  destruct probe; [congruence | discriminate].
Qed.

Lemma walked_path_not_empty : forall fs root p,
    In p (iglob_rec fs root ".txt") -> p <> "".
Proof.
  intros fs root p H. apply in_iglob_rec in H. destruct H as (rel & -> & _ & Hext).
  destruct rel; [discriminate|]. destruct root; discriminate.
Qed.

Lemma full_path_of_found : forall fs mod_path0 f probe,
    In f (iglob_rec fs mod_path0 ".txt") ->
    should_skip_file f = false ->
    holds fs probe f = true ->
    exists p, full_path_of fs mod_path0 (basename f) probe = Some p /\ p <> "".
Proof.
  intros fs mod_path0 f probe Hf Hskip Hholds. unfold full_path_of.
  destruct (find _ (iglob_rec fs mod_path0 ".txt")) as [p|] eqn:E.
  - exists p. split; [reflexivity|]. apply find_some in E.
    eapply walked_path_not_empty. exact (proj1 E).
  - exfalso. rewrite find_none_iff in E. specialize (E f Hf).
    now rewrite String.eqb_refl, Hskip, Hholds in E.
Qed.

Lemma located_symbol_is_listed :
  forall (results : list defect) survivors locate finding sym p,
    reports_the_located results survivors locate finding ->
    (forall s q, d_symbol (finding s q) = s) ->
    In sym survivors -> locate sym = Some p -> p <> "" ->
    In sym (map d_symbol results).
Proof.
  intros results survivors locate finding sym p H Hsym Hin Hl Hp.
  apply in_map_iff. exists (finding sym p). split; [apply Hsym|].
  apply H. now exists sym, p.
Qed.

(** X16. Walking the whole tree, the checks whose symbols come from
    plain patterns lose no symbol: in the checks for cleared flags, for
    cleared event targets and for unused event targets, every symbol
    that survives the set difference (and the filters) is located and
    reported.  The statement that defined the symbol is in the file
    recorded for it, so the Locator finds a file. *)
Theorem plain_pattern_checks_report_every_survivor :
  forall (fs : filesystem) (self : validator),
    staged_files self = None ->
    let mp := mod_path self in
    let set_targets := occurrences fs mp None skip_tag_aliases set_targets_in in
    let used_targets := occurrences fs mp None should_skip_file used_targets_in in
    let cleared_targets := occurrences fs mp None should_skip_file cleared_targets_in in
    (forall flag_type false_positives sym,
        In flag_type validate_variables.FLAG_TYPES ->
        In sym (DataCleaner.clear_list
                  (fst (occurrences fs mp None should_skip_file
                          (cleared_flags_in flag_type))) false_positives) ->
        ~ In sym (fst (occurrences fs mp None should_skip_file
                         (set_flags_in flag_type))) ->
        In sym (map d_symbol
                  (results_of (validate_variables.Validator.cleared_flags_results
                                 fs self flag_type false_positives))))
    /\ (forall sym,
           In sym (fst cleared_targets) ->
           ~ In sym (fst set_targets) ->
           In sym (map d_symbol
                     (results_of
                        (validate_variables.Validator.cleared_event_targets_results
                           fs self))))
    /\ (forall sym,
           let potential_results :=
             filter (fun target => negb (mem target (fst used_targets)))
               (DataCleaner.clear_list (fst set_targets)
                  ["wca_usa_floyd_olson"; "wca_usa_al_smith"; "target_value"]) in
           In sym potential_results ->
           ~ In sym (named_in_loc fs (yml_files_of fs mp None) potential_results) ->
           In sym (map d_symbol
                     (results_of
                        (validate_variables.Validator.unused_event_targets_results
                           fs self)))).
Proof.
  intros fs self Hwalk mp set_targets used_targets cleared_targets.
  assert (Hnot : forall sym l, ~ In sym l -> negb (mem sym l) = true).
  { intros sym l H. apply negb_true_iff. destruct (mem sym l) eqn:E; [|reflexivity].
    apply mem_spec in E. contradiction. }
  split; [|split].
  - intros flag_type false_positives sym Hft Hsym Hset.
    unfold results_of. rewrite cleared_flags_results_value by assumption.
    unfold cleared_flags_defects. cbv zeta. rewrite Hwalk. fold mp.
    destruct (recorded_file fs should_skip_file (cleared_flags_in flag_type)
                (txt_files_to_scan fs mp None) sym
                (clear_list_incl _ _ _ Hsym)) as (f & Hf & Hget & Hskip & Hin).
    unfold cleared_flags_in in Hin.
    destruct (str_in _ (text_of fs f false)); [|contradiction].
    apply in_findall_plain in Hin.
    assert (Hprobe : holds fs ("clr_" ++ flag_type ++ "_flag = " ++ sym) f = true).
    { apply text_holds; [discriminate|]. now rewrite <- !append_assoc in *. }
    destruct (full_path_of_found fs mp f _ Hf Hskip Hprobe) as (p & Hp & Hne).
    eapply (located_symbol_is_listed _ _ _ _ sym p
              (defects_for_located1 fs mp _ _
                 (fun flag => "clr_" ++ flag_type ++ "_flag = " ++ flag) _));
      [reflexivity| | |exact Hne].
    + apply filter_In. split; [exact Hsym | now apply Hnot].
    + unfold located1, occurrences. now rewrite Hget.
  - intros sym Hsym Hset.
    unfold results_of. rewrite cleared_event_targets_results_value.
    unfold cleared_event_targets_defects. cbv zeta. rewrite Hwalk. fold mp.
    destruct (recorded_file fs should_skip_file cleared_targets_in
                (txt_files_to_scan fs mp None) sym Hsym)
      as (f & Hf & Hget & Hskip & Hin).
    unfold cleared_targets_in in Hin.
    destruct (str_in _ (text_of fs f false)); [|contradiction].
    apply in_findall_plain in Hin.
    assert (Hprobe : holds fs ("clear_global_event_target = " ++ sym) f = true)
      by (apply text_holds; [discriminate | exact Hin]).
    destruct (full_path_of_found fs mp f _ Hf Hskip Hprobe) as (p & Hp & Hne).
    eapply (located_symbol_is_listed _ _ _ _ sym p
              (defects_for_located1 fs mp _ _
                 (fun target => "clear_global_event_target = " ++ target) _));
      [reflexivity| | |exact Hne].
    + apply filter_In. split; [exact Hsym | now apply Hnot].
    + unfold located1, occurrences. now rewrite Hget.
  - intros sym potential_results Hsym Hloc.
    unfold results_of. rewrite unused_event_targets_results_value.
    unfold unused_event_targets_defects. cbv zeta. rewrite Hwalk. fold mp.
    assert (Hlisted : In sym (fst set_targets)).
    { unfold potential_results in Hsym. apply filter_In in Hsym.
      eapply clear_list_incl. exact (proj1 Hsym). }
    destruct (recorded_file fs skip_tag_aliases set_targets_in
                (txt_files_to_scan fs mp None) sym Hlisted)
      as (f & Hf & Hget & Hskip & Hin).
    unfold skip_tag_aliases in Hskip. apply orb_false_iff in Hskip.
    destruct Hskip as [Hskip _].
    assert (Hprobe : holds fs ("save_event_target_as = " ++ sym) f = true
                     \/ holds fs ("save_global_event_target_as = " ++ sym) f = true).
    { unfold set_targets_in in Hin. apply in_app_or in Hin. destruct Hin as [Hin|Hin].
      - destruct (str_in "save_global_event_target_as =" (text_of fs f false));
          [|contradiction].
        apply in_findall_plain in Hin. right. apply text_holds; [discriminate|exact Hin].
      - destruct (str_in "save_event_target_as =" (text_of fs f false));
          [|contradiction].
        apply in_findall_plain in Hin. left. apply text_holds; [discriminate|exact Hin]. }
    assert (Hfound :
              exists p,
                located2 fs mp (snd set_targets)
                  (fun target => "save_event_target_as = " ++ target)
                  (fun target => "save_global_event_target_as = " ++ target) sym
                = Some p /\ p <> "").
    { unfold located2, set_targets, occurrences. rewrite Hget.
      destruct Hprobe as [H1|H2].
      - destruct (full_path_of_found fs mp f _ Hf Hskip H1) as (p & -> & Hne).
        exists p. split; [|exact Hne]. apply truthy_str_some in Hne. now rewrite Hne.
      - destruct (full_path_of fs mp (basename f) ("save_event_target_as = " ++ sym))
          as [q|] eqn:E1.
        + destruct (truthy_str (Some q)) eqn:Ht; cbn [negb].
          * exists q. split; [reflexivity | now apply truthy_str_some].
          * exact (full_path_of_found fs mp f _ Hf Hskip H2).
        + exact (full_path_of_found fs mp f _ Hf Hskip H2). }
    destruct Hfound as (p & Hp & Hne).
    eapply (located_symbol_is_listed _ _ _ _ sym p
              (defects_for_located2 fs mp _ _
                 (fun target => "save_event_target_as = " ++ target)
                 (fun target => "save_global_event_target_as = " ++ target) _));
      [reflexivity| |exact Hp|exact Hne].
    apply filter_In. split; [exact Hsym | now apply Hnot].
Qed.

(** ** What a run writes *)







































(** ** The Locator *)

Lemma find_first_such : forall p l, first_such p l (find p l).
Proof.
  intros p l. induction l as [|x l IH]; simpl; [intros y []|].
  destruct (p x) eqn:E.
  - exists [], l. repeat split; [assumption | intros y []].
  - destruct (find p l) as [z|]; simpl in *.
    + destruct IH as (l1 & l2 & -> & Hz & Hl1).
      exists (x :: l1), l2. repeat split; [assumption|].
      intros y [<-|Hy]; auto.
    + intros y [<-|Hy]; auto.
Qed.

Lemma for_each_opened_Forall :
  forall {A S} (f : S -> A -> M S) (P : A -> string -> Prop) l,
    (forall s x, In x l ->
                 (exists s', value (f s x) = inr s')
                 /\ Forall (P x) (opened (trace (f s x)))) ->
    forall s, Forall (fun path => exists x, In x l /\ P x path)
                     (opened (trace (for_each l s f))).
Proof.
  intros A S f P l. induction l as [|x l IH]; intros H s; [constructor|].
  cbn [for_each]. rewrite trace_bind.
  destruct (H s x (or_introl eq_refl)) as [(s' & Hv) Ho]. rewrite Hv, opened_app.
  apply Forall_app_2.
  - eapply Forall_impl; [|exact Ho]. intros path Hp. exists x. split; [now left | exact Hp].
  - eapply Forall_impl; [|apply IH; intros; apply H; now right].
    intros path (y & Hy & Hp). exists y. split; [now right | exact Hp].
Qed.

Lemma locator_opens_candidates :
  forall (files : list string) basename0
         (probe : string -> M (option string)),
    (forall filename, (exists r, value (probe filename) = inr r)
                      /\ opened (trace (probe filename)) = [filename]) ->
    forall found,
      Forall (candidate files basename0)
        (opened
           (trace
              (for_each files found
                 (fun found filename =>
                    match found with
                    | Some _ => ret found
                    | None =>
                        if String.eqb (basename filename) basename0 then
                          if should_skip_file filename then ret None
                          else probe filename
                        else ret None
                    end)))).
Proof.
  intros files basename0 probe Hprobe found.
  eapply Forall_impl;
    [|apply (for_each_opened_Forall _
               (fun x path => path = x /\ basename x = basename0
                              /\ should_skip_file x = false))].
  - intros path (x & Hx & -> & Hb & Hs). now split.
  - intros s x Hx. destruct s as [y|]; [split; [now eexists | constructor]|].
    destruct (String.eqb_spec (basename x) basename0) as [Hb|_];
      [|split; [now eexists | constructor]].
    destruct (should_skip_file x) eqn:Hs; [split; [now eexists | constructor]|].
    destruct (Hprobe x) as [Hv Ho]. split; [exact Hv|]. rewrite Ho.
    constructor; [now repeat split | constructor].
Qed.

Lemma full_path_of_any_case_lower : forall fs mod_path0 basename0 item,
    full_path_of_any_case fs mod_path0 basename0 (lower item)
    = full_path_of_any_case fs mod_path0 basename0 item.
Proof.
  intros. unfold full_path_of_any_case. apply find_ext. intros x.
  unfold holds_any_case. now rewrite lower_idem.
Qed.

(** X18. [get_full_path] never raises.  In [validate_variables.py] it
    returns the first walked [.txt] file with the given base name,
    outside the ignored directories, that can be read and holds the
    item, and [None] when there is none.  In
    [validate_scripted_localisation.py] it looks through the [.txt]
    files and then through the [.gui] files, and compares in lower
    case, so the letter case of the item does not matter.  In both it
    opens no file of another name and no file of an ignored
    directory. *)
Theorem locator_returns_the_first_file_that_holds_the_item :
  forall (fs : filesystem) (self : validator) (basename0 item : string),
    let txt_files := iglob_rec fs (mod_path self) ".txt" in
    let gui_files := iglob_rec fs (mod_path self) ".gui" in
    (exists r,
        value (validate_variables.Validator.get_full_path fs self basename0 item)
        = inr r
        /\ first_such
             (fun f => String.eqb (basename f) basename0
                       && negb (should_skip_file f) && holds fs item f)
             txt_files r)
    /\ Forall (candidate txt_files basename0)
         (opened (trace (validate_variables.Validator.get_full_path
                           fs self basename0 item)))
    /\ (exists r,
           value (validate_scripted_localisation.Validator.get_full_path
                    fs self basename0 item) = inr r
           /\ value (validate_scripted_localisation.Validator.get_full_path
                       fs self basename0 (lower item)) = inr r
           /\ first_such
                (fun f => String.eqb (basename f) basename0
                          && negb (should_skip_file f) && holds_any_case fs item f)
                (txt_files ++ gui_files)%list r)
    /\ Forall (candidate (txt_files ++ gui_files)%list basename0)
         (opened (trace (validate_scripted_localisation.Validator.get_full_path
                           fs self basename0 item))).
Proof.
  intros fs self basename0 item txt_files gui_files.
  split; [|split; [|split]].
  - eexists. split; [apply get_full_path_value|]. apply find_first_such.
  - unfold validate_variables.Validator.get_full_path.
    apply (locator_opens_candidates txt_files basename0
             (fun filename =>
                emit (EvOpen filename) ;;;
                match fs_read fs filename with
                | ReadOk content =>
                    if str_in item content then ret (Some filename) else ret None
                | ReadErr _ => ret None
                end)).
    intros filename. destruct (fs_read fs filename) as [content|];
      [destruct (str_in item content)|]; (split; [now eexists | reflexivity]).
  - eexists. split; [apply scripted_get_full_path_value|].
    split; [|apply find_first_such].
    now rewrite scripted_get_full_path_value, full_path_of_any_case_lower.
  - unfold validate_scripted_localisation.Validator.get_full_path.
    apply (locator_opens_candidates (txt_files ++ gui_files)%list basename0
             (fun filename =>
                emit (EvOpen filename) ;;;
                match fs_read fs filename with
                | ReadOk content =>
                    if str_in (lower item) (lower content)
                    then ret (Some filename) else ret None
                | ReadErr _ => ret None
                end)).
    intros filename. destruct (fs_read fs filename) as [content|];
      [destruct (str_in (lower item) (lower content))|];
      (split; [now eexists | reflexivity]).
Qed.

(** ** The statements at concrete inputs, continued *)

Lemma cleared_flag_gone_is_reported :
  In "gone"
    (map d_symbol
       (results_of (validate_variables.Validator.cleared_flags_results
                      tree_with_cleared_flag walker "country"
                      validate_variables.Validator.FALSE_POSITIVES_COUNTRY))).
Proof.
  destruct (plain_pattern_checks_report_every_survivor tree_with_cleared_flag walker
              eq_refl) as (H & _ & _).
  apply H.
  - apply mem_spec. reflexivity.
  - apply mem_spec. reflexivity.
  - intros Hin. apply mem_spec in Hin. discriminate.
Defined.

(** ** The directories [should_skip_file] tests *)

Lemma split_from_not_nil : forall s cur, split_from cur s <> [].
Proof.
  induction s as [|c s IH]; intros cur; simpl; [discriminate|].
  destruct (Ascii.eqb c "/"%char); [discriminate | apply IH].
Qed.

Lemma removelast_cons : forall {A} (x : A) l,
    l <> [] -> removelast (x :: l) = x :: removelast l.
Proof. intros A x [|y l] H; [congruence | reflexivity]. Qed.

Lemma prefix_cons : forall a p b s,
    prefix (String a p) (String b s) = if ascii_dec a b then prefix p s else false.
Proof. reflexivity. Qed.

Lemma no_slash_cons : forall c s,
    no_slash (String c s) = true -> Ascii.eqb c "/"%char = false /\ no_slash s = true.
Proof.
  intros c s H. unfold no_slash in *. cbn [all_chars] in H.
  apply andb_true_iff in H. destruct H as [Hc Hs]. split; [|exact Hs].
  now apply negb_true_iff.
Qed.

(** A name without a slash, followed by a slash, starts no text
    without a slash. *)
Lemma prefix_dir_no_slash : forall d x,
    no_slash x = true -> prefix (d ++ "/") x = false.
Proof.
  induction d as [|e d IH]; intros x Hx; cbn [append].
  - destruct x as [|c x]; [reflexivity|]. rewrite prefix_cons.
    apply no_slash_cons in Hx. destruct Hx as [Hc _].
    destruct (ascii_dec "/"%char c) as [<-|]; [|reflexivity].
    rewrite Ascii.eqb_refl in Hc. discriminate.
  - destruct x as [|c x]; [reflexivity|]. rewrite prefix_cons.
    apply no_slash_cons in Hx. destruct Hx as [_ Hx].
    destruct (ascii_dec e c); [now apply IH | reflexivity].
Qed.

(** Before a slash, it starts the text exactly when it is the text
    before the slash. *)
Lemma prefix_dir_slash : forall d cur s,
    no_slash d = true -> no_slash cur = true ->
    prefix (d ++ "/") (cur ++ String "/"%char s) = String.eqb d cur.
Proof.
  induction d as [|e d IH]; intros cur s Hd Hcur; cbn [append].
  - destruct cur as [|c cur]; cbn [append]; rewrite prefix_cons.
    + destruct (ascii_dec "/"%char "/"%char) as [_|n]; [now destruct s | now elim n].
    + apply no_slash_cons in Hcur. destruct Hcur as [Hc _].
      destruct (ascii_dec "/"%char c) as [<-|]; [|reflexivity].
      rewrite Ascii.eqb_refl in Hc. discriminate.
  - apply no_slash_cons in Hd. destruct Hd as [He Hd].
    destruct cur as [|c cur]; cbn [append]; rewrite prefix_cons.
    + destruct (ascii_dec e "/"%char) as [->|]; [|reflexivity].
      rewrite Ascii.eqb_refl in He. discriminate.
    + apply no_slash_cons in Hcur. destruct Hcur as [_ Hcur].
      cbn [String.eqb].
      destruct (ascii_dec e c) as [->|Hne].
      * rewrite Ascii.eqb_refl. now apply IH.
      * destruct (Ascii.eqb_spec e c); [contradiction | reflexivity].
Qed.

Lemma prefix_after_slash : forall d s,
    prefix ("/" ++ d ++ "/") (String "/"%char s) = prefix (d ++ "/") s.
Proof.
  intros d s. cbn [append]. rewrite prefix_cons.
  destruct (ascii_dec "/"%char "/"%char) as [_|n]; [reflexivity | now elim n].
Qed.

Lemma prefix_other_char : forall d c s,
    Ascii.eqb c "/"%char = false -> prefix ("/" ++ d ++ "/") (String c s) = false.
Proof.
  intros d c s H. cbn [append]. rewrite prefix_cons.
  destruct (ascii_dec "/"%char c) as [<-|]; [|reflexivity].
  rewrite Ascii.eqb_refl in H. discriminate.
Qed.

Lemma directories_from : forall d,
    no_slash d = true ->
    forall s cur,
      no_slash cur = true ->
      mem d (removelast (split_from cur s))
      = prefix (d ++ "/") (cur ++ s) || str_in ("/" ++ d ++ "/") s.
Proof.
  intros d Hd s. induction s as [|c s IH]; intros cur Hcur.
  - rewrite append_empty_r, prefix_dir_no_slash by assumption. reflexivity.
  - cbn [split_from]. rewrite (str_in_eq _ (String c s)).
    destruct (Ascii.eqb_spec c "/"%char) as [->|Hc].
    + rewrite removelast_cons by apply split_from_not_nil.
      rewrite prefix_dir_slash, prefix_after_slash by assumption.
      unfold mem at 1. cbn [existsb]. fold (mem d (removelast (split_from "" s))).
      rewrite (IH "") by reflexivity. cbn [append].
      now destruct (String.eqb d cur), (prefix (d ++ "/") s).
    + assert (Hc' : Ascii.eqb c "/"%char = false)
        by (destruct (Ascii.eqb_spec c "/"%char); congruence).
      rewrite prefix_other_char by assumption.
      rewrite IH.
      * now rewrite append_assoc.
      * unfold no_slash in *. rewrite all_chars_app, Hcur. cbn [all_chars andb].
        now rewrite Hc'.
Qed.

Lemma ignored_dirs_no_slash : forallb no_slash IGNORED_DIRS = true.
Proof. reflexivity. Qed.

(** X19. [should_skip_file] tests directory names, and whole names
    only: a file is skipped exactly when one of the directories of its
    path, at any depth, is called [gfx], [tools], [resources], [docs] or
    [map], after the backslashes of the path are read as slashes.  The
    name of the file itself does not count, nor does a directory whose
    name only starts or ends with one of the five. *)
Theorem should_skip_file_tests_directory_names :
  forall filename,
    should_skip_file filename
    = existsb
        (fun ignored_dir =>
           mem ignored_dir
               (directories_of (replace_char "\"%char "/"%char filename)))
        IGNORED_DIRS.
Proof.
  intros filename. unfold should_skip_file. cbv zeta.
  assert (H := ignored_dirs_no_slash). revert H.
  induction IGNORED_DIRS as [|d l IH]; intros H; [reflexivity|].
  cbn [forallb] in H. apply andb_true_iff in H. destruct H as [Hd Hl].
  cbn [existsb]. rewrite (IH Hl). f_equal.
  unfold directories_of, segments, startswith.
  rewrite (directories_from d Hd _ "") by reflexivity. apply orb_comm.
Qed.

(** ** Where the symbols come from *)

Lemma star_loop_suffix : forall p k s g rest,
    star_loop p k s = Some (g, rest) ->
    exists a s', s = a ++ s' /\ k s' = Some (g, rest).
Proof.
  intros p k s. induction s as [|c s IH]; intros g rest H; cbn [star_loop] in H.
  - now exists "", "".
  - destruct (p c); [|now exists "", (String c s)].
    destruct (star_loop p k s) as [[g' rest']|] eqn:E.
    + injection H as <- <-. destruct (IH _ _ eq_refl) as (a & s' & -> & Hk).
      now exists (String c a), s'.
    + now exists "", (String c s).
Qed.

Lemma lazy_loop_suffix : forall k s g rest,
    lazy_loop k s = Some (g, rest) ->
    exists a s', s = a ++ s' /\ k s' = Some (g, rest).
Proof.
  intros k s. induction s as [|c s IH]; intros g rest H; cbn [lazy_loop] in H.
  - destruct (k "") as [[g' rest']|] eqn:E; [|discriminate].
    injection H as <- <-. now exists "", "".
  - destruct (k (String c s)) as [[g' rest']|] eqn:E.
    + injection H as <- <-. now exists "", (String c s).
    + destruct (IH _ _ H) as (a & s' & -> & Hk). now exists (String c a), s'.
Qed.

(** The group of a match is a part of the text matched. *)
Lemma re_match_in_text : forall its s g rest,
    re_match its s = Some (g, rest) -> is_substring g s.
Proof.
  induction its as [|it its IH]; intros s g rest H.
  - injection H as <- _. now exists "", s.
  - destruct it as [l|p|p|p|]; cbn [re_match] in H.
    + destruct (strip_prefix l s) as [s'|] eqn:E; [|discriminate].
      apply strip_prefix_spec in E. subst s.
      apply is_substring_app_r. eapply IH. exact H.
    + destruct s as [|c s]; [discriminate|]. destruct (p c); [|discriminate].
      apply (is_substring_app_r g (String c "") s). eapply IH. exact H.
    + apply plus_loop_taken in H. destruct H as (taken & tail & -> & ->).
      now exists "", tail.
    + apply star_loop_suffix in H. destruct H as (a & s' & -> & Hk).
      apply is_substring_app_r. eapply IH. exact Hk.
    + apply lazy_loop_suffix in H. destruct H as (a & s' & -> & Hk).
      apply is_substring_app_r. eapply IH. exact Hk.
Qed.

Lemma findall_in_text : forall its s,
    Forall (fun g => is_substring g s) (findall its s).
Proof.
  intros its s. unfold findall. generalize 0.
  induction s as [|c s IH]; intros skip.
  - destruct skip; cbn [findall_from]; [|constructor].
    destruct (re_match its "") as [[g rest]|] eqn:E; [|constructor].
    constructor; [|constructor]. eapply re_match_in_text. exact E.
  - assert (Hrest : forall k, Forall (fun g => is_substring g (String c s))
                                     (findall_from its k s)).
    { intros k. eapply Forall_impl; [|apply IH]. intros g Hg.
      now apply (is_substring_app_r g (String c "") s). }
    destruct skip; cbn [findall_from]; [|apply Hrest].
    destruct (re_match its (String c s)) as [[g rest]|] eqn:E; [|apply Hrest].
    constructor; [|apply Hrest]. eapply re_match_in_text. exact E.
Qed.

Ltac in_text :=
  repeat match goal with
         | |- context [if ?b then _ else _] => destruct b
         | |- Forall _ (_ ++ _)%list => apply Forall_app_2
         | |- Forall _ [] => constructor
         | |- Forall _ (findall _ _) => apply findall_in_text
         end.

Lemma lower_char_not_upper : forall c, not_upper (lower_char c) = true.
Proof.
  intros c; destruct c as [[|] [|] [|] [|] [|] [|] [|] [|]]; reflexivity.
Qed.

Lemma lower_not_upper : forall s, all_chars not_upper (lower s) = true.
Proof.
  induction s as [|c s IH]; [reflexivity|].
  cbn [lower all_chars]. now rewrite lower_char_not_upper, IH.
Qed.

Lemma not_upper_lower : forall s, all_chars not_upper s = true -> lower s = s.
Proof.
  induction s as [|c s IH]; intros H; [reflexivity|].
  cbn [all_chars] in H. apply andb_true_iff in H. destruct H as [Hc Hs].
  cbn [lower]. rewrite (IH Hs). f_equal. unfold lower_char.
  unfold not_upper in Hc. apply negb_true_iff in Hc. now rewrite Hc.
Qed.

Lemma text_of_lowered : forall fs f, all_chars not_upper (text_of fs f true) = true.
Proof.
  intros fs f. unfold text_of. destruct (fs_read fs f); [apply lower_not_upper|].
  reflexivity.
Qed.

Lemma scan_met_in : forall fs lowercase skip found files,
    (forall f text_file, Forall (fun g => is_substring g text_file) (found f text_file)) ->
    Forall (met_in fs lowercase skip files)
           (fst (scan fs lowercase skip found files ([], []))).
Proof.
  intros fs lowercase skip found files Hfound. rewrite scan_fst. cbn [fst app].
  rewrite Forall_forall. intros sym Hsym. apply in_flat_map in Hsym.
  destruct Hsym as (f & Hf & Hsym). destruct (skip f) eqn:Hs; [contradiction|].
  specialize (Hfound f (text_of fs f lowercase)). rewrite Forall_forall in Hfound.
  specialize (Hfound sym Hsym). split.
  - exists f. repeat split; auto. now apply str_in_spec.
  - intros ->. apply not_upper_lower. destruct Hfound as (a & b & E).
    assert (H := text_of_lowered fs f). rewrite E, !all_chars_app in H.
    apply andb_true_iff in H. destruct H as [_ H].
    apply andb_true_iff in H. exact (proj1 H).
Qed.

Lemma symbols_met_in :
  forall (m : M (list string)) fs lowercase skip found files,
    value m = inr (give false (scan fs lowercase skip found files ([], []))) ->
    (forall f text_file, Forall (fun g => is_substring g text_file) (found f text_file)) ->
    Forall (met_in fs lowercase skip files) (symbols_of m).
Proof.
  intros m fs lowercase skip found files Hm Hfound.
  rewrite (symbols_of_value m _ Hm). now apply scan_met_in.
Qed.

(** X20. An extractor returns no symbol out of thin air: every symbol
    of its list occurs in the text of some file of its scan list that it
    does not pass over.  Called with [lowercase], it reads the texts in
    lower case, and every symbol it returns is in lower case. *)
Theorem extracted_symbols_occur_in_the_text :
  forall (fs : filesystem) (mod_path : string) (lowercase : bool)
         (flag_type : string) (staged_files : option (list string)),
    let txt_files := txt_files_to_scan fs mod_path staged_files in
    Forall (met_in fs lowercase should_skip_file txt_files)
      (symbols_of (validate_variables.Variables.get_all_used_flags
                     fs mod_path lowercase flag_type false staged_files))
    /\ Forall (met_in fs lowercase should_skip_file txt_files)
         (symbols_of (validate_variables.Variables.get_all_set_flags
                        fs mod_path lowercase flag_type false staged_files))
    /\ Forall (met_in fs lowercase should_skip_file txt_files)
         (symbols_of (validate_variables.Variables.get_all_cleared_flags
                        fs mod_path lowercase flag_type false staged_files))
    /\ Forall (met_in fs lowercase should_skip_file txt_files)
         (symbols_of (validate_variables.EventTargets.get_all_used_targets
                        fs mod_path lowercase false staged_files))
    /\ Forall (met_in fs lowercase skip_tag_aliases txt_files)
         (symbols_of (validate_variables.EventTargets.get_all_set_targets
                        fs mod_path lowercase false staged_files))
    /\ Forall (met_in fs lowercase should_skip_file txt_files)
         (symbols_of (validate_variables.EventTargets.get_all_cleared_targets
                        fs mod_path lowercase false staged_files))
    /\ Forall (met_in fs lowercase skip_FR_loc
                 (validate_scripted_localisation.ScriptedLocalisation.defined_files_to_scan
                    fs mod_path staged_files))
         (symbols_of
            (validate_scripted_localisation.ScriptedLocalisation.get_all_defined_localisations
               fs mod_path lowercase false staged_files)).
Proof.
  intros fs mod_path lowercase flag_type staged_files txt_files.
  assert (Hflags :
            Forall (met_in fs lowercase should_skip_file txt_files)
              (symbols_of (validate_variables.Variables.get_all_used_flags
                             fs mod_path lowercase flag_type false staged_files))
            /\ Forall (met_in fs lowercase should_skip_file txt_files)
                 (symbols_of (validate_variables.Variables.get_all_set_flags
                                fs mod_path lowercase flag_type false staged_files))
            /\ Forall (met_in fs lowercase should_skip_file txt_files)
                 (symbols_of (validate_variables.Variables.get_all_cleared_flags
                                fs mod_path lowercase flag_type false staged_files))).
  { destruct (in_dec string_dec flag_type validate_variables.FLAG_TYPES) as [Hin|Hn].
    - split; [|split].
      + apply (symbols_met_in _ _ _ _ _ _
                 (get_all_used_flags_value fs mod_path lowercase flag_type false
                    staged_files Hin)).
        intros. unfold used_flags_in. in_text.
      + apply (symbols_met_in _ _ _ _ _ _
                 (get_all_set_flags_value fs mod_path lowercase flag_type false
                    staged_files Hin)).
        intros. unfold set_flags_in. in_text.
      + apply (symbols_met_in _ _ _ _ _ _
                 (get_all_cleared_flags_value fs mod_path lowercase flag_type false
                    staged_files Hin)).
        intros. unfold cleared_flags_in. in_text.
    - destruct (flag_extractors_raise fs mod_path lowercase flag_type
                  staged_files "" Hn) as ((-> & -> & ->) & _).
      repeat split; constructor. }
  destruct Hflags as (H1 & H2 & H3).
  split; [exact H1|]. split; [exact H2|]. split; [exact H3|].
  split; [|split; [|split]].
  - apply (symbols_met_in _ _ _ _ _ _
             (get_all_used_targets_value fs mod_path lowercase false staged_files)).
    intros. unfold used_targets_in. in_text.
  - apply (symbols_met_in _ _ _ _ _ _
             (get_all_set_targets_value fs mod_path lowercase false staged_files)).
    intros. unfold set_targets_in. in_text.
  - apply (symbols_met_in _ _ _ _ _ _
             (get_all_cleared_targets_value fs mod_path lowercase false staged_files)).
    intros. unfold cleared_targets_in. in_text.
  - apply (symbols_met_in _ _ _ _ _ _
             (get_all_defined_localisations_value fs mod_path lowercase false
                staged_files)).
    intros. unfold defined_locs_in. in_text.
Qed.
